(** * dist-syst: discovery service and peer replication, verified model

    A shallow embedding of [src/file_server.py] and
    [src/discovery_server.py].  Python [str] values are modelled as
    [string] (one [ascii] per code point, so code points above U+00FF
    are not represented), tuples of strings as [list string], the
    insertion-ordered [dict] of the discovery registry as an
    association list with unique keys, and the effectful handlers in a
    small state / trace / exception monad. *)

From Stdlib Require Import String Ascii List Bool Arith ZArith NArith Lia.
From Stdlib Require Import Permutation DecimalString.
Import ListNotations.
Local Open Scope list_scope.
Local Open Scope string_scope.

(* ===================================================================== *)
(** * Python string primitives *)
(* ===================================================================== *)

Module Py.

(** The newline character, written [\n] in the source. *)
Definition nl : string := String (ascii_of_nat 10) EmptyString.

(** [str.isspace] on the code points below 256: TAB, LF, VT, FF, CR,
    FS, GS, RS, US, SPACE, NEL and NBSP. *)
Definition isspace (c : ascii) : bool :=
  let n := nat_of_ascii c in
  (((9 <=? n) && (n <=? 13)) || ((28 <=? n) && (n <=? 32))
   || (n =? 133) || (n =? 160))%nat.

(** [s.startswith(p)]. *)
Definition startswith (s p : string) : bool := String.prefix p s.

(** [sub in s] on strings. *)
Fixpoint contains (sub s : string) : bool :=
  String.prefix sub s ||
  match s with
  | EmptyString => false
  | String _ s' => contains sub s'
  end.

(** [s.lstrip()], [s.rstrip()] and [s.strip()]. *)
Fixpoint lstrip (s : string) : string :=
  match s with
  | EmptyString => EmptyString
  | String c s' => if isspace c then lstrip s' else s
  end.

Fixpoint rstrip (s : string) : string :=
  match s with
  | EmptyString => EmptyString
  | String c s' =>
      match rstrip s' with
      | EmptyString => if isspace c then EmptyString else String c EmptyString
      | r => String c r
      end
  end.

Definition strip (s : string) : string := rstrip (lstrip s).

(** [s.split()]: the maximal runs of non-whitespace characters.
    [cur] is the run being read, in reverse. *)
Definition rev_string (l : list ascii) : string :=
  string_of_list_ascii (List.rev l).

Definition flush (cur : list ascii) : list string :=
  match cur with
  | [] => []
  | _ => [rev_string cur]
  end.

Fixpoint split_ws_aux (cur : list ascii) (s : string) : list string :=
  match s with
  | EmptyString => flush cur
  | String c s' =>
      if isspace c then (flush cur ++ split_ws_aux [] s')%list
      else split_ws_aux (c :: cur) s'
  end.

Definition split (s : string) : list string := split_ws_aux [] s.

(** [s.split(sep)] for a one-character separator: empty fields are
    kept, and the result always has at least one element. *)
Fixpoint split_on_aux (sep : ascii) (cur : list ascii) (s : string)
  : list string :=
  match s with
  | EmptyString => [rev_string cur]
  | String c s' =>
      if Ascii.eqb c sep then rev_string cur :: split_on_aux sep [] s'
      else split_on_aux sep (c :: cur) s'
  end.

Definition split_on (sep : ascii) (s : string) : list string :=
  split_on_aux sep [] s.

(** [sep.join(l)]. *)
Definition join (sep : string) (l : list string) : string :=
  String.concat sep l.

(** Truthiness of a value that is [None] or a [str]. *)
Definition truthy (o : option string) : bool :=
  match o with
  | Some s => negb (s =? "")
  | None => false
  end.

(** [str(n)] for a non-negative [int]. *)
Definition str_of_N (n : N) : string :=
  NilEmpty.string_of_uint (N.to_uint n).

End Py.

(* ===================================================================== *)
(** * [validate_filename] *)
(* ===================================================================== *)

(** [validate_filename(filename)], read as a boolean: the source's
    [and] chain yields a falsy value exactly when this is [false]. *)
Definition validate_filename (filename : string) : bool :=
  negb (filename =? "")
  && negb (Py.contains "/" filename)
  && negb (Py.contains "\" filename)
  && negb (Py.contains ".." filename)
  && (String.length filename <? 255)%nat.

(* ===================================================================== *)
(** * Effects: state, a trace of events, and Python exceptions *)
(* ===================================================================== *)

(** The exceptions the modelled code can raise. *)
Inductive exn : Type :=
| ValueError
| IndexError
| KeyError
| OSError
| FileNotFoundError
| IsADirectoryError
| ConnectionError.

Inductive outcome (A : Type) : Type :=
| Return (a : A)
| Raise (e : exn).
Arguments Return {A} a.
Arguments Raise {A} e.

(** A computation over a state [S] that emits events [E].  The state
    and the events produced before an exception survive it, as the
    mutations of a Python object survive a [raise]. *)
Definition M (S E A : Type) : Type := S -> S * list E * outcome A.

Section Monad.
Context {S E : Type}.

Definition ret {A} (a : A) : M S E A := fun s => (s, [], Return a).

Definition bind {A B} (m : M S E A) (k : A -> M S E B) : M S E B :=
  fun s =>
    match m s with
    | (s1, t1, Return a) =>
        match k a s1 with
        | (s2, t2, o) => (s2, (t1 ++ t2)%list, o)
        end
    | (s1, t1, Raise e) => (s1, t1, Raise e)
    end.

Definition raise {A} (e : exn) : M S E A := fun s => (s, [], Raise e).

(** [try: m  except Exception as e: h e]. *)
Definition try_except {A} (m : M S E A) (h : exn -> M S E A) : M S E A :=
  fun s =>
    match m s with
    | (s1, t1, Return a) => (s1, t1, Return a)
    | (s1, t1, Raise e) =>
        match h e s1 with
        | (s2, t2, o) => (s2, (t1 ++ t2)%list, o)
        end
    end.

Definition emit (ev : E) : M S E unit := fun s => (s, [ev], Return tt).
Definition get : M S E S := fun s => (s, [], Return s).
Definition put (s' : S) : M S E unit := fun _ => (s', [], Return tt).

(** [l[i]] on a list: [IndexError] out of range. *)
Definition index {A} (l : list A) (i : nat) : M S E A :=
  match nth_error l i with
  | Some a => ret a
  | None => raise IndexError
  end.

(** A value that is there, or the given exception. *)
Definition or_raise {A} (o : option A) (e : exn) : M S E A :=
  match o with
  | Some a => ret a
  | None => raise e
  end.

(** [for x in l: st = body x st]. *)
Fixpoint for_each {A St} (body : A -> St -> M S E St) (l : list A) (st : St)
  : M S E St :=
  match l with
  | [] => ret st
  | x :: l' => bind (body x st) (for_each body l')
  end.
End Monad.

Notation "x <- c1 ;; c2" := (bind c1 (fun x => c2))
  (at level 61, c1 at next level, right associativity).
Notation "c1 ;; c2" := (bind c1 (fun _ => c2))
  (at level 61, right associativity).

(** Projections of a finished run. *)
Definition final_state {S E A} (r : S * list E * outcome A) : S := fst (fst r).
Definition trace {S E A} (r : S * list E * outcome A) : list E := snd (fst r).
Definition result {S E A} (r : S * list E * outcome A) : outcome A := snd r.

(* ===================================================================== *)
(** * The discovery server ([src/discovery_server.py]) *)
(* ===================================================================== *)

Module Discovery.

(** Number of consecutive missed updates before a node is evicted. *)
Definition NODE_TIMEOUT : nat := 3.

(** A registry key is [tuple(data.split()[1].split(":"))]: a tuple of
    strings, of length two for a well-formed [host:port]. *)
Definition address : Type := list string.

Definition address_eq_dec : forall a b : address, {a = b} + {a <> b} :=
  list_eq_dec string_dec.

(** What the server does to the outside: a listing pushed to a node
    (with whether [send_to_node] returned [True]), the reply written
    to a joiner, a printed error, the joiner's connection closed. *)
Inductive event : Type :=
| Push (node : address) (message : string) (acked : bool)
| Reply (message : string)
| Print (e : exn)
| Close.

Section Registry.
(** Values of [time.time()]. *)
Context {time : Type}.

Record node_record : Type :=
  { last_seen : time; missed_updates : nat }.

(** The global [nodes] dict, in insertion order. *)
Definition registry : Type := list (address * node_record).

Definition keys (nodes : registry) : list address := map fst nodes.

Fixpoint lookup (k : address) (nodes : registry) : option node_record :=
  match nodes with
  | [] => None
  | (k', r) :: rest =>
      if address_eq_dec k k' then Some r else lookup k rest
  end.

Fixpoint update (k : address) (f : node_record -> node_record)
  (nodes : registry) : registry :=
  match nodes with
  | [] => []
  | (k', r) :: rest =>
      if address_eq_dec k k' then (k', f r) :: rest
      else (k', r) :: update k f rest
  end.

Fixpoint remove (k : address) (nodes : registry) : registry :=
  match nodes with
  | [] => []
  | (k', r) :: rest =>
      if address_eq_dec k k' then rest else (k', r) :: remove k rest
  end.

Definition set_missed (n : nat) (r : node_record) : node_record :=
  {| last_seen := last_seen r; missed_updates := n |}.

Definition Md : Type -> Type := M registry event.

(** [nodes[node]]. *)
Definition getitem (node : address) : Md node_record :=
  nodes <- get ;;
  or_raise (lookup node nodes) KeyError.

(** [nodes[node]["missed_updates"] = f(nodes[node]["missed_updates"])]. *)
Definition modify_missed (node : address) (f : nat -> nat) : Md unit :=
  r <- getitem node ;;
  nodes <- get ;;
  put (update node (fun _ => set_missed (f (missed_updates r)) r) nodes).

(** [del nodes[node]]. *)
Definition delitem (node : address) : Md unit :=
  _ <- getitem node ;;
  nodes <- get ;;
  put (remove node nodes).

(** [f"{host}:{port}" for host, port in current_nodes]: unpacking a
    tuple that is not a pair raises [ValueError]. *)
Definition format_address (a : address) : option string :=
  match a with
  | [host; port] => Some (host ++ ":" ++ port)
  | _ => None
  end.

Fixpoint format_addresses (l : list address) : option (list string) :=
  match l with
  | [] => Some []
  | a :: l' =>
      match format_address a with
      | None => None
      | Some s =>
          match format_addresses l' with
          | None => None
          | Some ss => Some (s :: ss)
          end
      end
  end.

(** ["Peer-Node-Address-Listing\n" + "\n".join(...) + "\n"]. *)
Definition listing_message (current_nodes : list address) : Md string :=
  match format_addresses current_nodes with
  | Some lines =>
      ret ("Peer-Node-Address-Listing" ++ Py.nl
             ++ Py.join Py.nl lines ++ Py.nl)
  | None => raise ValueError
  end.

(** The body of the [for node in current_nodes] loop of
    [update_nodes].  [send_to_node] is the network: it answers
    whether the node acknowledged the message with [OK]; every
    exception inside it is turned into [False] by the source. *)
Definition push_node (send_to_node : address -> string -> bool)
  (current_nodes : list address) (node : address)
  (inactive_nodes : list address) : Md (list address) :=
  message <- listing_message current_nodes ;;
  let success := send_to_node node message in
  emit (Push node message success) ;;
  if success then
    modify_missed node (fun _ => 0) ;;
    ret inactive_nodes
  else
    modify_missed node (fun m => m + 1) ;;
    r <- getitem node ;;
    if (NODE_TIMEOUT <=? missed_updates r)%nat
    then ret (inactive_nodes ++ [node])%list
    else ret inactive_nodes.

(** One pass of the [while True] loop of [update_nodes], under the
    lock. *)
Definition update_cycle (send_to_node : address -> string -> bool)
  : Md unit :=
  nodes <- get ;;
  let current_nodes := keys nodes in
  inactive_nodes <-
    for_each (push_node send_to_node current_nodes) current_nodes [] ;;
  for_each (fun node _ => delitem node) inactive_nodes tt.

(** [update_nodes] for as many passes as there are network
    behaviours in [sends]; an exception ends the thread. *)
Fixpoint update_nodes (sends : list (address -> string -> bool))
  : Md unit :=
  match sends with
  | [] => ret tt
  | send_to_node :: rest =>
      update_cycle send_to_node ;; update_nodes rest
  end.

(** [handle_node_registration(conn, addr)].  [received] is the text
    [conn.recv(1024).decode("utf-8")] returned ([None]: it raised),
    [conn_open] whether [conn.sendall] succeeds, [now] the value of
    [time.time()]. *)
Definition handle_node_registration (received : option string)
  (conn_open : bool) (now : time) : Md unit :=
  try_except
    (raw <- or_raise received ConnectionError ;;
     let data := Py.strip raw in
     if Py.startswith data "Join-Discovery-Service" then
       field <- index (Py.split data) 1 ;;
       let node_address := Py.split_on ":" field in
       nodes <- get ;;
       (if in_dec address_eq_dec node_address (keys nodes) then ret tt
        else put (nodes ++ [(node_address,
                             {| last_seen := now;
                                missed_updates := 0 |})])%list) ;;
       nodes <- get ;;
       listing <- listing_message (keys nodes) ;;
       if conn_open then emit (Reply listing)
       else raise ConnectionError
     else ret tt)
    (fun e => emit (Print e)) ;;
  emit Close.

(** The Join message a node sends for the address [host:port]. *)
Definition join_message (host port : string) : string :=
  "Join-Discovery-Service " ++ host ++ ":" ++ port ++ Py.nl.
End Registry.

Arguments node_record : clear implicits.
Arguments registry : clear implicits.

End Discovery.

(* ===================================================================== *)
(** * The file server ([src/file_server.py]) *)
(* ===================================================================== *)

(** The Python numbers the file server computes with.  [pyfloat] is
    the set of timestamp values; [float_of_str] is [float(s)] and
    [int_of_str] is [int(s)], with [None] for [ValueError];
    [str_of_float] is the text an f-string gives a float; [float_gt]
    is [>]; [float_zero] is the [0] an absent file starts from.
    A NaN compares false with everything, so a reply carrying one is
    never adopted: it behaves as a reply whose timestamp does not
    parse, and [pyfloat] ranges over the values that [>] orders. *)
Class PyNum : Type := {
  pyfloat : Type;
  float_gt : pyfloat -> pyfloat -> bool;
  float_zero : pyfloat;
  float_of_str : string -> option pyfloat;
  str_of_float : pyfloat -> string;
  int_of_str : string -> option Z
}.

(** The values [load_config] returns that the modelled code reads. *)
Class Config : Type := {
  HOST : string;
  SOCK_PORT : N;
  STORAGE : string
}.

Module FileServer.

(** [os.path.join(a, b)] on a POSIX system. *)
Definition endswith (s suffix : string) : bool :=
  let n := String.length s in
  let m := String.length suffix in
  (m <=? n)%nat && (substring (n - m) m s =? suffix).

Definition os_path_join (a b : string) : string :=
  if Py.startswith b "/" then b
  else if (a =? "") || endswith a "/" then a ++ b
  else a ++ "/" ++ b.

(** What a handler does to the outside world, in order. *)
Inductive event : Type :=
| FsExists (path : string)
| FsGetmtime (path : string)
| FsRead (path : string)
| FsWrite (path : string) (data : string)
| FsListdir (path : string)
| TimestampQuery (host port message : string)
| ProvisionRequest (host : string) (port : Z) (message : string)
| DiscoveryJoin (message : string)
| ConnSend (data : string)
| ConnClose
| LogError (e : exn).

(** The body of an HTTP response: a text, the text of the download
    error with its exception, or the file [send_file] serves. *)
Inductive http_body : Type :=
| Text (s : string)
| ErrorDownloading (e : exn)
| Attachment (path : string) (data : string).

Definition http_response : Type := (nat * http_body)%type.

Section Server.
Context {num : PyNum} {cfg : Config}.

Record file : Type := { mtime : pyfloat; content : string }.

Record directory : Type :=
  { dir_mtime : pyfloat; dir_entries : list string }.

(** The world a handler runs in: the regular files by path, the
    directories by path (a path names a regular file when [files]
    knows it, else a directory when [dirs] knows it, else nothing),
    what opening a path for writing raises when the operating system
    refuses it for another reason than the path being a directory
    (a missing parent directory, permissions, a name it does not
    accept; [None]: it does not refuse), the cached peer list
    [NODES], what the peer at an address answers to a timestamp
    query and to a file request (the decoded result of the one
    [recv]; [None] when connecting, sending, receiving or decoding
    raises), whether the handler's own connection accepts
    [sendall], and the time a written file is stamped with. *)
Record world : Type := {
  files : string -> option file;
  dirs : string -> option directory;
  write_error : string -> option exn;
  NODES : list (list string);
  timestamp_peer : string -> string -> string -> option string;
  provision_peer : string -> Z -> string -> option string;
  conn_open : bool;
  clock : pyfloat
}.

Definition set_files (f : string -> option file) (w : world) : world :=
  {| files := f; dirs := dirs w; write_error := write_error w;
     NODES := NODES w;
     timestamp_peer := timestamp_peer w;
     provision_peer := provision_peer w;
     conn_open := conn_open w; clock := clock w |}.

Definition set_NODES (l : list (list string)) (w : world) : world :=
  {| files := files w; dirs := dirs w; write_error := write_error w;
     NODES := l;
     timestamp_peer := timestamp_peer w;
     provision_peer := provision_peer w;
     conn_open := conn_open w; clock := clock w |}.

Definition Mf : Type -> Type := M world event.

(** ** File system and socket primitives *)

(** The path names a directory. *)
Definition is_dir (w : world) (path : string) : bool :=
  match files w path, dirs w path with
  | None, Some _ => true
  | _, _ => false
  end.

(** [os.path.exists(path)]: true of regular files and of
    directories. *)
Definition os_path_exists (path : string) : Mf bool :=
  emit (FsExists path) ;;
  w <- get ;;
  ret (match files w path with
       | Some _ => true
       | None => match dirs w path with Some _ => true | None => false end
       end).

(** [os.path.getmtime(path)], of a regular file or of a directory. *)
Definition os_path_getmtime (path : string) : Mf pyfloat :=
  emit (FsGetmtime path) ;;
  w <- get ;;
  match files w path with
  | Some f => ret (mtime f)
  | None =>
      match dirs w path with
      | Some d => ret (dir_mtime d)
      | None => raise FileNotFoundError
      end
  end.

(** [with open(path, "rb") as f: f.read()], and the read of
    [send_file]: opening a directory raises [IsADirectoryError]. *)
Definition read_file (path : string) : Mf string :=
  emit (FsRead path) ;;
  w <- get ;;
  match files w path with
  | Some f => ret (content f)
  | None =>
      match dirs w path with
      | Some _ => raise IsADirectoryError
      | None => raise FileNotFoundError
      end
  end.

(** What [open(path, "wb")] raises: [IsADirectoryError] on a
    directory, else what [write_error] says. *)
Definition open_wb_error (w : world) (path : string) : option exn :=
  if is_dir w path then Some IsADirectoryError else write_error w path.

(** [with open(path, "wb") as f: f.write(data)], and [file.save];
    [FsWrite] is emitted when the data is written. *)
Definition write_file (path data : string) : Mf unit :=
  w <- get ;;
  match open_wb_error w path with
  | Some e => raise e
  | None =>
      emit (FsWrite path data) ;;
      put (set_files
             (fun p => if p =? path
                       then Some {| mtime := clock w; content := data |}
                       else files w p) w)
  end.

(** [os.listdir(path)]: raises on a regular file and on a path that
    does not exist. *)
Definition os_listdir (path : string) : Mf (list string) :=
  emit (FsListdir path) ;;
  w <- get ;;
  match files w path with
  | Some _ => raise OSError
  | None =>
      d <- or_raise (dirs w path) OSError ;;
      ret (dir_entries d)
  end.

(** [conn.sendall(data)]. *)
Definition sendall (data : string) : Mf unit :=
  w <- get ;;
  if conn_open w then emit (ConnSend data) else raise ConnectionError.

(** [float(s)] and [int(s)]. *)
Definition float (s : string) : Mf pyfloat :=
  or_raise (float_of_str s) ValueError.

Definition int (s : string) : Mf Z :=
  or_raise (int_of_str s) ValueError.

(** [f"{HOST}:{SOCK_PORT}"]. *)
Definition own_address : string := HOST ++ ":" ++ Py.str_of_N SOCK_PORT.

(** ** [get_timestamp] *)

Definition get_timestamp (filename : string) : Mf (option string) :=
  if negb (validate_filename filename) then ret None
  else
    let path := os_path_join STORAGE filename in
    present <- os_path_exists path ;;
    if present then
      timestamp <- os_path_getmtime path ;;
      ret (Some ("Last-Modified " ++ filename ++ " "
                   ++ str_of_float timestamp ++ " " ++ own_address))
    else ret None.

(** ** [latest_timestamp] *)

(** The local variables [latest], [latest_ts], [latest_node]. *)
Record resolution : Type := {
  latest : option string;
  latest_ts : pyfloat;
  latest_node : option string
}.

(** The body of the [try] for one peer. *)
Definition query_peer (filename host port : string) (st : resolution)
  : Mf resolution :=
  let message := "Last-Modified-Check " ++ filename ++ Py.nl in
  emit (TimestampQuery host port message) ;;
  w <- get ;;
  raw <- or_raise (timestamp_peer w host port message) ConnectionError ;;
  let response := Py.strip raw in
  if Py.startswith response "Last-Modified" then
    match Py.split response with
    | [_; _; timestamp; node] =>
        t <- float timestamp ;;
        if float_gt t (latest_ts st) then
          ret {| latest := Some response; latest_ts := t;
                 latest_node := Some node |}
        else ret st
    | _ => raise ValueError
    end
  else ret st.

(** One round of [for host, port in NODES]. *)
Definition visit_peer (filename : string) (peer : list string)
  (st : resolution) : Mf resolution :=
  match peer with
  | [host; port] =>
      try_except (query_peer filename host port st)
        (fun e => emit (LogError e) ;; ret st)
  | _ => raise ValueError
  end.

(** The start of [latest_timestamp]: the local claim and the
    timestamp read back from its third field. *)
Definition local_claim (filename : string) : Mf resolution :=
  latest <- get_timestamp filename ;;
  latest_ts <-
    (if Py.truthy latest then
       match latest with
       | Some l => field <- index (Py.split l) 2 ;; float field
       | None => ret float_zero
       end
     else ret float_zero) ;;
  ret {| latest := latest; latest_ts := latest_ts; latest_node := None |}.

(** [latest_timestamp] up to its [return]. *)
Definition resolve (filename : string) : Mf resolution :=
  st <- local_claim filename ;;
  w <- get ;;
  for_each (visit_peer filename) (NODES w) st.

Definition latest_timestamp (filename : string)
  : Mf (option string * option string) :=
  st <- resolve filename ;;
  ret (latest st, latest_node st).

(** ** The HTTP endpoints *)

(** [send_file(filepath, as_attachment=True)]. *)
Definition send_file (filepath : string) : Mf http_response :=
  data <- read_file filepath ;;
  ret (200, Attachment filepath data).

(** The fetch from the owner, inside its [try]. *)
Definition fetch_from (filename filepath host port : string) : Mf unit :=
  p <- int port ;;
  let message := "File-Provision-Request " ++ filename ++ Py.nl in
  emit (ProvisionRequest host p message) ;;
  w <- get ;;
  data <- or_raise (provision_peer w host p message) ConnectionError ;;
  write_file filepath data.

Definition get_file (filename : string) : Mf http_response :=
  if negb (validate_filename filename) then
    ret (400, Text "Invalid filename")
  else
    r <- latest_timestamp filename ;;
    let '(latest, latest_node) := r in
    let filepath := os_path_join STORAGE filename in
    absent <-
      (if negb (Py.truthy latest) then
         present <- os_path_exists (os_path_join STORAGE filename) ;;
         ret (negb present)
       else ret false) ;;
    if absent then ret (404, Text "File not found")
    else
      match latest_node with
      | Some node =>
          if Py.truthy latest_node && negb (node =? own_address) then
            match Py.split_on ":" node with
            | [host; port] =>
                failed <-
                  try_except
                    (fetch_from filename filepath host port ;; ret None)
                    (fun e => ret (Some (500, ErrorDownloading e))) ;;
                match failed with
                | Some response => ret response
                | None => send_file filepath
                end
            | _ => raise ValueError
            end
          else send_file filepath
      | None => send_file filepath
      end.

(** [save_file]; [upload] is [request.files["file"]] when present. *)
Definition save_file (filename : string) (upload : option string)
  : Mf http_response :=
  if negb (validate_filename filename) then
    ret (400, Text "Invalid filename")
  else
    match upload with
    | None => ret (400, Text "No file provided")
    | Some data =>
        write_file (os_path_join STORAGE filename) data ;;
        ret (204, Text "")
    end.

(** The web framework answers an exception that escapes a view
    with status 500. *)
Definition serve_http (view : Mf http_response) : Mf http_response :=
  try_except view (fun _ => ret (500, Text "Internal Server Error")).

(** ** The peer request dispatcher *)

(** The [try] of [handle_socket_request]. *)
Definition dispatch (data : string) : Mf unit :=
  if Py.startswith data "Last-Modified-Check" then
    filename <- index (Py.split data) 1 ;;
    response <- get_timestamp filename ;;
    sendall (match response with
             | Some r => if Py.truthy response then r else "File not found"
             | None => "File not found"
             end)
  else if Py.startswith data "File-Provision-Request" then
    filename <- index (Py.split data) 1 ;;
    let filepath := os_path_join STORAGE filename in
    present <- os_path_exists filepath ;;
    if present then
      data <- read_file filepath ;;
      sendall data
    else sendall "File not found"
  else if Py.startswith data "Index-Listing-Request" then
    files <- os_listdir STORAGE ;;
    sendall ("Index-Listing" ++ Py.nl ++ Py.join Py.nl files ++ Py.nl)
  else ret tt.

Definition handle_socket_request (data : string) : Mf unit :=
  try_except (dispatch data)
    (fun e => emit (LogError e) ;; sendall "Error processing request").

(** [handle_connection]; [received] is the text
    [conn.recv(1024).decode('utf-8')] returned, [None] when it
    raised.  Leaving the [with conn] block closes the connection. *)
Definition handle_connection (received : option string) : Mf unit :=
  try_except
    (raw <- or_raise received ConnectionError ;;
     handle_socket_request (Py.strip raw))
    (fun e => emit (LogError e)) ;;
  emit ConnClose.

(** ** Joining the discovery service *)

(** [[tuple(node.split(":")) for node in response.split("\n")[1:]
    if node]]. *)
Definition parse_listing (response : string) : list (list string) :=
  map (Py.split_on ":")
    (filter (fun node => negb (node =? ""))
       (tl (Py.split_on (ascii_of_nat 10) response))).

(** One round of the retry loop of [join_discovery_service].
    [connection] is [None] when [socket.create_connection] raises,
    before anything is sent; otherwise the Join is handed to
    [sendall] and [connection] holds what the discovery server's
    reply reads as, [None] when [sendall], [recv] or the decoding
    raises.  [true] is the [break]. *)
Definition join_round (connection : option (option string)) : Mf bool :=
  try_except
    (reply <- or_raise connection ConnectionError ;;
     emit (DiscoveryJoin
             ("Join-Discovery-Service " ++ own_address ++ Py.nl)) ;;
     raw <- or_raise reply ConnectionError ;;
     let response := Py.strip raw in
     (if Py.startswith response "Peer-Node-Address-Listing" then
        w <- get ;; put (set_NODES (parse_listing response) w)
      else ret tt) ;;
     ret true)
    (fun e => ret false).

(** A round whose connection is made. *)
Definition join_attempt (reply : option string) : Mf bool :=
  join_round (Some reply).

(** The retry loop, for as many rounds as [connections] has. *)
Fixpoint join_discovery_service
  (connections : list (option (option string))) : Mf unit :=
  match connections with
  | [] => ret tt
  | connection :: rest =>
      joined <- join_round connection ;;
      if joined then ret tt else join_discovery_service rest
  end.

(** ** A node that is its own peer *)

(** What [recv(1024)] returns of a message sent in one piece. *)
Definition recv1024 (data : string) : string := substring 0 1024 data.

Definition sent_bytes (t : list event) : string :=
  String.concat ""
    (flat_map (fun ev => match ev with
                         | ConnSend d => [d]
                         | _ => []
                         end) t).

(** The reply a client reads when the request [message] is handled
    by [handle_connection] in the world [w]. *)
Definition served_reply (w : world) (message : string) : string :=
  recv1024 (sent_bytes (trace (handle_connection
                                 (Some (recv1024 message)) w))).

(** The world [w] in which timestamp queries to the node's own
    address are answered by the node's own dispatcher. *)
Definition with_loopback (w : world) : world :=
  {| files := files w; dirs := dirs w; write_error := write_error w;
     NODES := NODES w;
     timestamp_peer := fun host port message =>
       if (host =? HOST) && (port =? Py.str_of_N SOCK_PORT)
       then Some (served_reply w message)
       else timestamp_peer w host port message;
     provision_peer := provision_peer w;
     conn_open := conn_open w; clock := clock w |}.
End Server.

End FileServer.

(** ** A concrete number model: whole, non-negative seconds

    Timestamps are natural numbers printed as Python prints an
    integral float ([100.0]); [float] reads digits, optionally
    followed by a dot and zeros; [int] reads digits. *)
Module WholeSeconds.

Definition digits (s : string) : option N :=
  if s =? "" then None
  else option_map N.of_uint (NilEmpty.uint_of_string s).

Fixpoint all_zeros (s : string) : bool :=
  match s with
  | EmptyString => true
  | String c s' => Ascii.eqb c "0" && all_zeros s'
  end.

Definition parse_float (s : string) : option N :=
  match Py.split_on "." s with
  | [whole] => digits whole
  | [whole; frac] => if all_zeros frac then digits whole else None
  | _ => None
  end.

Definition print_float (t : N) : string := Py.str_of_N t ++ ".0".

Definition parse_int (s : string) : option Z :=
  option_map Z.of_N (digits s).

Definition num : PyNum := {|
  pyfloat := N;
  float_gt := fun a b => N.ltb b a;
  float_zero := 0%N;
  float_of_str := parse_float;
  str_of_float := print_float;
  int_of_str := parse_int
|}.

End WholeSeconds.

(* ===================================================================== *)
(** * Specification vocabulary *)
(* ===================================================================== *)

Module Spec.

Fixpoint all_chars (p : ascii -> bool) (s : string) : bool :=
  match s with
  | EmptyString => true
  | String c s' => p c && all_chars p s'
  end.

(** A non-empty text without whitespace: one field of a protocol line. *)
Definition is_token (s : string) : bool :=
  negb (s =? "") && all_chars (fun c => negb (Py.isspace c)) s.

(** A host or a port as the wire format [host:port] can carry it:
    no whitespace and no colon. *)
Definition is_field (s : string) : bool :=
  all_chars (fun c => negb (Py.isspace c) && negb (Ascii.eqb c ":")) s.

(** A registry key that is a [(host, port)] pair. *)
Definition is_pair (a : list string) : bool :=
  match a with
  | [_; _] => true
  | _ => false
  end.

(** The listing of the addresses [ks], one [host:port] line each. *)
Definition listing_text (ks : list (list string)) : string :=
  "Peer-Node-Address-Listing" ++ Py.nl
    ++ Py.join Py.nl (map (Py.join ":") ks) ++ Py.nl.

(** [f] applied to a returned value. *)
Definition map_outcome {A B} (f : A -> B) (o : outcome A) : outcome B :=
  match o with
  | Return a => Return (f a)
  | Raise e => Raise e
  end.

Section Discovery.
Context {time : Type}.
Import Discovery.

(** What one update pass makes of one registry entry when the push
    carries [message]: the counter is reset on an acknowledgement,
    and the entry is dropped once a miss takes it to the threshold. *)
Definition after_push (send_to_node : address -> string -> bool)
  (message : string) (entry : address * node_record time)
  : option (address * node_record time) :=
  let (k, r) := entry in
  if send_to_node k message then Some (k, set_missed 0 r)
  else if (NODE_TIMEOUT <=? missed_updates r + 1)%nat then None
       else Some (k, set_missed (missed_updates r + 1) r).

(** The entry as the push loop leaves it, before the removals. *)
Definition pushed (send_to_node : address -> string -> bool)
  (message : string) (entry : address * node_record time)
  : address * node_record time :=
  let (k, r) := entry in
  (k, if send_to_node k message then set_missed 0 r
      else set_missed (missed_updates r + 1) r).

(** The push loop lists the entry in [inactive_nodes]. *)
Definition evicted (send_to_node : address -> string -> bool)
  (message : string) (entry : address * node_record time) : bool :=
  let (k, r) := entry in
  negb (send_to_node k message)
  && (NODE_TIMEOUT <=? missed_updates r + 1)%nat.

Fixpoint after_cycle (send_to_node : address -> string -> bool)
  (message : string) (nodes : registry time) : registry time :=
  match nodes with
  | [] => []
  | entry :: rest =>
      match after_push send_to_node message entry with
      | Some entry' => entry' :: after_cycle send_to_node message rest
      | None => after_cycle send_to_node message rest
      end
  end.

(** The registry after the passes [sends], and the pushes they make. *)
Fixpoint after_cycles (sends : list (address -> string -> bool))
  (nodes : registry time) : registry time :=
  match sends with
  | [] => nodes
  | send_to_node :: rest =>
      after_cycles rest
        (after_cycle send_to_node (listing_text (keys nodes)) nodes)
  end.

Definition pushes_of_cycle (send_to_node : address -> string -> bool)
  (nodes : registry time) : list event :=
  map (fun k => Push k (listing_text (keys nodes))
                  (send_to_node k (listing_text (keys nodes))))
    (keys nodes).

Fixpoint pushes_of (sends : list (address -> string -> bool))
  (nodes : registry time) : list event :=
  match sends with
  | [] => []
  | send_to_node :: rest =>
      (pushes_of_cycle send_to_node nodes
         ++ pushes_of rest
              (after_cycle send_to_node (listing_text (keys nodes)) nodes))%list
  end.

(** Every counter is below the eviction threshold. *)
Definition below_threshold (nodes : registry time) : Prop :=
  Forall (fun entry => missed_updates (snd entry) < NODE_TIMEOUT) nodes.

(** The registry as the source's types allow it: unique keys, each
    a [(host, port)] pair. *)
Definition well_formed (nodes : registry time) : Prop :=
  NoDup (keys nodes) /\ forallb is_pair (keys nodes) = true.
End Discovery.

Section FileServer.
Context {num : PyNum} {cfg : Config}.
Import FileServer.

(** The claim a peer's reply amounts to: the reply text, its
    timestamp and its owner, when the exchange succeeds and the
    reply is a well-formed [Last-Modified] line. *)
Definition peer_claim (w : world) (filename : string) (peer : list string)
  : option (string * pyfloat * string) :=
  match peer with
  | [host; port] =>
      match timestamp_peer w host port
              ("Last-Modified-Check " ++ filename ++ Py.nl) with
      | Some raw =>
          let response := Py.strip raw in
          if Py.startswith response "Last-Modified" then
            match Py.split response with
            | [_; _; timestamp; node] =>
                match float_of_str timestamp with
                | Some t => Some (response, t, node)
                | None => None
                end
            | _ => None
            end
          else None
      | None => None
      end
  | _ => None
  end.

(** The strict comparison that adopts a claim. *)
Definition adopt (st : resolution)
  (c : option (string * pyfloat * string)) : resolution :=
  match c with
  | Some (response, t, node) =>
      if float_gt t (latest_ts st) then
        {| latest := Some response; latest_ts := t;
           latest_node := Some node |}
      else st
  | None => st
  end.

(** One round of the loop over the peers, on the values: the peer's
    claim, if it gives one, is adopted when strictly newer. *)
Definition visit (w : world) (filename : string) (st : resolution)
  (peer : list string) : resolution :=
  adopt st (peer_claim w filename peer).

(** [>] on timestamps is a strict total order. *)
Record strict_total_order : Prop := {
  gt_irrefl : forall a, float_gt a a = false;
  gt_trans : forall a b c,
    float_gt a b = true -> float_gt b c = true -> float_gt a c = true;
  gt_total : forall a b,
    float_gt a b = false -> float_gt b a = false -> a = b
}.


(** The request starts with one of the three commands of the peer
    protocol. *)
Definition is_known_request (data : string) : bool :=
  Py.startswith data "Last-Modified-Check"
  || Py.startswith data "File-Provision-Request"
  || Py.startswith data "Index-Listing-Request".

(** A fetch from a peer was attempted. *)
Definition is_fetch (ev : event) : bool :=
  match ev with
  | ProvisionRequest _ _ _ => true
  | _ => false
  end.

(** The event touches the file system. *)
Definition is_file_access (ev : event) : bool :=
  match ev with
  | FsExists _ | FsGetmtime _ | FsRead _ | FsWrite _ _ | FsListdir _ => true
  | _ => false
  end.
End FileServer.

End Spec.

(* ===================================================================== *)
(** * Concrete nodes and worlds *)
(* ===================================================================== *)

Module Example.
Import FileServer.
#[local] Existing Instance WholeSeconds.num.

Definition node_a : Config :=
  {| HOST := "10.0.0.1"; SOCK_PORT := 6000; STORAGE := "storage" |}.
Definition node_b : Config :=
  {| HOST := "10.0.0.2"; SOCK_PORT := 6000; STORAGE := "storage" |}.
Definition node_c : Config :=
  {| HOST := "10.0.0.3"; SOCK_PORT := 6000; STORAGE := "storage" |}.

Definition addr_a : list string := ["10.0.0.1"; "6000"].
Definition addr_b : list string := ["10.0.0.2"; "6000"].
Definition addr_c : list string := ["10.0.0.3"; "6000"].

(** A disk holding the listed files, by path. *)
Fixpoint disk (entries : list (string * (N * string))) (path : string)
  : option (@file WholeSeconds.num) :=
  match entries with
  | [] => None
  | (p, (t, data)) :: rest =>
      if path =? p then Some {| mtime := t; content := data |}
      else disk rest path
  end.

(** A node with the given disk and cached peers whose peers answer
    timestamp queries as [network] says. *)
Definition node (entries : list (string * (N * string)))
  (peers : list (list string))
  (network : string -> string -> string -> option string)
  : @world WholeSeconds.num :=
  {| files := disk entries;
     dirs := fun _ => None;
     write_error := fun _ => None;
     NODES := peers;
     timestamp_peer := network;
     provision_peer := fun _ _ _ => None;
     conn_open := true;
     clock := 0%N |}.

Definition unreachable : string -> string -> string -> option string :=
  fun _ _ _ => None.

(** The network seen from node A: the peers B and C answer through
    their own dispatchers, everything else is unreachable. *)
Definition network_of (world_b world_c : @world WholeSeconds.num)
  : string -> string -> string -> option string :=
  fun host port message =>
    if (host =? "10.0.0.2") && (port =? "6000") then
      Some (served_reply (cfg := node_b) world_b message)
    else if (host =? "10.0.0.3") && (port =? "6000") then
      Some (served_reply (cfg := node_c) world_c message)
    else None.

(** Node A stores [report 2024], written at 1700000000; node B
    stores an older file named [report]. *)
Definition report_on_b : @world WholeSeconds.num :=
  node [("storage/report", (1600000000%N, "old"))] [] unreachable.

Definition report_on_a : @world WholeSeconds.num :=
  node [("storage/report 2024", (1700000000%N, "new"))] [addr_b]
    (network_of report_on_b (node [] [] unreachable)).

(** Node A stores [a b] and knows no peer. *)
Definition spaced_name_on_a : @world WholeSeconds.num :=
  node [("storage/a b", (100%N, "data"))] [] unreachable.

(** Node A stores [a] but not [a b]; its peer list is what a Join
    gives it, and queries to its own address reach its own
    dispatcher. *)
Definition alone_on_a (peers : list (list string)) : @world WholeSeconds.num :=
  node [("storage/a", (100%N, "data"))] peers unreachable.

(** Nodes B and C both store [notes.txt] with the same timestamp. *)
Definition notes_on_b : @world WholeSeconds.num :=
  node [("storage/notes.txt", (500%N, "from b"))] [] unreachable.


(** Node C holds a newer [notes.txt] than node B. *)
Definition newer_notes_on_c : @world WholeSeconds.num :=
  node [("storage/notes.txt", (600%N, "newer, from c"))] [] unreachable.
Definition newer_seen_from_a (peers : list (list string))
  : @world WholeSeconds.num :=
  node [] peers (network_of notes_on_b newer_notes_on_c).

(** A file outside the storage directory. *)
Definition with_secret : @world WholeSeconds.num :=
  node [("storage/../secret", (7%N, "top secret"))] [] unreachable.

(** A discovery registry with two nodes, and a network on which
    node B has stopped answering. *)
Definition two_nodes : Discovery.registry N :=
  [(addr_a, {| Discovery.last_seen := 0%N; Discovery.missed_updates := 0 |});
   (addr_b, {| Discovery.last_seen := 0%N; Discovery.missed_updates := 0 |})].

Definition b_is_down (node : Discovery.address) (message : string) : bool :=
  if Discovery.address_eq_dec node addr_b then false else true.

Definition all_up (node : Discovery.address) (message : string) : bool := true.

End Example.

(* ===================================================================== *)
(** * The rest of the two servers *)
(* ===================================================================== *)

(** ** [send_to_node] of the discovery server *)

Module Wire.
Import Discovery.

(** [send_to_node(node_address, message)].  [exchange] is the socket:
    what [sock.recv(1024).decode("utf-8")] returns once [message] was
    sent to the address, [None] when connecting, sending, receiving
    or decoding raises. *)
Definition send_to_node (exchange : address -> string -> option string)
  (node_address : address) (message : string) : bool :=
  match exchange node_address message with
  | Some raw => Py.strip raw =? "OK"
  | None => false
  end.

End Wire.

(** ** [listen_for_discovery_updates] of the file server *)

Module Listener.
Import FileServer.

(** What the listener does to the outside. *)
Inductive event : Type :=
| Connected
| Ack (data : string)
| Printed (e : exn)
| Reconnecting.

Section Listener.
Context {num : PyNum} {cfg : Config}.

Definition Ml : Type -> Type := M world event.

(** The inner [while True]: [reads] are the results of the successive
    [sock.recv(1024).decode("utf-8")] calls ([None]: the call raised,
    a timeout included), [can_send] whether [sock.sendall] succeeds.
    The loop is followed for as long as [reads] lasts. *)
Fixpoint listen (can_send : bool) (reads : list (option string)) : Ml unit :=
  match reads with
  | [] => ret tt
  | read :: rest =>
      raw <- or_raise read ConnectionError ;;
      let response := Py.strip raw in
      if response =? "" then ret tt
      else
        (if Py.startswith response "Peer-Node-Address-Listing" then
           w <- get ;;
           put (set_NODES (parse_listing response) w) ;;
           if can_send then emit (Ack ("OK" ++ Py.nl))
           else raise ConnectionError
         else ret tt) ;;
        listen can_send rest
  end.

(** One round of the outer [while True]: [connection] is [None] when
    [socket.create_connection] raises. *)
Definition listen_once (can_send : bool)
  (connection : option (list (option string))) : Ml unit :=
  try_except
    (reads <- or_raise connection ConnectionError ;;
     emit Connected ;;
     listen can_send reads)
    (fun e => emit (Printed e)) ;;
  emit Reconnecting.

Fixpoint listen_for_discovery_updates (can_send : bool)
  (connections : list (option (list (option string)))) : Ml unit :=
  match connections with
  | [] => ret tt
  | connection :: rest =>
      listen_once can_send connection ;;
      listen_for_discovery_updates can_send rest
  end.
End Listener.

End Listener.

(** ** The discovery server as a whole *)

Module Service.
Import Discovery.

Section Service.
Context {time : Type}.

(** What reaches the discovery server: a connection handled by
    [handle_node_registration], or the update thread waking up for
    one pass with the network behaving as [send_to_node]. *)
Inductive request : Type :=
| Connection (received : option string) (conn_open : bool) (now : time)
| Wake (send_to_node : address -> string -> bool).

(** The registry and whether the update thread is still running: an
    exception that escapes a pass ends the thread, the accept loop
    goes on. *)
Definition serve_one (r : request) (st : registry time * bool)
  : registry time * bool :=
  let (nodes, updating) := st in
  match r with
  | Connection received conn_open now =>
      (final_state (handle_node_registration received conn_open now nodes),
       updating)
  | Wake send_to_node =>
      if updating then
        match update_cycle send_to_node nodes with
        | (nodes', _, Return _) => (nodes', true)
        | (nodes', _, Raise _) => (nodes', false)
        end
      else (nodes, false)
  end.

Definition serve (requests : list request) (st : registry time * bool)
  : registry time * bool :=
  fold_left (fun st r => serve_one r st) requests st.
End Service.

Arguments request : clear implicits.

End Service.

(** ** More vocabulary *)

Module Spec2.
Import FileServer.



(** The endpoint behind a registered address: the peer dispatcher of
    the file server that runs there, if any. *)
Definition file_server_at {num : PyNum}
  (running : list string -> option (Config * world))
  : list string -> string -> option string :=
  fun node message =>
    match running node with
    | Some (cfg, w) => Some (served_reply (cfg := cfg) w message)
    | None => None
    end.

(** A reply was sent on the handler's own connection. *)
Definition is_send (ev : event) : bool :=
  match ev with
  | ConnSend _ => true
  | _ => false
  end.

(** A round of the Join loop that raised before a reply was read,
    and a round whose connection was made. *)
Definition round_failed (connection : option (option string)) : bool :=
  match connection with
  | Some (Some _) => false
  | _ => true
  end.

Definition round_connected (connection : option (option string)) : bool :=
  match connection with
  | Some _ => true
  | None => false
  end.

(** [sock.recv(1024 * 1024)] of data sent in one piece. *)
Definition recv_mib (data : string) : string :=
  substring 0 (1024 * 1024) data.

Section Claims.
Context {num : PyNum} {cfg : Config}.

(** The bytes a client reads with [recv(1024 * 1024)] when the request
    [message] is handled by [handle_connection] in the world [w]. *)
Definition served_file (w : world) (message : string) : string :=
  recv_mib (sent_bytes (trace (handle_connection
                                 (Some (recv1024 message)) w))).

(** The claim line [get_timestamp] formats. *)
Definition claim_text (filename : string) (t : pyfloat) : string :=
  "Last-Modified " ++ filename ++ " " ++ str_of_float t ++ " " ++ own_address.

(** The reads keep the listener's connection going: each returns a
    text that is not empty once stripped. *)
Definition keeps_listening (read : option string) : bool :=
  match read with
  | Some raw => negb (Py.strip raw =? "")
  | None => false
  end.
End Claims.

End Spec2.

(** ** More concrete inputs *)

Module Example2.
Import FileServer Example.
#[local] Existing Instance WholeSeconds.num.

(** Node B stores [notes.txt]; node A asks it. *)
Definition asking_b : @world WholeSeconds.num :=
  node [] [addr_b] (network_of notes_on_b (node [] [] unreachable)).

(** The file servers A and B run at their registered addresses. *)
Definition running (a : list string) : option (Config * @world WholeSeconds.num) :=
  if Discovery.address_eq_dec a addr_a then Some (node_a, spaced_name_on_a)
  else if Discovery.address_eq_dec a addr_b then Some (node_b, notes_on_b)
  else None.

(** What node B's connection handler sends for a file request, as a
    fetching node reads it. *)
Definition provision_of (world_b : @world WholeSeconds.num)
  : string -> Z -> string -> option string :=
  fun host port message =>
    if (host =? "10.0.0.2") && (port =? 6000)%Z then
      Some (Spec2.served_file (cfg := node_b) world_b message)
    else None.

(** Node A at time 900: it stores nothing, caches the peer B, and B
    (which stores [notes.txt], written at 500) answers its timestamp
    queries and file requests. *)
Definition replicating_a : @world WholeSeconds.num :=
  {| files := disk [];
     dirs := fun _ => None;
     write_error := fun _ => None;
     NODES := [addr_b];
     timestamp_peer := network_of notes_on_b (node [] [] unreachable);
     provision_peer := provision_of notes_on_b;
     conn_open := true;
     clock := 900%N |}.

(** Node A with a peer whose claim names an owner without a port. *)
Definition owner_without_port : @world WholeSeconds.num :=
  node [] [addr_b]
    (fun _ _ _ => Some "Last-Modified notes.txt 500.0 10.0.0.2").

(** Node A asks node B, which stores [report] only. *)
Definition asking_for_unknown : @world WholeSeconds.num :=
  node [] [addr_b] (network_of report_on_b (node [] [] unreachable)).

(** Node A with its storage directory, which the valid name [.]
    names. *)
Definition storage_dir_on_a : @world WholeSeconds.num :=
  {| files := disk [];
     dirs := fun path =>
       if path =? "storage/." then
         Some {| dir_mtime := 50%N; dir_entries := ["notes.txt"] |}
       else None;
     write_error := fun _ => None;
     NODES := [];
     timestamp_peer := unreachable;
     provision_peer := fun _ _ _ => None;
     conn_open := true;
     clock := 900%N |}.

(** A registry holding an address without a port. *)
Definition poisoned : Discovery.registry N :=
  [(["localhost"],
    {| Discovery.last_seen := 0%N; Discovery.missed_updates := 0 |})].

End Example2.
(** ** Substring facts *)

Lemma prefix_app (p s : string) :
  String.prefix p s = true <-> exists t, s = p ++ t.
Proof.
  revert s; induction p as [|c p IH]; intros s; simpl.
  - split; [intros _; exists s; reflexivity | destruct s; reflexivity].
  - destruct s as [|d s]; simpl.
    + split; [discriminate | intros [t Ht]; discriminate].
    + destruct (ascii_dec c d) as [->|Hcd].
      * rewrite IH. split; intros [t Ht]; exists t.
        -- now rewrite Ht.
        -- now injection Ht.
      * split; [discriminate|].
        intros [t Ht]. injection Ht as Hd _. congruence.
Qed.

(** [Py.contains] decides the substring relation. *)
Lemma contains_spec (sub s : string) :
  Py.contains sub s = true <-> exists pre post, s = pre ++ sub ++ post.
Proof.
  induction s as [|c s IH]; cbn [Py.contains].
  - rewrite orb_false_r, prefix_app. split.
    + intros [t Ht]. exists "", t. exact Ht.
    + intros [pre [post H]]. destruct pre; [|discriminate].
      exists post. exact H.
  - rewrite orb_true_iff, prefix_app, IH. split.
    + intros [[t Ht]|[pre [post H]]].
      * exists "", t. exact Ht.
      * exists (String c pre), post. simpl. now rewrite H.
    + intros [pre [post H]]. destruct pre as [|d pre]; simpl in H.
      * left. exists post. exact H.
      * right. injection H as _ H. now exists pre, post.
Qed.

(** C4: [validate_filename] rejects a filename exactly when it is
    empty, has 255 characters or more, or contains a slash, a
    backslash, or two consecutive dots. *)
Theorem validate_filename_rejects_iff (f : string) :
  validate_filename f = false <->
  (f = ""
   \/ 255 <= String.length f
   \/ (exists pre post, f = pre ++ "/" ++ post)
   \/ (exists pre post, f = pre ++ "\" ++ post)
   \/ (exists pre post, f = pre ++ ".." ++ post)).
Proof.
  unfold validate_filename.
  rewrite <- !contains_spec.
  rewrite !andb_false_iff, !negb_false_iff, String.eqb_eq, Nat.ltb_ge.
  tauto.
Qed.


(** ** Running a computation *)

(** Unfolds the monad operations of a run and reduces the matches on
    the finished steps. *)
Ltac run_steps :=
  repeat (progress
            (cbv [bind ret raise try_except emit get put index or_raise];
             cbn [negb app])).

(** ** Splitting protocol lines *)

Lemma rev_string_rev (s : string) (cur : list ascii) :
  Py.rev_string (List.rev (list_ascii_of_string s) ++ cur)%list
  = Py.rev_string cur ++ s.
Proof.
  unfold Py.rev_string. rewrite rev_app_distr, rev_involutive.
  revert s. induction (List.rev cur) as [|c l IH]; intros s; simpl.
  - apply string_of_list_ascii_of_string.
  - now rewrite IH.
Qed.

Lemma all_chars_app p (a b : string) :
  Spec.all_chars p (a ++ b) = Spec.all_chars p a && Spec.all_chars p b.
Proof.
  induction a as [|c a IH]; simpl; [reflexivity|].
  now rewrite IH, andb_assoc.
Qed.

Lemma all_chars_weaken (p q : ascii -> bool) (s : string) :
  (forall c, p c = true -> q c = true) ->
  Spec.all_chars p s = true -> Spec.all_chars q s = true.
Proof.
  intros Hpq. induction s as [|c s IH]; simpl; [reflexivity|].
  rewrite !andb_true_iff. intros [Hc Hs]. auto.
Qed.

Lemma field_no_space (s : string) :
  Spec.is_field s = true ->
  Spec.all_chars (fun c => negb (Py.isspace c)) s = true.
Proof.
  apply all_chars_weaken. intros c. rewrite andb_true_iff. tauto.
Qed.

Lemma field_no_colon (s : string) :
  Spec.is_field s = true ->
  Spec.all_chars (fun c => negb (Ascii.eqb c ":")) s = true.
Proof.
  apply all_chars_weaken. intros c. rewrite andb_true_iff. tauto.
Qed.

(** A run of non-whitespace characters is read into the current word. *)
Lemma split_ws_aux_run (t rest : string) (cur : list ascii) :
  Spec.all_chars (fun c => negb (Py.isspace c)) t = true ->
  Py.split_ws_aux cur (t ++ rest)
  = Py.split_ws_aux (List.rev (list_ascii_of_string t) ++ cur)%list rest.
Proof.
  revert cur. induction t as [|c t IH]; intros cur; simpl; [reflexivity|].
  rewrite andb_true_iff, negb_true_iff. intros [-> Ht].
  rewrite (IH _ Ht). now rewrite <- app_assoc.
Qed.

Lemma append_nil_r (s : string) : s ++ "" = s.
Proof. induction s as [|c s IH]; simpl; [reflexivity | now rewrite IH]. Qed.

Lemma append_assoc (a b c : string) : (a ++ b) ++ c = a ++ (b ++ c).
Proof. induction a as [|x a IH]; simpl; [reflexivity | now rewrite IH]. Qed.

(** A token followed by whitespace or the end is one word. *)
Lemma split_token (t rest : string) :
  Spec.is_token t = true ->
  Py.split_ws_aux [] (t ++ rest)
  = match rest with
    | EmptyString => [t]
    | String c rest' =>
        if Py.isspace c then t :: Py.split_ws_aux [] rest'
        else Py.split_ws_aux
               (c :: List.rev (list_ascii_of_string t))%list rest'
    end.
Proof.
  unfold Spec.is_token. rewrite andb_true_iff, negb_true_iff.
  intros [Hne Ht]. rewrite (split_ws_aux_run _ _ _ Ht), app_nil_r.
  assert (Hflush : Py.flush (List.rev (list_ascii_of_string t)) = [t]).
  { unfold Py.flush.
    destruct (List.rev (list_ascii_of_string t)) eqn:Hrev.
    - apply (f_equal (@List.rev ascii)) in Hrev.
      rewrite rev_involutive in Hrev. simpl in Hrev.
      apply (f_equal string_of_list_ascii) in Hrev.
      rewrite string_of_list_ascii_of_string in Hrev. subst t.
      discriminate.
    - rewrite <- Hrev. f_equal.
      rewrite <- (app_nil_r (List.rev _)), rev_string_rev. reflexivity. }
  destruct rest as [|c rest']; simpl.
  - exact Hflush.
  - destruct (Py.isspace c); [|reflexivity]. now rewrite Hflush.
Qed.

(** Stripping a line made of a command, a token and a newline. *)
Lemma rstrip_run_newline (t : string) :
  Spec.all_chars (fun c => negb (Py.isspace c)) t = true ->
  Py.rstrip (t ++ Py.nl) = t.
Proof.
  induction t as [|c t IH]; simpl; [reflexivity|].
  rewrite andb_true_iff, negb_true_iff. intros [Hc Ht].
  rewrite (IH Ht). destruct t; [now rewrite Hc | reflexivity].
Qed.

Lemma rstrip_app (s u : string) :
  Py.rstrip u <> "" -> Py.rstrip (s ++ u) = s ++ Py.rstrip u.
Proof.
  intros Hu. induction s as [|c s IH]; simpl; [reflexivity|].
  rewrite IH. destruct (s ++ Py.rstrip u) eqn:Heq; [|reflexivity].
  destruct s; simpl in Heq; [contradiction | discriminate].
Qed.

Lemma rstrip_token_newline (s t : string) :
  Spec.is_token t = true -> Py.rstrip (s ++ t ++ Py.nl) = s ++ t.
Proof.
  unfold Spec.is_token. rewrite andb_true_iff, negb_true_iff.
  intros [Hne Ht]. rewrite rstrip_app; rewrite (rstrip_run_newline _ Ht).
  - reflexivity.
  - intros ->. discriminate.
Qed.

(** Splitting [host:port] at the colon. *)
Lemma split_on_aux_run (sep : ascii) (a rest : string) (cur : list ascii) :
  Spec.all_chars (fun c => negb (Ascii.eqb c sep)) a = true ->
  Py.split_on_aux sep cur (a ++ rest)
  = Py.split_on_aux sep (List.rev (list_ascii_of_string a) ++ cur)%list rest.
Proof.
  revert cur. induction a as [|c a IH]; intros cur; simpl; [reflexivity|].
  rewrite andb_true_iff, negb_true_iff. intros [-> Ha].
  rewrite (IH _ Ha). now rewrite <- app_assoc.
Qed.

Lemma split_on_colon (host port : string) :
  Spec.is_field host = true -> Spec.is_field port = true ->
  Py.split_on ":" (host ++ ":" ++ port) = [host; port].
Proof.
  intros Hh Hp. unfold Py.split_on.
  rewrite (split_on_aux_run _ _ _ _ (field_no_colon _ Hh)). simpl.
  rewrite rev_string_rev. simpl. f_equal.
  rewrite <- (append_nil_r port) at 1.
  rewrite (split_on_aux_run _ _ _ _ (field_no_colon _ Hp)). simpl.
  now rewrite rev_string_rev.
Qed.

Lemma address_is_token (host port : string) :
  Spec.is_field host = true -> Spec.is_field port = true ->
  Spec.is_token (host ++ ":" ++ port) = true.
Proof.
  intros Hh Hp. unfold Spec.is_token.
  rewrite !all_chars_app, (field_no_space _ Hh), (field_no_space _ Hp).
  simpl. destruct host; reflexivity.
Qed.

Lemma lstrip_token (t rest : string) :
  Spec.is_token t = true -> Py.lstrip (t ++ rest) = t ++ rest.
Proof.
  unfold Spec.is_token. destruct t as [|c t]; [discriminate|].
  cbn [negb String.eqb andb Spec.all_chars append Py.lstrip].
  rewrite andb_true_iff, negb_true_iff. now intros [-> _].
Qed.

(** A request line made of a command, one argument and a newline
    reads back as the command and the argument. *)
Lemma request_line_parse (command argument : string) :
  Spec.is_token command = true -> Spec.is_token argument = true ->
  Py.strip (command ++ " " ++ argument ++ Py.nl) = command ++ " " ++ argument
  /\ Py.split (command ++ " " ++ argument) = [command; argument].
Proof.
  intros Hc Ha. split.
  - unfold Py.strip. rewrite (lstrip_token _ _ Hc).
    rewrite <- (append_assoc command " " argument).
    rewrite <- (append_assoc command " " (argument ++ Py.nl)).
    now apply rstrip_token_newline.
  - unfold Py.split. rewrite (split_token _ _ Hc). cbn [append].
    change (Py.isspace " ") with true. cbv iota. f_equal.
    rewrite <- (append_nil_r argument) at 1.
    now rewrite (split_token _ _ Ha).
Qed.

(* ===================================================================== *)
(** * The discovery server: eviction and registration *)
(* ===================================================================== *)

Section DiscoveryFacts.
Context {time : Type}.
Import Discovery Spec.

Local Open Scope list_scope.

(** ** The dict operations on a registry with unique keys *)

Lemma keys_app (a b : registry time) : keys (a ++ b) = (keys a ++ keys b)%list.
Proof. apply map_app. Qed.

Lemma lookup_middle (k : address) (r : node_record time) (pre rest : registry time) :
  ~ In k (keys pre) -> lookup k (pre ++ (k, r) :: rest) = Some r.
Proof.
  induction pre as [|[k' r'] pre IH]; simpl; intros Hnot.
  - destruct (address_eq_dec k k); [reflexivity | contradiction].
  - destruct (address_eq_dec k k') as [->|_]; [tauto|]. apply IH. tauto.
Qed.

Lemma update_middle (k : address) f (r : node_record time) (pre rest : registry time) :
  ~ In k (keys pre) ->
  update k f (pre ++ (k, r) :: rest) = (pre ++ (k, f r) :: rest)%list.
Proof.
  induction pre as [|[k' r'] pre IH]; simpl; intros Hnot.
  - destruct (address_eq_dec k k); [reflexivity | contradiction].
  - destruct (address_eq_dec k k') as [->|_]; [tauto|].
    rewrite IH; tauto.
Qed.

Lemma lookup_In (k : address) (nodes : registry time) :
  In k (keys nodes) -> exists r, lookup k nodes = Some r.
Proof.
  induction nodes as [|[k' r'] nodes IH]; simpl; [tauto|].
  intros [Heq|Hin]; destruct (address_eq_dec k k'); eauto; congruence.
Qed.

Lemma lookup_None (k : address) (nodes : registry time) :
  ~ In k (keys nodes) -> lookup k nodes = None.
Proof.
  induction nodes as [|[k' r'] nodes IH]; simpl; [reflexivity|].
  intros Hnot. destruct (address_eq_dec k k') as [->|_]; [tauto|].
  apply IH. tauto.
Qed.

Lemma remove_filter (k : address) (nodes : registry time) :
  NoDup (keys nodes) ->
  remove k nodes
  = filter (fun e => if address_eq_dec k (fst e) then false else true) nodes.
Proof.
  induction nodes as [|[k' r'] nodes IH]; simpl; [reflexivity|].
  intros Hnd. inversion Hnd as [|? ? Hnot Hnd']; subst.
  destruct (address_eq_dec k k') as [->|Hne].
  - symmetry. apply forallb_filter_id || idtac.
    clear IH Hnd Hnd'. induction nodes as [|[k2 r2] nodes IH2]; simpl;
      [reflexivity|].
    simpl in Hnot. destruct (address_eq_dec k' k2) as [->|_]; [tauto|].
    f_equal. apply IH2. tauto.
  - f_equal. now apply IH.
Qed.

(** ** The listing message *)

Lemma format_addresses_pairs (ks : list address) :
  forallb is_pair ks = true ->
  format_addresses ks = Some (map (Py.join ":") ks).
Proof.
  induction ks as [|a ks IH]; simpl; [reflexivity|].
  rewrite andb_true_iff. intros [Ha Hks]. rewrite (IH Hks).
  destruct a as [|h [|p [|? ?]]]; try discriminate. reflexivity.
Qed.

Lemma listing_message_pairs (ks : list address) (nodes : registry time) :
  forallb is_pair ks = true ->
  listing_message ks nodes = (nodes, [], Return (listing_text ks)).
Proof.
  intros H. unfold listing_message.
  now rewrite (format_addresses_pairs _ H).
Qed.

(** ** One update pass *)

Variable send_to_node : address -> string -> bool.

Lemma push_node_run (cur : list address) (k : address) (r : node_record time)
  (pre rest : registry time) (inactive : list address) :
  forallb is_pair cur = true ->
  ~ In k (keys pre) ->
  push_node send_to_node cur k inactive (pre ++ (k, r) :: rest)
  = ((pre ++ pushed send_to_node (listing_text cur) (k, r) :: rest)%list,
     [Push k (listing_text cur) (send_to_node k (listing_text cur))],
     Return (if evicted send_to_node (listing_text cur) (k, r)
             then inactive ++ [k] else inactive)).
Proof.
  intros Hcur Hnot.
  unfold push_node, bind, modify_missed, getitem, bind, get, put,
    or_raise, emit, ret.
  rewrite (listing_message_pairs _ _ Hcur).
  unfold pushed, evicted.
  destruct (send_to_node k (listing_text cur)) eqn:Hsend; simpl;
    rewrite !(lookup_middle _ _ _ _ Hnot), (update_middle _ _ _ _ _ Hnot).
  - reflexivity.
  - rewrite (lookup_middle _ _ _ _ Hnot). simpl.
    destruct (missed_updates r + 1) as [|[|[|n]]]; reflexivity.
Qed.

Lemma push_loop (cur : list address) (todo pre : registry time)
  (inactive : list address) :
  forallb is_pair cur = true ->
  NoDup (keys (pre ++ todo)) ->
  for_each (push_node send_to_node cur) (keys todo) inactive (pre ++ todo)
  = (pre ++ map (pushed send_to_node (listing_text cur)) todo,
     map (fun k => Push k (listing_text cur)
                    (send_to_node k (listing_text cur))) (keys todo),
     Return (inactive
               ++ keys (filter (evicted send_to_node (listing_text cur))
                          todo))).
Proof.
  intros Hcur. revert pre inactive.
  induction todo as [|[k r] todo IH]; intros pre inactive Hnd.
  - simpl. unfold ret. now rewrite !app_nil_r.
  - assert (Hnot : ~ In k (keys pre)).
    { rewrite keys_app in Hnd. simpl in Hnd.
      apply NoDup_remove_2 in Hnd. rewrite in_app_iff in Hnd. tauto. }
    cbn [keys map fst for_each]. unfold bind at 1.
    rewrite (push_node_run _ _ _ _ _ _ Hcur Hnot).
    set (x := pushed send_to_node (listing_text cur) (k, r)).
    assert (Hx : fst x = k) by (unfold x, pushed; reflexivity).
    change (x :: todo) with ([x] ++ todo).
    rewrite (app_assoc pre [x] todo), IH.
    + rewrite <- app_assoc. cbn [app filter]. f_equal. f_equal.
      destruct (evicted send_to_node (listing_text cur) (k, r));
        [|reflexivity].
      rewrite <- app_assoc. reflexivity.
    + rewrite <- app_assoc, keys_app. cbn [app keys map]. rewrite Hx.
      rewrite keys_app in Hnd. exact Hnd.
Qed.

Lemma keys_filter_incl p (nodes : registry time) :
  incl (keys (filter p nodes)) (keys nodes).
Proof.
  intros k Hk. unfold keys in *. rewrite in_map_iff in *.
  destruct Hk as [e [He Hin]]. apply filter_In in Hin. exists e. tauto.
Qed.

Lemma NoDup_keys_filter p (nodes : registry time) :
  NoDup (keys nodes) -> NoDup (keys (filter p nodes)).
Proof.
  induction nodes as [|e nodes IH]; simpl; intros Hnd; [constructor|].
  inversion Hnd as [|? ? Hnot Hnd']; subst.
  destruct (p e); simpl; [|auto].
  constructor; [|auto]. intros Hin. apply Hnot.
  now apply (keys_filter_incl p).
Qed.

Lemma delete_loop (inactive : list address) (nodes : registry time) :
  NoDup (keys nodes) -> NoDup inactive -> incl inactive (keys nodes) ->
  for_each (fun node (_ : unit) => delitem node) inactive tt nodes
  = (filter (fun e => if in_dec address_eq_dec (fst e) inactive
                      then false else true) nodes,
     [], Return tt).
Proof.
  revert nodes. induction inactive as [|k inactive IH];
    intros nodes Hnd Hni Hincl.
  - simpl. unfold ret. f_equal. f_equal. symmetry.
    apply forallb_filter_id. now apply forallb_forall.
  - inversion Hni as [|? ? Hk Hni']; subst.
    destruct (lookup_In k nodes) as [r Hr]; [apply Hincl; now left|].
    cbn [for_each]. unfold bind at 1.
    assert (Hdel : delitem k nodes = (remove k nodes, [], Return tt)).
    { unfold delitem, getitem, bind, get, put, or_raise, ret.
      now rewrite Hr. }
    rewrite Hdel, (remove_filter _ _ Hnd), IH.
    + simpl. f_equal. f_equal. clear.
      induction nodes as [|e nodes IHn]; simpl; [reflexivity|].
      destruct (address_eq_dec k (fst e)) as [Heq|Hne]; simpl.
      * rewrite IHn. reflexivity.
      * rewrite IHn. destruct (in_dec address_eq_dec (fst e) inactive);
          [reflexivity|].
        destruct (address_eq_dec k (fst e)); [contradiction | reflexivity].
    + now apply NoDup_keys_filter.
    + exact Hni'.
    + intros k' Hk'. assert (Hin : In k' (keys nodes))
        by (apply Hincl; now right).
      unfold keys in *. rewrite in_map_iff in *.
      destruct Hin as [e [He Hin]]. exists e. split; [exact He|].
      apply filter_In. split; [exact Hin|].
      destruct (address_eq_dec k (fst e)); [|reflexivity]. congruence.
Qed.

Lemma keys_pushed (m : string) (nodes : registry time) :
  keys (map (pushed send_to_node m) nodes) = keys nodes.
Proof.
  unfold keys. rewrite map_map. apply map_ext. now intros [k r].
Qed.

Lemma NoDup_keys_eq (nodes : registry time) (e e' : address * node_record time) :
  NoDup (keys nodes) -> In e nodes -> In e' nodes -> fst e = fst e' -> e = e'.
Proof.
  induction nodes as [|x nodes IH]; simpl; [tauto|].
  intros Hnd He He' Hfst. inversion Hnd as [|? ? Hnot Hnd']; subst.
  destruct He as [->|He], He' as [->|He']; [reflexivity | | | auto].
  - exfalso. apply Hnot. rewrite Hfst. now apply in_map.
  - exfalso. apply Hnot. rewrite <- Hfst. now apply in_map.
Qed.

Lemma removals_are_evictions (m : string) (inactive : list address)
  (nodes : registry time) :
  (forall e, In e nodes ->
             (In (fst e) inactive <-> evicted send_to_node m e = true)) ->
  filter (fun e => if in_dec address_eq_dec (fst e) inactive
                   then false else true)
    (map (pushed send_to_node m) nodes)
  = after_cycle send_to_node m nodes.
Proof.
  induction nodes as [|[k r] nodes IH]; intros Hin; [reflexivity|].
  cbn [map filter after_cycle].
  rewrite IH by (intros e He; apply Hin; now right). clear IH.
  specialize (Hin (k, r) (or_introl eq_refl)).
  unfold pushed, after_push, evicted in *. cbn [fst] in *.
  destruct (in_dec address_eq_dec k inactive) as [Hk|Hk].
  - apply Hin in Hk. apply andb_true_iff in Hk as [Hs Hm].
    apply negb_true_iff in Hs. now rewrite Hs, Hm.
  - destruct (send_to_node k m); [reflexivity|].
    destruct (NODE_TIMEOUT <=? missed_updates r + 1)%nat; [|reflexivity].
    exfalso. apply Hk, Hin. reflexivity.
Qed.

(** One pass over a well-formed registry: every key is pushed the
    listing of all keys, and the registry becomes [after_cycle]. *)
Lemma update_cycle_run (nodes : registry time) :
  well_formed nodes ->
  update_cycle send_to_node nodes
  = (after_cycle send_to_node (listing_text (keys nodes)) nodes,
     pushes_of_cycle send_to_node nodes, Return tt).
Proof.
  intros [Hnd Hpairs].
  pose proof (push_loop (keys nodes) nodes [] [] Hpairs Hnd) as Hpush.
  cbn [app] in Hpush.
  unfold update_cycle, bind, get. rewrite Hpush. cbn [app].
  set (m := listing_text (keys nodes)).
  rewrite delete_loop.
  - rewrite removals_are_evictions; [now rewrite app_nil_r|].
    intros e He. split.
    + intros Hk. unfold keys in Hk. rewrite in_map_iff in Hk.
      destruct Hk as [e' [Hfst He']]. apply filter_In in He' as [He' Hev].
      now rewrite <- (NoDup_keys_eq nodes e' e Hnd He' He Hfst).
    + intros Hev. apply in_map. apply filter_In. tauto.
  - now rewrite keys_pushed.
  - now apply NoDup_keys_filter.
  - rewrite keys_pushed. apply keys_filter_incl.
Qed.

(** ** What a pass preserves *)

Lemma after_cycle_keys_incl (m : string) (nodes : registry time) :
  incl (keys (after_cycle send_to_node m nodes)) (keys nodes).
Proof.
  induction nodes as [|[k r] nodes IH]; [easy|].
  cbn [after_cycle after_push].
  destruct (send_to_node k m);
    [|destruct (NODE_TIMEOUT <=? missed_updates r + 1)%nat];
    cbn [keys map fst];
    try (apply incl_cons; [now left|]); now apply incl_tl.
Qed.

Lemma after_cycle_well_formed (m : string) (nodes : registry time) :
  well_formed nodes -> well_formed (after_cycle send_to_node m nodes).
Proof.
  unfold well_formed.
  induction nodes as [|[k r] nodes IH]; [easy|].
  cbn [keys map fst forallb]. rewrite andb_true_iff.
  intros [Hnd [Hk Hp]]. inversion Hnd as [|? ? Hnot Hnd']; subst.
  destruct (IH (conj Hnd' Hp)) as [IH1 IH2].
  assert (Hnot' : ~ In k (keys (after_cycle send_to_node m nodes)))
    by (intros Hin; apply Hnot; now apply (after_cycle_keys_incl m)).
  cbn [after_cycle after_push].
  destruct (send_to_node k m);
    [|destruct (NODE_TIMEOUT <=? missed_updates r + 1)%nat].
  - cbn [keys map fst forallb]. fold (keys (after_cycle send_to_node m nodes)).
    rewrite Hk. split; [now constructor | exact IH2].
  - split; assumption.
  - cbn [keys map fst forallb]. fold (keys (after_cycle send_to_node m nodes)).
    rewrite Hk. split; [now constructor | exact IH2].
Qed.

Lemma after_cycle_below_threshold (m : string) (nodes : registry time) :
  below_threshold (after_cycle send_to_node m nodes).
Proof.
  unfold below_threshold.
  induction nodes as [|[k r] nodes IH]; [constructor|].
  cbn [after_cycle after_push].
  destruct (send_to_node k m).
  - constructor; [simpl; unfold NODE_TIMEOUT; lia | exact IH].
  - destruct (NODE_TIMEOUT <=? missed_updates r + 1)%nat eqn:Hm;
      [exact IH|].
    constructor; [|exact IH]. simpl. now apply Nat.leb_gt in Hm.
Qed.

Lemma lookup_after_cycle (m : string) (k : address) (nodes : registry time) :
  NoDup (keys nodes) ->
  lookup k (after_cycle send_to_node m nodes)
  = match lookup k nodes with
    | Some r => option_map snd (after_push send_to_node m (k, r))
    | None => None
    end.
Proof.
  induction nodes as [|[k' r'] nodes IH]; [reflexivity|].
  cbn [keys map fst]. intros Hnd.
  inversion Hnd as [|? ? Hnot Hnd']; subst.
  cbn [after_cycle lookup].
  destruct (address_eq_dec k k') as [->|Hne].
  - assert (Hgone : lookup k' (after_cycle send_to_node m nodes) = None).
    { apply lookup_None. intros Hin. apply Hnot.
      now apply (after_cycle_keys_incl m). }
    destruct (after_push send_to_node m (k', r')) as [[k2 r2]|] eqn:Hap.
    + assert (k2 = k').
      { unfold after_push in Hap.
        destruct (send_to_node k' m);
          [|destruct (NODE_TIMEOUT <=? missed_updates r' + 1)%nat];
          congruence. }
      subst k2. simpl.
      destruct (address_eq_dec k' k'); [reflexivity | contradiction].
    + exact Hgone.
  - destruct (after_push send_to_node m (k', r')) as [[k2 r2]|] eqn:Hap.
    + assert (k2 = k').
      { unfold after_push in Hap.
        destruct (send_to_node k' m);
          [|destruct (NODE_TIMEOUT <=? missed_updates r' + 1)%nat];
          congruence. }
      subst k2. simpl.
      destruct (address_eq_dec k k'); [contradiction | now apply IH].
    + now apply IH.
Qed.
End DiscoveryFacts.

Section DiscoverySequences.
Context {time : Type}.
Import Discovery Spec.
Local Open Scope list_scope.

(** Any number of passes over a well-formed registry completes. *)
Lemma update_nodes_run (sends : list (address -> string -> bool))
  (nodes : registry time) :
  well_formed nodes ->
  update_nodes sends nodes
  = (after_cycles sends nodes, pushes_of sends nodes, Return tt).
Proof.
  revert nodes. induction sends as [|s sends IH]; intros nodes Hwf.
  - reflexivity.
  - cbn [update_nodes after_cycles pushes_of]. unfold bind.
    rewrite (update_cycle_run s nodes Hwf).
    rewrite IH by now apply after_cycle_well_formed.
    reflexivity.
Qed.

Lemma after_cycles_well_formed sends (nodes : registry time) :
  well_formed nodes -> well_formed (after_cycles sends nodes).
Proof.
  revert nodes. induction sends as [|s sends IH]; intros nodes Hwf;
    [exact Hwf|].
  apply IH. now apply after_cycle_well_formed.
Qed.

Lemma after_cycles_keys_incl sends (nodes : registry time) :
  incl (keys (after_cycles sends nodes)) (keys nodes).
Proof.
  revert nodes. induction sends as [|s sends IH]; intros nodes;
    [apply incl_refl|].
  cbn [after_cycles]. eapply incl_tran; [apply IH|].
  apply after_cycle_keys_incl.
Qed.

Lemma after_cycles_below_threshold sends (nodes : registry time) :
  sends <> [] -> below_threshold (after_cycles sends nodes).
Proof.
  revert nodes. induction sends as [|s sends IH]; intros nodes Hne;
    [contradiction|].
  cbn [after_cycles]. destruct sends as [|s' sends'].
  - apply after_cycle_below_threshold.
  - apply IH. discriminate.
Qed.

(** Only registered nodes are pushed to. *)
Lemma pushes_of_registered sends (nodes : registry time) node message acked :
  In (Push node message acked) (pushes_of sends nodes) ->
  In node (keys nodes).
Proof.
  revert nodes. induction sends as [|s sends IH]; intros nodes;
    [contradiction|].
  cbn [pushes_of]. rewrite in_app_iff. intros [Hin|Hin].
  - unfold pushes_of_cycle in Hin. rewrite in_map_iff in Hin.
    destruct Hin as [k [[= -> _ _] Hk]]. exact Hk.
  - eapply after_cycle_keys_incl. apply IH. exact Hin.
Qed.

Lemma In_keys_lookup (k : address) (nodes : registry time) :
  In k (keys nodes) <-> lookup k nodes <> None.
Proof.
  split.
  - intros Hin. destruct (lookup_In k nodes Hin) as [r ->]. discriminate.
  - intros Hl. destruct (in_dec address_eq_dec k (keys nodes)) as [|Hnot];
      [assumption|].
    now rewrite (lookup_None _ _ Hnot) in Hl.
Qed.

(** A missed push either evicts the node in that very pass or
    leaves it registered with one more miss. *)
Lemma missed_push (send_to_node : address -> string -> bool)
  (node : address) (nodes : registry time) (r : node_record time) :
  NoDup (keys nodes) ->
  (forall message, send_to_node node message = false) ->
  lookup node nodes = Some r ->
  lookup node (after_cycle send_to_node (listing_text (keys nodes)) nodes)
  = if (NODE_TIMEOUT <=? missed_updates r + 1)%nat then None
    else Some (set_missed (missed_updates r + 1) r).
Proof.
  intros Hnd Hfail Hr.
  rewrite (lookup_after_cycle _ _ _ _ Hnd), Hr.
  unfold after_push. rewrite Hfail.
  now destruct (NODE_TIMEOUT <=? missed_updates r + 1)%nat.
Qed.

Lemma absent_stays_absent (send_to_node : address -> string -> bool)
  (node : address) (nodes : registry time) :
  NoDup (keys nodes) ->
  lookup node nodes = None ->
  lookup node (after_cycle send_to_node (listing_text (keys nodes)) nodes)
  = None.
Proof.
  intros Hnd Hr. now rewrite (lookup_after_cycle _ _ _ _ Hnd), Hr.
Qed.

Lemma acknowledged_push (send_to_node : address -> string -> bool)
  (node : address) (nodes : registry time) (r : node_record time) :
  NoDup (keys nodes) ->
  send_to_node node (listing_text (keys nodes)) = true ->
  lookup node nodes = Some r ->
  lookup node (after_cycle send_to_node (listing_text (keys nodes)) nodes)
  = Some (set_missed 0 r).
Proof.
  intros Hnd Hack Hr.
  rewrite (lookup_after_cycle _ _ _ _ Hnd), Hr.
  unfold after_push. now rewrite Hack.
Qed.

(** C3: over a registry of uniquely keyed (host, port) entries, take
    a registered node with counter [m] whose push fails in three
    consecutive update passes.  Each pass completes and pushes the
    listing of the addresses registered at its start once to each of
    them, in order, the node included while it is registered.  After
    the first miss the node is registered with counter [m + 1] if
    that is below the threshold and gone otherwise, after the second
    likewise with [m + 2], and after the third it is gone: the pass
    in which the counter reaches the threshold is the pass that
    deletes the entry.  A node that acknowledges the three pushes is
    still registered afterwards, with counter 0.  No later pass
    pushes to the evicted node, and after every completed pass all
    remaining counters are below the threshold. *)
Theorem eviction_after_three_missed_updates
  (nodes : registry time) (node : address) (r : node_record time)
  (s1 s2 s3 : address -> string -> bool)
  (later : list (address -> string -> bool)) :
  well_formed nodes ->
  lookup node nodes = Some r ->
  (forall message, s1 node message = false) ->
  (forall message, s2 node message = false) ->
  (forall message, s3 node message = false) ->
  let m := missed_updates r in
  let pass1 := update_cycle s1 nodes in
  let pass2 := update_cycle s2 (final_state pass1) in
  let pass3 := update_cycle s3 (final_state pass2) in
  let evicting := update_nodes [s1; s2; s3] nodes in
  let afterwards := update_nodes later (final_state evicting) in
  evicting
  = (final_state pass3, trace pass1 ++ trace pass2 ++ trace pass3, Return tt)
  /\ trace pass1
     = map (fun k => Push k (listing_text (keys nodes))
                       (s1 k (listing_text (keys nodes)))) (keys nodes)
  /\ trace pass2
     = map (fun k => Push k (listing_text (keys (final_state pass1)))
                       (s2 k (listing_text (keys (final_state pass1)))))
         (keys (final_state pass1))
  /\ trace pass3
     = map (fun k => Push k (listing_text (keys (final_state pass2)))
                       (s3 k (listing_text (keys (final_state pass2)))))
         (keys (final_state pass2))
  /\ In (Push node (listing_text (keys nodes)) false) (trace pass1)
  /\ lookup node (final_state pass1)
     = (if (NODE_TIMEOUT <=? m + 1)%nat then None
        else Some {| last_seen := last_seen r; missed_updates := m + 1 |})
  /\ lookup node (final_state pass2)
     = (if (NODE_TIMEOUT <=? m + 2)%nat then None
        else Some {| last_seen := last_seen r; missed_updates := m + 2 |})
  /\ lookup node (final_state pass3) = None
  /\ (forall k rk,
        lookup k nodes = Some rk ->
        (forall message, s1 k message = true) ->
        (forall message, s2 k message = true) ->
        (forall message, s3 k message = true) ->
        lookup k (final_state evicting)
        = Some {| last_seen := last_seen rk; missed_updates := 0 |})
  /\ result evicting = Return tt
  /\ ~ In node (keys (final_state evicting))
  /\ result afterwards = Return tt
  /\ (forall message acked,
        ~ In (Push node message acked) (trace afterwards))
  /\ ~ In node (keys (final_state afterwards))
  /\ (forall sends, sends <> [] ->
        result (update_nodes sends nodes) = Return tt
        /\ below_threshold (final_state (update_nodes sends nodes)))
  /\ (forall send_to_node r0,
        lookup node nodes = Some r0 ->
        (forall message, send_to_node node message = false) ->
        NODE_TIMEOUT <= missed_updates r0 + 1 ->
        result (update_cycle send_to_node nodes) = Return tt
        /\ ~ In node (keys (final_state (update_cycle send_to_node nodes)))).
Proof.
  intros Hwf Hr H1 H2 H3. cbv zeta.
  set (n1 := after_cycle s1 (listing_text (keys nodes)) nodes).
  set (n2 := after_cycle s2 (listing_text (keys n1)) n1).
  set (n3 := after_cycle s3 (listing_text (keys n2)) n2).
  assert (Hwf1 : well_formed n1) by now apply after_cycle_well_formed.
  assert (Hwf2 : well_formed n2) by now apply after_cycle_well_formed.
  assert (Hwf3 : well_formed n3) by now apply after_cycle_well_formed.
  assert (Hp1 : update_cycle s1 nodes
                = (n1, pushes_of_cycle s1 nodes, Return tt))
    by now apply update_cycle_run.
  assert (Hp2 : update_cycle s2 n1 = (n2, pushes_of_cycle s2 n1, Return tt))
    by now apply update_cycle_run.
  assert (Hp3 : update_cycle s3 n2 = (n3, pushes_of_cycle s3 n2, Return tt))
    by now apply update_cycle_run.
  assert (Hev : update_nodes [s1; s2; s3] nodes
                = (n3, pushes_of_cycle s1 nodes
                         ++ pushes_of_cycle s2 n1 ++ pushes_of_cycle s3 n2,
                   Return tt)).
  { rewrite (update_nodes_run _ _ Hwf). cbn [after_cycles pushes_of].
    fold n1. fold n2. fold n3. now rewrite app_nil_r. }
  assert (Haf : update_nodes later n3
                = (after_cycles later n3, pushes_of later n3, Return tt))
    by now apply update_nodes_run.
  unfold result, trace, final_state.
  rewrite Hp1. cbn [fst snd]. rewrite Hp2. cbn [fst snd].
  rewrite Hp3. cbn [fst snd]. rewrite Hev. cbn [fst snd].
  rewrite Haf. cbn [fst snd].
  assert (L1 : lookup node n1
               = if (NODE_TIMEOUT <=? missed_updates r + 1)%nat then None
                 else Some (set_missed (missed_updates r + 1) r))
    by (apply (missed_push s1 node nodes r (proj1 Hwf) H1 Hr)).
  assert (L2 : lookup node n2
               = if (NODE_TIMEOUT <=? missed_updates r + 2)%nat then None
                 else Some (set_missed (missed_updates r + 2) r)).
  { unfold n2. destruct (NODE_TIMEOUT <=? missed_updates r + 1)%nat eqn:E1.
    - rewrite (absent_stays_absent s2 node n1 (proj1 Hwf1) L1).
      apply Nat.leb_le in E1.
      assert (E2 : (NODE_TIMEOUT <=? missed_updates r + 2)%nat = true)
        by (apply Nat.leb_le; lia).
      now rewrite E2.
    - rewrite (missed_push s2 node n1 _ (proj1 Hwf1) H2 L1).
      cbn [missed_updates set_missed].
      replace (missed_updates r + 1 + 1) with (missed_updates r + 2) by lia.
      reflexivity. }
  assert (L3 : lookup node n3 = None).
  { unfold n3. destruct (NODE_TIMEOUT <=? missed_updates r + 2)%nat eqn:E2.
    - now apply absent_stays_absent; [apply Hwf2|].
    - rewrite (missed_push s3 node n2 _ (proj1 Hwf2) H3 L2).
      cbn [missed_updates set_missed].
      assert (E3 : (NODE_TIMEOUT <=? missed_updates r + 2 + 1)%nat = true)
        by (apply Nat.leb_le; unfold NODE_TIMEOUT; lia).
      now rewrite E3. }
  assert (Hgone : ~ In node (keys n3)).
  { rewrite In_keys_lookup. intros Hl. now apply Hl. }
  split; [reflexivity|]. split; [reflexivity|]. split; [reflexivity|].
  split; [reflexivity|]. split.
  { unfold pushes_of_cycle. apply in_map_iff. exists node. split.
    - now rewrite H1.
    - apply In_keys_lookup. now rewrite Hr. }
  split; [exact L1|]. split; [exact L2|]. split; [exact L3|]. split.
  { intros k rk Hk A1 A2 A3.
    pose proof (acknowledged_push s1 k nodes rk (proj1 Hwf) (A1 _) Hk) as K1.
    fold n1 in K1.
    pose proof (acknowledged_push s2 k n1 _ (proj1 Hwf1) (A2 _) K1) as K2.
    fold n2 in K2.
    pose proof (acknowledged_push s3 k n2 _ (proj1 Hwf2) (A3 _) K2) as K3.
    exact K3. }
  split; [reflexivity|]. split; [exact Hgone|]. split; [reflexivity|].
  split; [|split; [|split]].
  - intros message acked Hpush. apply Hgone.
    now apply (pushes_of_registered later _ node message acked).
  - intros Hlater. apply Hgone.
    now apply (after_cycles_keys_incl later).
  - intros sends Hne. rewrite update_nodes_run by assumption.
    split; [reflexivity|]. now apply after_cycles_below_threshold.
  - intros send_to_node r0 Hr0 Hfail Hm.
    rewrite update_cycle_run by assumption.
    split; [reflexivity|]. cbn [fst snd].
    rewrite In_keys_lookup. intros Hl. apply Hl.
    rewrite (missed_push _ _ _ _ (proj1 Hwf) Hfail Hr0).
    apply Nat.leb_le in Hm. now rewrite Hm.
Qed.
End DiscoverySequences.

Section Registration.
Context {time : Type}.
Import Discovery Spec.

(** The Join line of a well-formed address reads back as that
    address. *)
Lemma join_message_parse (host port : string) :
  is_field host = true -> is_field port = true ->
  let data := Py.strip (join_message host port) in
  Py.startswith data "Join-Discovery-Service" = true
  /\ Py.split data = ["Join-Discovery-Service"; host ++ ":" ++ port].
Proof.
  intros Hh Hp.
  pose proof (address_is_token host port Hh Hp) as Htok.
  assert (Hstrip : Py.strip (join_message host port)
                   = "Join-Discovery-Service " ++ host ++ ":" ++ port).
  { assert (Hl : Py.lstrip (join_message host port)
                 = join_message host port) by reflexivity.
    unfold Py.strip. rewrite Hl. unfold join_message.
    rewrite <- (rstrip_token_newline "Join-Discovery-Service "
                  (host ++ ":" ++ port) Htok).
    now rewrite !append_assoc. }
  cbv zeta. rewrite Hstrip. split; [reflexivity|].
  unfold Py.split.
  change ("Join-Discovery-Service " ++ host ++ ":" ++ port)
    with ("Join-Discovery-Service" ++ " " ++ host ++ ":" ++ port).
  rewrite split_token by reflexivity. cbn [append].
  change (Py.isspace " ") with true. cbv iota. f_equal.
  rewrite <- (append_nil_r (host ++ ":" ++ port)) at 1.
  now rewrite split_token.
Qed.

Local Open Scope list_scope.

(** The registry a registration of [host:port] at time [now] leaves. *)
Lemma registration_run (nodes : registry time) (host port : string)
  (now : time) :
  is_field host = true -> is_field port = true ->
  forallb is_pair (keys nodes) = true ->
  let registered :=
    if in_dec address_eq_dec [host; port] (keys nodes) then nodes
    else nodes ++ [([host; port],
                    {| last_seen := now; missed_updates := 0 |})] in
  handle_node_registration (Some (join_message host port)) true now nodes
  = (registered, [Reply (listing_text (keys registered)); Close], Return tt).
Proof.
  intros Hh Hp Hpairs registered.
  destruct (join_message_parse host port Hh Hp) as [Hstart Hsplit].
  cbv zeta in Hstart, Hsplit.
  assert (Hreg : forallb is_pair (keys registered) = true).
  { unfold registered.
    destruct (in_dec address_eq_dec [host; port] (keys nodes));
      [assumption|].
    unfold keys in *. rewrite map_app, forallb_app.
    apply andb_true_iff. split; [exact Hpairs | reflexivity]. }
  unfold handle_node_registration. run_steps.
  rewrite Hstart, Hsplit. cbn [nth_error]. run_steps.
  rewrite (split_on_colon host port Hh Hp).
  unfold registered in *.
  destruct (in_dec address_eq_dec [host; port] (keys nodes)) as [Hin|Hnot];
    rewrite (listing_message_pairs _ _ Hreg); reflexivity.
Qed.

(** A registration keeps the registry well formed and its counters
    below the threshold. *)
Lemma registration_keeps_invariants (nodes : registry time)
  (host port : string) (now : time) :
  is_field host = true -> is_field port = true ->
  well_formed nodes ->
  let registered :=
    final_state (handle_node_registration
                   (Some (join_message host port)) true now nodes) in
  well_formed registered
  /\ (below_threshold nodes -> below_threshold registered).
Proof.
  intros Hh Hp [Hnd Hpairs] registered.
  pose proof (registration_run nodes host port now Hh Hp Hpairs) as Hrun.
  cbv zeta in Hrun. unfold registered. rewrite Hrun.
  unfold final_state. cbn [fst].
  destruct (in_dec address_eq_dec [host; port] (keys nodes)) as [Hin|Hnot].
  - split; [now split | auto].
  - split; [split|].
    + unfold keys in *. rewrite map_app. cbn [map fst].
      apply NoDup_app; [exact Hnd | repeat constructor; intros [] |].
      intros a Ha [<-|[]]. contradiction.
    + unfold keys in *. rewrite map_app, forallb_app.
      apply andb_true_iff. split; [exact Hpairs | reflexivity].
    + intros Hbelow. apply Forall_app. split; [exact Hbelow|].
      constructor; [|constructor]. cbn. unfold NODE_TIMEOUT. lia.
Qed.

(** Over a registry whose keys are all (host, port) pairs:
    registering an address that is already present leaves the
    registry equal to before, registering an absent one appends it
    with no missed updates and the current time, a second
    registration changes nothing, and the reply is in each case the
    listing of every registered address, the joiner's included. *)
Lemma registration_is_idempotent (nodes : registry time)
  (host port : string) (now later : time) :
  is_field host = true -> is_field port = true ->
  forallb is_pair (keys nodes) = true ->
  let run :=
    handle_node_registration (Some (join_message host port)) true now nodes in
  let registered := final_state run in
  (In [host; port] (keys nodes) -> registered = nodes)
  /\ (~ In [host; port] (keys nodes) ->
      registered = nodes ++ [([host; port],
                              {| last_seen := now; missed_updates := 0 |})])
  /\ trace run = [Reply (listing_text (keys registered)); Close]
  /\ In [host; port] (keys registered)
  /\ handle_node_registration (Some (join_message host port)) true later
       registered
     = (registered, [Reply (listing_text (keys registered)); Close],
        Return tt).
Proof.
  intros Hh Hp Hpairs run registered.
  pose proof (registration_run nodes host port now Hh Hp Hpairs) as Hrun.
  cbv zeta in Hrun. fold run in Hrun.
  assert (Hreg : registered
                 = if in_dec address_eq_dec [host; port] (keys nodes)
                   then nodes
                   else nodes ++ [([host; port],
                                   {| last_seen := now;
                                      missed_updates := 0 |})])
    by (unfold registered; now rewrite Hrun).
  assert (Hin : In [host; port] (keys registered)).
  { rewrite Hreg.
    destruct (in_dec address_eq_dec [host; port] (keys nodes));
      [assumption|].
    unfold keys. rewrite map_app, in_app_iff. right. now left. }
  assert (Hpairs' : forallb is_pair (keys registered) = true).
  { rewrite Hreg.
    destruct (in_dec address_eq_dec [host; port] (keys nodes));
      [assumption|].
    unfold keys in *. rewrite map_app, forallb_app.
    apply andb_true_iff. split; [exact Hpairs | reflexivity]. }
  split; [|split; [|split; [|split]]].
  - intros Hpresent. rewrite Hreg.
    now destruct (in_dec address_eq_dec [host; port] (keys nodes)).
  - intros Habsent. rewrite Hreg.
    now destruct (in_dec address_eq_dec [host; port] (keys nodes)).
  - unfold registered at 1. rewrite Hrun. unfold trace. cbn [fst snd].
    now rewrite <- Hreg.
  - exact Hin.
  - pose proof (registration_run registered host port later Hh Hp Hpairs')
      as Hagain.
    cbv zeta in Hagain.
    now destruct (in_dec address_eq_dec [host; port] (keys registered)).
Qed.
End Registration.

(* ===================================================================== *)
(** * The file server: conflict resolution *)
(* ===================================================================== *)

Section Resolution.
Context {num : PyNum} {cfg : Config}.
Import FileServer Spec.
Local Open Scope list_scope.

(** ** The local claim *)

Lemma get_timestamp_invalid (filename : string) (w : world) :
  validate_filename filename = false ->
  get_timestamp filename w = (w, [], Return None).
Proof. intros H. unfold get_timestamp. now rewrite H. Qed.

Lemma get_timestamp_present (filename : string) (w : world) (f : file) :
  validate_filename filename = true ->
  files w (os_path_join STORAGE filename) = Some f ->
  get_timestamp filename w
  = (w, [FsExists (os_path_join STORAGE filename);
         FsGetmtime (os_path_join STORAGE filename)],
     Return (Some ("Last-Modified " ++ filename ++ " "
                     ++ str_of_float (mtime f) ++ " " ++ own_address)%string)).
Proof.
  intros Hv Hf. unfold get_timestamp, os_path_exists, os_path_getmtime.
  rewrite Hv. run_steps. rewrite Hf. run_steps. now rewrite Hf.
Qed.

Lemma get_timestamp_absent (filename : string) (w : world) :
  validate_filename filename = true ->
  files w (os_path_join STORAGE filename) = None ->
  dirs w (os_path_join STORAGE filename) = None ->
  get_timestamp filename w
  = (w, [FsExists (os_path_join STORAGE filename)], Return None).
Proof.
  intros Hv Hf Hd. unfold get_timestamp, os_path_exists.
  rewrite Hv. run_steps. now rewrite Hf, Hd.
Qed.

(** A directory has a timestamp as a regular file has. *)
Lemma get_timestamp_directory (filename : string) (w : world)
  (d : directory) :
  validate_filename filename = true ->
  files w (os_path_join STORAGE filename) = None ->
  dirs w (os_path_join STORAGE filename) = Some d ->
  get_timestamp filename w
  = (w, [FsExists (os_path_join STORAGE filename);
         FsGetmtime (os_path_join STORAGE filename)],
     Return (Some ("Last-Modified " ++ filename ++ " "
                     ++ str_of_float (dir_mtime d) ++ " "
                     ++ own_address)%string)).
Proof.
  intros Hv Hf Hd. unfold get_timestamp, os_path_exists, os_path_getmtime.
  rewrite Hv. run_steps. rewrite Hf, Hd. run_steps. now rewrite Hf, Hd.
Qed.

(** The local claim reads the files only: it leaves the world as
    it is and does not depend on the cached peer list. *)
Lemma get_timestamp_peers (filename : string) (w : world)
  (peers : list (list string)) :
  exists t o,
    get_timestamp filename w = (w, t, o)
    /\ get_timestamp filename (set_NODES peers w) = (set_NODES peers w, t, o).
Proof.
  destruct (validate_filename filename) eqn:Hv.
  - destruct (files w (os_path_join STORAGE filename)) as [f|] eqn:Hf.
    + eexists; eexists; split;
        [apply (get_timestamp_present _ w f Hv Hf)
        |apply (get_timestamp_present _ (set_NODES peers w) f Hv Hf)].
    + destruct (dirs w (os_path_join STORAGE filename)) as [d|] eqn:Hd.
      * eexists; eexists; split;
          [apply (get_timestamp_directory _ w d Hv Hf Hd)
          |apply (get_timestamp_directory _ (set_NODES peers w) d Hv Hf Hd)].
      * eexists; eexists; split;
          [apply (get_timestamp_absent _ w Hv Hf Hd)
          |apply (get_timestamp_absent _ (set_NODES peers w) Hv Hf Hd)].
  - eexists; eexists; split; now apply get_timestamp_invalid.
Qed.

Lemma local_claim_peers (filename : string) (w : world)
  (peers : list (list string)) :
  exists t o,
    local_claim filename w = (w, t, o)
    /\ local_claim filename (set_NODES peers w) = (set_NODES peers w, t, o).
Proof.
  destruct (get_timestamp_peers filename w peers) as [t [o [H1 H2]]].
  unfold local_claim, float. run_steps. rewrite H1, H2.
  destruct o as [latest|e]; [|eexists; eexists; split; reflexivity].
  destruct (Py.truthy latest); [destruct latest as [l|]|]; run_steps;
    try (eexists; eexists; split; reflexivity).
  destruct (nth_error (Py.split l) 2) as [field|]; run_steps;
    [destruct (float_of_str field)|]; run_steps;
    eexists; eexists; split; reflexivity.
Qed.

(** ** One peer *)

Lemma visit_peer_pair (filename host port : string) (st : resolution)
  (w : world) :
  exists t,
    visit_peer filename [host; port] st w
    = (w, TimestampQuery host port
            ("Last-Modified-Check " ++ filename ++ Py.nl)%string :: t,
       Return (adopt st (peer_claim w filename [host; port]))).
Proof.
  unfold visit_peer, query_peer, peer_claim, adopt, float. run_steps.
  destruct (timestamp_peer w host port _) as [raw|]; [|eexists; reflexivity].
  destruct (Py.startswith _ _); [|eexists; reflexivity].
  destruct (Py.split _) as [|a [|b [|c [|d [|? ?]]]]];
    try (eexists; reflexivity).
  destruct (float_of_str c) as [t|]; [|eexists; reflexivity].
  destruct (float_gt t (latest_ts st)); eexists; reflexivity.
Qed.

Lemma visit_peer_malformed (filename : string) (peer : list string)
  (st : resolution) (w : world) :
  is_pair peer = false ->
  visit_peer filename peer st w = (w, [], Raise ValueError).
Proof.
  destruct peer as [|a [|b [|c ?]]]; try discriminate; reflexivity.
Qed.

(** ** The loop over the peers *)

Lemma visit_all_pairs (filename : string) (peers : list (list string))
  (st : resolution) (w : world) :
  forallb is_pair peers = true ->
  exists t,
    for_each (visit_peer filename) peers st w
    = (w, t, Return (fold_left (visit w filename) peers st)).
Proof.
  revert st. induction peers as [|peer peers IH]; intros st; simpl.
  - intros _. eexists. reflexivity.
  - rewrite andb_true_iff. intros [Hp Hps].
    destruct peer as [|host [|port [|? ?]]]; try discriminate.
    destruct (visit_peer_pair filename host port st w) as [t1 H1].
    destruct (IH (adopt st (peer_claim w filename [host; port])) Hps)
      as [t2 H2].
    eexists. unfold bind. rewrite H1, H2. reflexivity.
Qed.

Lemma visit_all_malformed (filename : string) (peers : list (list string))
  (st : resolution) (w : world) :
  forallb is_pair peers = false ->
  exists t, for_each (visit_peer filename) peers st w
            = (w, t, Raise ValueError).
Proof.
  revert st. induction peers as [|peer peers IH]; intros st; simpl;
    [discriminate|].
  destruct (is_pair peer) eqn:Hp; simpl.
  - intros Hps.
    destruct peer as [|host [|port [|? ?]]]; try discriminate.
    destruct (visit_peer_pair filename host port st w) as [t1 H1].
    destruct (IH (adopt st (peer_claim w filename [host; port])) Hps)
      as [t2 H2].
    eexists. unfold bind. rewrite H1, H2. reflexivity.
  - intros _. eexists. unfold bind.
    rewrite (visit_peer_malformed _ _ _ _ Hp). reflexivity.
Qed.

(** The value [resolve] returns, given how the local claim went. *)
Lemma resolve_result (filename : string) (w : world) t o :
  local_claim filename w = (w, t, o) ->
  result (resolve filename w)
  = match o with
    | Raise e => Raise e
    | Return st =>
        if forallb is_pair (NODES w)
        then Return (fold_left (visit w filename) (NODES w) st)
        else Raise ValueError
    end.
Proof.
  intros Hlocal. unfold resolve, bind. rewrite Hlocal.
  destruct o as [st|e]; [|reflexivity].
  unfold get.
  destruct (forallb is_pair (NODES w)) eqn:Hpairs.
  - destruct (visit_all_pairs filename (NODES w) st w Hpairs) as [t' ->].
    reflexivity.
  - destruct (visit_all_malformed filename (NODES w) st w Hpairs) as [t' ->].
    reflexivity.
Qed.

(** The local claim names no owner. *)
Lemma local_claim_owner (filename : string) (w w' : world) t st :
  local_claim filename w = (w', t, Return st) -> latest_node st = None.
Proof.
  unfold local_claim, bind.
  destruct (get_timestamp filename w) as [[w1 t1] [latest|e]];
    [|discriminate].
  destruct (_ w1) as [[w2 t2] [ts|e]]; [|discriminate].
  unfold ret. intros [= _ _ <-]. reflexivity.
Qed.

Lemma latest_timestamp_result (filename : string) (w : world) :
  result (latest_timestamp filename w)
  = map_outcome (fun st => (latest st, latest_node st))
      (result (resolve filename w)).
Proof.
  unfold latest_timestamp, bind, result, ret.
  destruct (resolve filename w) as [[w1 t1] [st|e]]; reflexivity.
Qed.
End Resolution.

Section ResolutionOrder.
Context {num : PyNum} {cfg : Config}.
Import FileServer Spec.
Local Open Scope list_scope.

Hypothesis order : strict_total_order.

Lemma gt_asym (a b : pyfloat) : float_gt a b = true -> float_gt b a = false.
Proof.
  intros Hab. destruct (float_gt b a) eqn:Hba; [|reflexivity].
  pose proof (gt_trans order _ _ _ Hab Hba) as Haa.
  now rewrite (gt_irrefl order) in Haa.
Qed.

(** Three-way comparison of two timestamps. *)
Lemma gt_cases (a b : pyfloat) :
  (float_gt a b = true /\ float_gt b a = false)
  \/ (float_gt a b = false /\ float_gt b a = true)
  \/ (float_gt a b = false /\ float_gt b a = false /\ a = b).
Proof.
  destruct (float_gt a b) eqn:Hab, (float_gt b a) eqn:Hba.
  - rewrite (gt_asym _ _ Hab) in Hba. discriminate.
  - now left.
  - right. now left.
  - right. right. repeat split. now apply (gt_total order).
Qed.



Variable w : world.
Variable filename : string.




End ResolutionOrder.

(* ===================================================================== *)
(** * The file server: the peer request dispatcher *)
(* ===================================================================== *)

Section Dispatcher.
Context {num : PyNum} {cfg : Config}.
Import FileServer Spec.
Local Open Scope list_scope.

Lemma dispatch_unknown (w : world) (data : string) :
  is_known_request data = false -> dispatch data w = (w, [], Return tt).
Proof.
  unfold is_known_request. rewrite !orb_false_iff. intros [[H1 H2] H3].
  unfold dispatch. now rewrite H1, H2, H3.
Qed.

(** C10: a request that starts with none of the three commands gets
    no reply at all: the dispatcher writes nothing and logs nothing,
    and the connection is closed with no bytes sent.  The error
    sentinel is written exactly when the dispatch raises (and the
    connection still accepts it); a dispatch that returns is left as
    it is. *)
Theorem unknown_request_gets_no_reply (w : world) (data : string) :
  (is_known_request data = false ->
   handle_socket_request data w = (w, [], Return tt)
   /\ forall raw, Py.strip raw = data ->
                  handle_connection (Some raw) w = (w, [ConnClose], Return tt))
  /\ (result (dispatch data w) = Return tt ->
      handle_socket_request data w = dispatch data w)
  /\ (forall e, result (dispatch data w) = Raise e ->
        trace (handle_socket_request data w)
        = trace (dispatch data w)
            ++ LogError e
               :: (if conn_open (final_state (dispatch data w))
                   then [ConnSend "Error processing request"] else [])).
Proof.
  split; [|split].
  - intros Hunknown.
    assert (Hreq : handle_socket_request data w = (w, [], Return tt)).
    { unfold handle_socket_request, try_except.
      now rewrite (dispatch_unknown _ _ Hunknown). }
    split; [exact Hreq|].
    intros raw Hraw. unfold handle_connection. run_steps.
    now rewrite Hraw, Hreq.
  - unfold handle_socket_request, try_except, result.
    destruct (dispatch data w) as [[w1 t1] [[]|e]]; [reflexivity|discriminate].
  - intros e. unfold handle_socket_request, try_except, result, trace,
      final_state, sendall.
    destruct (dispatch data w) as [[w1 t1] [[]|e']]; [discriminate|].
    cbn [fst snd]. intros [= ->]. run_steps.
    destruct (conn_open w1); reflexivity.
Qed.

(** ** Which boundaries validate the filename *)

Lemma get_file_invalid (w : world) (filename : string) :
  validate_filename filename = false ->
  get_file filename w = (w, [], Return (400, Text "Invalid filename")).
Proof. intros H. unfold get_file. now rewrite H. Qed.

Lemma save_file_invalid (w : world) (filename : string) upload :
  validate_filename filename = false ->
  save_file filename upload w = (w, [], Return (400, Text "Invalid filename")).
Proof. intros H. unfold save_file. now rewrite H. Qed.

(** The boundaries that validate touch no file for an invalid name. *)
Lemma validated_boundaries_touch_no_file (w : world) (filename : string)
  upload :
  validate_filename filename = false ->
  existsb is_file_access (trace (get_timestamp filename w)) = false
  /\ existsb is_file_access (trace (get_file filename w)) = false
  /\ existsb is_file_access (trace (save_file filename upload w)) = false.
Proof.
  intros H.
  rewrite (get_timestamp_invalid _ _ H), (get_file_invalid _ _ H),
    (save_file_invalid _ _ _ H).
  repeat split.
Qed.

(** The timestamp query answers an invalid name without touching a
    file. *)
Lemma timestamp_query_validates (w : world) (name : string) :
  is_token name = true ->
  validate_filename name = false ->
  conn_open w = true ->
  handle_connection (Some ("Last-Modified-Check " ++ name ++ Py.nl)%string) w
  = (w, [ConnSend "File not found"; ConnClose], Return tt).
Proof.
  intros Htok Hinvalid Hopen.
  destruct (request_line_parse "Last-Modified-Check" name eq_refl Htok)
    as [Hstrip Hsplit].
  cbn [append] in Hstrip, Hsplit.
  unfold handle_connection, handle_socket_request, dispatch. run_steps.
  cbn [append]. rewrite Hstrip.
  change (Py.startswith _ "Last-Modified-Check") with true. cbv iota.
  rewrite Hsplit. cbn [nth_error]. run_steps.
  rewrite (get_timestamp_invalid _ _ Hinvalid).
  unfold sendall. run_steps. rewrite Hopen. reflexivity.
Qed.

(** C2 at the file-fetch boundary: for any name in a
    [File-Provision-Request], valid or not, the file that
    [os.path.join(STORAGE, name)] names is looked up, read and sent;
    [validate_filename] is never consulted. *)
Theorem file_fetch_skips_validation (w : world) (name : string) (f : file) :
  is_token name = true ->
  files w (os_path_join STORAGE name) = Some f ->
  conn_open w = true ->
  handle_connection (Some ("File-Provision-Request " ++ name ++ Py.nl)%string) w
  = (w,
     [FsExists (os_path_join STORAGE name);
      FsRead (os_path_join STORAGE name);
      ConnSend (content f); ConnClose],
     Return tt).
Proof.
  intros Htok Hfile Hopen.
  destruct (request_line_parse "File-Provision-Request" name eq_refl Htok)
    as [Hstrip Hsplit].
  cbn [append] in Hstrip, Hsplit.
  unfold handle_connection, handle_socket_request, dispatch. run_steps.
  cbn [append]. rewrite Hstrip.
  change (Py.startswith _ "Last-Modified-Check") with false.
  change (Py.startswith _ "File-Provision-Request") with true. cbv iota.
  rewrite Hsplit. cbn [nth_error]. run_steps.
  unfold os_path_exists, read_file, sendall. run_steps.
  rewrite Hfile. run_steps. rewrite Hfile. run_steps.
  rewrite Hopen. reflexivity.
Qed.
End Dispatcher.

(* ===================================================================== *)
(** * The file server: what a read does *)
(* ===================================================================== *)

Section GoodCase.
Context {num : PyNum} {cfg : Config}.
Import FileServer Spec.
Local Open Scope list_scope.

Variable w : world.
Variable filename : string.

(** Peers that give no claim leave the resolution where it started. *)
Lemma unreachable_peers_keep_claim (peers : list (list string))
  (st : resolution) :
  (forall p, In p peers -> peer_claim w filename p = None) ->
  fold_left (visit w filename) peers st = st.
Proof.
  revert st. induction peers as [|p peers IH]; intros st Hnone;
    [reflexivity|].
  cbn [fold_left].
  change (visit w filename st p) with (adopt st (peer_claim w filename p)).
  rewrite (Hnone p (or_introl eq_refl)). cbn [adopt].
  apply IH. intros q Hq. apply Hnone. now right.
Qed.

(** The loop ends on a timestamp no claim exceeds, held either by
    the state it started from or by a peer's claim that was strictly
    greater than the start. *)
Lemma resolution_is_maximum (order : strict_total_order)
  (peers : list (list string)) (st : resolution) :
  let final := fold_left (visit w filename) peers st in
  float_gt (latest_ts st) (latest_ts final) = false
  /\ (forall p c, In p peers -> peer_claim w filename p = Some c ->
                  float_gt (snd (fst c)) (latest_ts final) = false)
  /\ (final = st
      \/ exists p response t node,
           In p peers
           /\ peer_claim w filename p = Some (response, t, node)
           /\ float_gt t (latest_ts st) = true
           /\ final = {| latest := Some response; latest_ts := t;
                         latest_node := Some node |}).
Proof.
  revert st. induction peers as [|p peers IH]; intros st; cbv zeta.
  - simpl. split; [apply (gt_irrefl order)|]. split; [contradiction|now left].
  - cbn [fold_left].
    change (visit w filename st p) with (adopt st (peer_claim w filename p)).
    set (st1 := adopt st (peer_claim w filename p)).
    destruct (IH st1) as [Hst1 [Hall Hwho]].
    set (final := fold_left _ peers st1) in *.
    assert (Hmono : float_gt (latest_ts st) (latest_ts st1) = false).
    { unfold st1, adopt. destruct (peer_claim w filename p) as [[[r t] n]|];
        [|apply (gt_irrefl order)].
      destruct (float_gt t (latest_ts st)) eqn:Hgt;
        [now apply gt_asym | apply (gt_irrefl order)]. }
    assert (Hle : forall a, float_gt a (latest_ts st1) = false ->
                            float_gt a (latest_ts final) = false).
    { intros a Ha. destruct (float_gt a (latest_ts final)) eqn:Hgt;
        [|reflexivity].
      destruct (gt_cases order (latest_ts st1) (latest_ts final))
        as [[Hc _]|[[_ Hc]|[_ [_ Hc]]]].
      - now rewrite Hc in Hst1.
      - now rewrite (gt_trans order _ _ _ Hgt Hc) in Ha.
      - now rewrite <- Hc, Ha in Hgt. }
    split; [now apply Hle|]. split.
    + intros q c [<-|Hq] Hc; [|now apply (Hall q)].
      apply Hle. unfold st1. rewrite Hc. destruct c as [[r t] n]. simpl.
      destruct (float_gt t (latest_ts st)) eqn:Hgt;
        [apply (gt_irrefl order) | exact Hgt].
    + destruct Hwho as [Hsame|[q [r [t [n [Hq [Hc [Hgt Hfin]]]]]]]].
      * rewrite Hsame. unfold st1, adopt.
        destruct (peer_claim w filename p) as [[[r t] n]|] eqn:Hc;
          [|now left].
        destruct (float_gt t (latest_ts st)) eqn:Hgt; [|now left].
        right. exists p, r, t, n.
        split; [now left|]. split; [exact Hc|]. split; [exact Hgt|].
        reflexivity.
      * right. exists q, r, t, n.
        split; [now right|]. split; [exact Hc|]. split; [|exact Hfin].
        destruct (float_gt t (latest_ts st)) eqn:Hst; [reflexivity|].
        destruct (gt_cases order (latest_ts st) (latest_ts st1))
          as [[Hc' _]|[[_ Hc']|[_ [_ Hc']]]].
        -- now rewrite Hc' in Hmono.
        -- now rewrite (gt_trans order _ _ _ Hgt Hc') in Hst.
        -- now rewrite Hc', Hgt in Hst.
Qed.

(** With a local claim in hand and every peer giving no claim,
    [latest_timestamp] returns the local claim and no owner. *)
Lemma latest_timestamp_unreachable_peers (t : list event) (st : resolution) :
  local_claim filename w = (w, t, Return st) ->
  forallb is_pair (NODES w) = true ->
  (forall p, In p (NODES w) -> peer_claim w filename p = None) ->
  result (latest_timestamp filename w) = Return (latest st, None).
Proof.
  intros Hlocal Hpairs Hnone.
  rewrite latest_timestamp_result, (resolve_result _ _ _ _ Hlocal), Hpairs.
  rewrite (unreachable_peers_keep_claim _ _ Hnone). cbn [map_outcome].
  now rewrite (local_claim_owner _ _ _ _ _ Hlocal).
Qed.

(** With a local claim in hand, [latest_timestamp] returns a claim no
    reply exceeds: the local one with no owner, or the reply of a
    peer whose timestamp is strictly above the local one, with the
    owner that reply names. *)
Lemma latest_timestamp_maximum (order : strict_total_order)
  (t0 : list event) (st : resolution) :
  local_claim filename w = (w, t0, Return st) ->
  forallb is_pair (NODES w) = true ->
  exists final,
    result (resolve filename w) = Return final
    /\ result (latest_timestamp filename w)
       = Return (latest final, latest_node final)
    /\ float_gt (latest_ts st) (latest_ts final) = false
    /\ (forall p c, In p (NODES w) -> peer_claim w filename p = Some c ->
                    float_gt (snd (fst c)) (latest_ts final) = false)
    /\ ((final = st /\ latest_node final = None)
        \/ exists p response t node,
             In p (NODES w)
             /\ peer_claim w filename p = Some (response, t, node)
             /\ float_gt t (latest_ts st) = true
             /\ final = {| latest := Some response; latest_ts := t;
                           latest_node := Some node |}).
Proof.
  intros Hlocal Hpairs.
  exists (fold_left (visit w filename) (NODES w) st).
  destruct (resolution_is_maximum order (NODES w) st) as [Hge [Hall Hwho]].
  rewrite latest_timestamp_result, (resolve_result _ _ _ _ Hlocal), Hpairs.
  split; [reflexivity|]. split; [reflexivity|].
  split; [exact Hge|]. split; [exact Hall|].
  destruct Hwho as [Hsame|Hpeer]; [left|right; exact Hpeer].
  split; [exact Hsame|]. rewrite Hsame.
  apply (local_claim_owner _ _ _ _ _ Hlocal).
Qed.
End GoodCase.

Section Fetch.
Context {num : PyNum} {cfg : Config}.
Import FileServer Spec.
Local Open Scope list_scope.

Lemma truthy_nonempty (s : string) : s <> ""%string -> Py.truthy (Some s) = true.
Proof.
  intros Hs. unfold Py.truthy. apply negb_true_iff.
  now apply String.eqb_neq.
Qed.

(** When a remote owner wins and the fetch from it raises, the read
    answers 500 and the local files are left as they were. *)
Lemma failed_fetch_is_reported (w : world)
  (filename latest node host port : string) (t : list event) :
  validate_filename filename = true ->
  latest_timestamp filename w = (w, t, Return (Some latest, Some node)) ->
  latest <> ""%string -> node <> ""%string -> node <> own_address ->
  Py.split_on ":" node = [host; port] ->
  match int_of_str port with
  | Some p =>
      provision_peer w host p
        ("File-Provision-Request " ++ filename ++ Py.nl)%string = None
  | None => True
  end ->
  exists e t',
    get_file filename w = (w, t', Return (500, ErrorDownloading e)).
Proof.
  intros Hvalid Hlatest Hl Hn Hown Hsplit Hfail.
  unfold get_file. rewrite Hvalid. run_steps. rewrite Hlatest.
  rewrite (truthy_nonempty _ Hl), (truthy_nonempty _ Hn). run_steps.
  apply String.eqb_neq in Hown. rewrite Hown. cbn [negb andb].
  rewrite Hsplit. unfold fetch_from, int. run_steps.
  destruct (int_of_str port) as [p|]; run_steps.
  - rewrite Hfail. eexists. eexists. reflexivity.
  - eexists. eexists. reflexivity.
Qed.
End Fetch.

Section SpacedNames.
Context {num : PyNum} {cfg : Config}.
Import FileServer Spec.
Local Open Scope list_scope.

Variable w : world.
Variable f : file.
Hypothesis stored : files w (os_path_join STORAGE "a b") = Some f.
Hypothesis not_a_number : float_of_str "b" = None.

Lemma local_claim_spaced :
  local_claim "a b" w
  = (w, [FsExists (os_path_join STORAGE "a b");
         FsGetmtime (os_path_join STORAGE "a b")], Raise ValueError).
Proof.
  unfold local_claim, float. run_steps.
  rewrite (get_timestamp_present "a b" w f eq_refl stored).
  change (Py.truthy (Some _)) with true. cbv iota. run_steps.
  change (nth_error (Py.split _) 2) with (Some "b"%string). run_steps.
  rewrite not_a_number. reflexivity.
Qed.

(** C5 at the file name [a b]: the name is valid and the file is
    stored, so the local claim exists, but [latest_timestamp] raises
    [ValueError] instead of returning it, whatever the peers do. *)
Theorem spaced_filename_aborts_resolution :
  validate_filename "a b" = true
  /\ result (get_timestamp "a b" w)
     = Return (Some ("Last-Modified a b " ++ str_of_float (mtime f)
                       ++ " " ++ own_address)%string)
  /\ result (latest_timestamp "a b" w) = Raise ValueError.
Proof.
  split; [reflexivity|]. split.
  - now rewrite (get_timestamp_present "a b" w f eq_refl stored).
  - unfold latest_timestamp, resolve, bind.
    now rewrite local_claim_spaced.
Qed.

(** C7 at the file name [a b]: the read of a valid, locally stored
    file ends in status 500 although no peer was asked for the file
    and no fetch was attempted. *)
Theorem read_fails_without_any_fetch :
  validate_filename "a b" = true
  /\ result (get_file "a b" w) = Raise ValueError
  /\ result (serve_http (get_file "a b") w)
     = Return (500, Text "Internal Server Error")
  /\ existsb is_fetch (trace (serve_http (get_file "a b") w)) = false.
Proof.
  assert (Hget : get_file "a b" w
                 = (w, [FsExists (os_path_join STORAGE "a b");
                        FsGetmtime (os_path_join STORAGE "a b")],
                    Raise ValueError)).
  { unfold get_file. change (negb (validate_filename "a b")) with false.
    cbv iota. unfold latest_timestamp, resolve, bind.
    now rewrite local_claim_spaced. }
  split; [reflexivity|]. split; [now rewrite Hget|].
  unfold serve_http, try_except. rewrite Hget. split; reflexivity.
Qed.
End SpacedNames.

(* ===================================================================== *)
(** * The file server: the order in which peers are visited *)
(* ===================================================================== *)

Section VisitOrder.
Context {num : PyNum} {cfg : Config}.
Import FileServer Spec.
Local Open Scope list_scope.

(** Claims that do not exceed the current timestamp change nothing. *)
Lemma no_newer_claim (w : world) (filename : string)
  (peers : list (list string)) (st : resolution) :
  (forall p c, In p peers -> peer_claim w filename p = Some c ->
               float_gt (snd (fst c)) (latest_ts st) = false) ->
  fold_left (visit w filename) peers st = st.
Proof.
  induction peers as [|p peers IH]; intros Hno; [reflexivity|].
  cbn [fold_left].
  assert (Hp : visit w filename st p = st).
  { unfold visit, adopt.
    destruct (peer_claim w filename p) as [[[r t] n]|] eqn:Hc; [|reflexivity].
    pose proof (Hno p _ (or_introl eq_refl) Hc) as Hle.
    cbn [fst snd] in Hle. now rewrite Hle. }
  rewrite Hp. apply IH. intros q c Hq. apply Hno. now right.
Qed.


Hypothesis order : strict_total_order.

Variable w : world.
Variable filename : string.




End VisitOrder.

(* ===================================================================== *)
(** * Concrete runs *)
(* ===================================================================== *)

Section Runs.
Import FileServer Spec Example.
Local Open Scope list_scope.
#[local] Existing Instance WholeSeconds.num.

(** C1 at the file name [report 2024]: node A holds the file with
    timestamp 1700000000, node B answers the query with its older
    file [report] (1600000000), and the resolution on A returns B's
    claim and names B the owner, although A's own timestamp is the
    maximum. *)
Theorem stale_peer_claim_beats_newer_local_file :
  validate_filename "report 2024" = true
  /\ result (get_timestamp (cfg := node_a) "report 2024" report_on_a)
     = Return (Some "Last-Modified report 2024 1700000000.0 10.0.0.1:6000")
  /\ served_reply (cfg := node_b) report_on_b
       ("Last-Modified-Check report 2024" ++ Py.nl)
     = "Last-Modified report 1600000000.0 10.0.0.2:6000"%string
  /\ float_gt 1700000000%N 1600000000%N = true
  /\ result (latest_timestamp (cfg := node_a) "report 2024" report_on_a)
     = Return (Some "Last-Modified report 1600000000.0 10.0.0.2:6000",
               Some "10.0.0.2:6000").
Proof. vm_compute. repeat split; reflexivity. Qed.

(** C9 at the file name [a b]: node A joins an empty registry, so
    its peer list is its own address; it stores [a] but not [a b].
    Without the self-query the resolution of [a b] finds nothing and
    the read answers 404; with it the node's own dispatcher answers
    for the file [a], the resolution adopts that claim with the node
    itself as owner, and the read answers 500.  For the stored file
    [a] the self-query changes nothing. *)
Theorem self_query_changes_the_resolution :
  trace (Discovery.handle_node_registration
           (Some (Discovery.join_message "10.0.0.1" "6000")) true 0%N [])
  = [Discovery.Reply (listing_text [addr_a]); Discovery.Close]
  /\ NODES (final_state (join_attempt (cfg := node_a)
                           (Some (listing_text [addr_a])) (alone_on_a [])))
     = [addr_a]
  /\ validate_filename "a b" = true
  /\ result (latest_timestamp (cfg := node_a) "a b"
               (with_loopback (cfg := node_a) (alone_on_a [])))
     = Return (None, None)
  /\ result (latest_timestamp (cfg := node_a) "a b"
               (with_loopback (cfg := node_a) (alone_on_a [addr_a])))
     = Return (Some "Last-Modified a 100.0 10.0.0.1:6000",
               Some "10.0.0.1:6000")
  /\ result (serve_http (get_file (cfg := node_a) "a b")
               (with_loopback (cfg := node_a) (alone_on_a [])))
     = Return (404, Text "File not found")
  /\ result (serve_http (get_file (cfg := node_a) "a b")
               (with_loopback (cfg := node_a) (alone_on_a [addr_a])))
     = Return (500, Text "Internal Server Error")
  /\ result (latest_timestamp (cfg := node_a) "a"
               (with_loopback (cfg := node_a) (alone_on_a [addr_a])))
     = result (latest_timestamp (cfg := node_a) "a"
                 (with_loopback (cfg := node_a) (alone_on_a []))).
Proof. vm_compute. repeat split; reflexivity. Qed.

End Runs.

(* ===================================================================== *)
(** * The theorems at concrete inputs *)
(* ===================================================================== *)

Section Witnesses.
Import FileServer Spec Example.
Local Open Scope list_scope.
#[local] Existing Instance WholeSeconds.num.

Lemma eviction_after_three_missed_updates_witness :
  well_formed two_nodes
  /\ Discovery.lookup addr_b two_nodes
     = Some {| Discovery.last_seen := 0%N; Discovery.missed_updates := 0 |}
  /\ (forall message, b_is_down addr_b message = false)
  /\ Discovery.lookup addr_b
       (final_state (Discovery.update_cycle b_is_down two_nodes))
     = Some {| Discovery.last_seen := 0%N; Discovery.missed_updates := 1 |}
  /\ Discovery.lookup addr_b
       (final_state
          (Discovery.update_cycle b_is_down
             (final_state (Discovery.update_cycle b_is_down two_nodes))))
     = Some {| Discovery.last_seen := 0%N; Discovery.missed_updates := 2 |}
  /\ Discovery.lookup addr_a
       (final_state
          (Discovery.update_nodes [b_is_down; b_is_down; b_is_down]
             two_nodes))
     = Some {| Discovery.last_seen := 0%N; Discovery.missed_updates := 0 |}
  /\ ~ In addr_b
         (Discovery.keys
            (final_state
               (Discovery.update_nodes [b_is_down; b_is_down; b_is_down]
                  two_nodes))).
Proof.
  assert (Hwf : well_formed two_nodes).
  { split; [|reflexivity].
    apply NoDup_cons; [simpl; intros [H|[]]; discriminate H|].
    apply NoDup_cons; [simpl; intros []|apply NoDup_nil]. }
  assert (Hdown : forall message, b_is_down addr_b message = false)
    by (intros message; reflexivity).
  pose proof (eviction_after_three_missed_updates
                two_nodes addr_b
                {| Discovery.last_seen := 0%N;
                   Discovery.missed_updates := 0 |}
                b_is_down b_is_down b_is_down
                [all_up] Hwf eq_refl Hdown Hdown Hdown) as H.
  cbv zeta in H.
  destruct H as [_ [_ [_ [_ [_ [L1 [L2 [_ [Hack [_ [Hgone _]]]]]]]]]]].
  split; [exact Hwf|]. split; [reflexivity|]. split; [exact Hdown|].
  split; [exact L1|]. split; [exact L2|]. split; [|exact Hgone].
  exact (Hack addr_a _ eq_refl (fun _ => eq_refl) (fun _ => eq_refl)
           (fun _ => eq_refl)).
Defined.

Lemma unknown_request_gets_no_reply_witness :
  is_known_request "Hello" = false
  /\ handle_socket_request (cfg := node_a) "Hello" spaced_name_on_a
     = (spaced_name_on_a, [], Return tt).
Proof.
  split; [reflexivity|].
  exact (proj1 (proj1 (unknown_request_gets_no_reply (cfg := node_a)
                         spaced_name_on_a "Hello") eq_refl)).
Defined.

Lemma file_fetch_skips_validation_witness :
  is_token "../secret" = true
  /\ validate_filename "../secret" = false
  /\ handle_connection (cfg := node_a)
       (Some ("File-Provision-Request ../secret" ++ Py.nl)%string) with_secret
     = (with_secret,
        [FsExists "storage/../secret"; FsRead "storage/../secret";
         ConnSend "top secret"; ConnClose],
        Return tt).
Proof.
  split; [reflexivity|]. split; [reflexivity|].
  exact (file_fetch_skips_validation (cfg := node_a) with_secret "../secret"
           {| mtime := 7%N; content := "top secret" |}
           eq_refl eq_refl eq_refl).
Defined.

Lemma spaced_filename_aborts_resolution_witness :
  files spaced_name_on_a "storage/a b"
  = Some {| mtime := 100%N; content := "data" |}
  /\ float_of_str "b" = None
  /\ result (latest_timestamp (cfg := node_a) "a b" spaced_name_on_a)
     = Raise ValueError.
Proof.
  split; [reflexivity|]. split; [reflexivity|].
  exact (proj2 (proj2 (spaced_filename_aborts_resolution (cfg := node_a)
                         spaced_name_on_a
                         {| mtime := 100%N; content := "data" |}
                         eq_refl eq_refl))).
Defined.

Lemma read_fails_without_any_fetch_witness :
  files spaced_name_on_a "storage/a b"
  = Some {| mtime := 100%N; content := "data" |}
  /\ float_of_str "b" = None
  /\ result (serve_http (get_file (cfg := node_a) "a b") spaced_name_on_a)
     = Return (500, Text "Internal Server Error").
Proof.
  split; [reflexivity|]. split; [reflexivity|].
  exact (proj1 (proj2 (proj2 (read_fails_without_any_fetch (cfg := node_a)
                                spaced_name_on_a
                                {| mtime := 100%N; content := "data" |}
                                eq_refl eq_refl)))).
Defined.


End Witnesses.

(* ===================================================================== *)
(** * More on protocol lines *)
(* ===================================================================== *)

Lemma length_append (a b : string) :
  String.length (a ++ b) = String.length a + String.length b.
Proof. induction a as [|c a IH]; simpl; [reflexivity | now rewrite IH]. Qed.

(** A read of at most [n] characters returns a shorter text whole. *)
Lemma substring_whole (n : nat) (s : string) :
  String.length s <= n -> substring 0 n s = s.
Proof.
  revert n. induction s as [|c s IH]; intros n Hn.
  - now destruct n.
  - destruct n as [|n]; simpl in *; [lia|]. rewrite IH; [reflexivity | lia].
Qed.

Lemma recv1024_whole (s : string) :
  String.length s <= 1024 -> FileServer.recv1024 s = s.
Proof. apply substring_whole. Qed.

Lemma substring_prefix (n : nat) (t rest : string) :
  String.length t <= n ->
  substring 0 n (t ++ rest)
  = t ++ substring 0 (n - String.length t) rest.
Proof.
  revert n. induction t as [|c t IH]; intros n Hn.
  - simpl. now rewrite Nat.sub_0_r.
  - destruct n as [|n]; simpl in *; [lia|]. rewrite IH; [reflexivity | lia].
Qed.

Lemma rstrip_run (t : string) :
  Spec.all_chars (fun c => negb (Py.isspace c)) t = true -> Py.rstrip t = t.
Proof.
  induction t as [|c t IH]; simpl; [reflexivity|].
  rewrite andb_true_iff, negb_true_iff. intros [Hc Ht].
  rewrite (IH Ht). destruct t; [now rewrite Hc | reflexivity].
Qed.

(** Right-stripping leaves a leading run of non-whitespace alone. *)
Lemma rstrip_run_prefix (t rest : string) :
  Spec.all_chars (fun c => negb (Py.isspace c)) t = true ->
  Py.rstrip (t ++ rest) = t ++ Py.rstrip rest.
Proof.
  induction t as [|c t IH]; simpl; [reflexivity|].
  rewrite andb_true_iff, negb_true_iff. intros [Hc Ht].
  rewrite (IH Ht). destruct (t ++ Py.rstrip rest); [now rewrite Hc | reflexivity].
Qed.

Lemma token_run (t : string) :
  Spec.is_token t = true ->
  Spec.all_chars (fun c => negb (Py.isspace c)) t = true.
Proof. unfold Spec.is_token. rewrite andb_true_iff. tauto. Qed.

Lemma token_nonempty (t : string) : Spec.is_token t = true -> t <> "".
Proof.
  unfold Spec.is_token. rewrite andb_true_iff, negb_true_iff.
  intros [H _]. now apply String.eqb_neq.
Qed.

Lemma rstrip_token (s t : string) :
  Spec.is_token t = true -> Py.rstrip (s ++ t) = s ++ t.
Proof.
  intros Ht. rewrite rstrip_app; rewrite (rstrip_run _ (token_run _ Ht));
    [reflexivity | now apply token_nonempty].
Qed.

(** A line that begins and ends with a token is its own strip. *)
Lemma strip_between_tokens (first middle last : string) :
  Spec.is_token first = true -> Spec.is_token last = true ->
  Py.strip (first ++ middle ++ last) = first ++ middle ++ last.
Proof.
  intros Hf Hl. unfold Py.strip. rewrite (lstrip_token _ _ Hf).
  rewrite <- (append_assoc first middle last).
  now apply rstrip_token.
Qed.

(** Four tokens separated by single spaces split into themselves. *)
Lemma split_four_tokens (a b c d : string) :
  Spec.is_token a = true -> Spec.is_token b = true ->
  Spec.is_token c = true -> Spec.is_token d = true ->
  Py.split (a ++ " " ++ b ++ " " ++ c ++ " " ++ d) = [a; b; c; d].
Proof.
  intros Ha Hb Hc Hd. unfold Py.split.
  rewrite (split_token _ _ Ha). cbn [append].
  change (Py.isspace " ") with true. cbv iota. f_equal.
  rewrite (split_token _ _ Hb). cbn [append].
  change (Py.isspace " ") with true. cbv iota. f_equal.
  rewrite (split_token _ _ Hc). cbn [append].
  change (Py.isspace " ") with true. cbv iota. f_equal.
  rewrite <- (append_nil_r d) at 1. now rewrite (split_token _ _ Hd).
Qed.

(** The third field of a line whose first three fields are tokens. *)
Lemma split_third_token (a b c rest : string) :
  Spec.is_token a = true -> Spec.is_token b = true ->
  Spec.is_token c = true ->
  nth_error (Py.split (a ++ " " ++ b ++ " " ++ c ++ " " ++ rest)) 2 = Some c.
Proof.
  intros Ha Hb Hc. unfold Py.split.
  rewrite (split_token _ _ Ha). cbn [append].
  change (Py.isspace " ") with true. cbv iota.
  rewrite (split_token _ _ Hb). cbn [append].
  change (Py.isspace " ") with true. cbv iota.
  rewrite (split_token _ _ Hc). cbn [append].
  change (Py.isspace " ") with true. cbv iota. reflexivity.
Qed.

(** ** Lines joined by newlines *)


(* ===================================================================== *)
(** * The discovery server: every input *)
(* ===================================================================== *)

Section RegistrationAnyInput.
Context {time : Type}.
Import Discovery Spec.
Local Open Scope list_scope.

Lemma format_addresses_malformed (ks : list address) :
  forallb is_pair ks = false -> format_addresses ks = None.
Proof.
  induction ks as [|a ks IH]; simpl; [discriminate|].
  destruct a as [|h [|p [|? ?]]]; try reflexivity.
  simpl. intros H. now rewrite (IH H).
Qed.

(** The registry a connection leaves, whatever was received. *)
Lemma registration_outcome (received : option string) (conn_open : bool)
  (now : time) (nodes : registry time) :
  exists t,
    (handle_node_registration received conn_open now nodes
     = (nodes, t ++ [Close], Return tt)
     \/ exists a,
          ~ In a (keys nodes)
          /\ handle_node_registration received conn_open now nodes
             = (nodes ++ [(a, {| last_seen := now; missed_updates := 0 |})],
                t ++ [Close], Return tt)).
Proof.
  unfold handle_node_registration.
  set (body := bind (or_raise received ConnectionError) _).
  assert (Hstate : final_state (body nodes) = nodes
                   \/ exists a,
                        ~ In a (keys nodes)
                        /\ final_state (body nodes)
                           = nodes ++ [(a, {| last_seen := now;
                                              missed_updates := 0 |})]).
  { unfold body, listing_message, final_state. run_steps.
    destruct received as [raw|]; run_steps; [|now left].
    destruct (Py.startswith (Py.strip raw) "Join-Discovery-Service");
      [|now left].
    destruct (nth_error (Py.split (Py.strip raw)) 1) as [field|]; run_steps;
      [|now left].
    destruct (in_dec address_eq_dec (Py.split_on ":" field) (keys nodes))
      as [Hin|Hnot]; run_steps.
    - destruct (format_addresses (keys nodes)) as [lines|]; run_steps;
        [destruct conn_open; run_steps|]; now left.
    - right. exists (Py.split_on ":" field). split; [exact Hnot|].
      destruct (format_addresses _) as [lines|]; run_steps;
        [destruct conn_open; run_steps|]; reflexivity. }
  unfold final_state in Hstate. run_steps.
  destruct (body nodes) as [[s1 t1] [[]|e]]; cbn [fst] in Hstate.
  - exists t1.
    destruct Hstate as [->|[a [Ha ->]]]; [now left|right; now exists a].
  - exists (t1 ++ [Print e]).
    destruct Hstate as [->|[a [Ha ->]]]; [now left|right; now exists a].
Qed.

(** X1 (extra): whatever a connection delivers, the handler returns
    normally and closes the connection, leaves every existing entry
    as it was, adds at most one entry (a new key, no missed updates,
    the current time) at the end, and keeps the keys unique and the
    counters below the threshold. *)
Theorem registration_never_disturbs_entries (received : option string)
  (conn_open : bool) (now : time) (nodes : registry time) :
  let run := handle_node_registration received conn_open now nodes in
  result run = Return tt
  /\ (exists t, trace run = t ++ [Close])
  /\ (final_state run = nodes
      \/ exists a,
           ~ In a (keys nodes)
           /\ final_state run
              = nodes ++ [(a, {| last_seen := now; missed_updates := 0 |})])
  /\ (NoDup (keys nodes) -> NoDup (keys (final_state run)))
  /\ (below_threshold nodes -> below_threshold (final_state run)).
Proof.
  cbv zeta.
  destruct (registration_outcome received conn_open now nodes)
    as [t [H|[a [Ha H]]]]; rewrite H;
    unfold result, trace, final_state; cbn [fst snd].
  - split; [reflexivity|]. split; [now exists t|]. split; [now left|].
    split; auto.
  - split; [reflexivity|]. split; [now exists t|].
    split; [right; now exists a|]. split.
    + intros Hnd. unfold keys in *. rewrite map_app. cbn [map fst].
      apply NoDup_app; [exact Hnd | repeat constructor; intros [] |].
      intros k Hk [<-|[]]. contradiction.
    + intros Hbelow. apply Forall_app. split; [exact Hbelow|].
      constructor; [|constructor]. cbn. unfold NODE_TIMEOUT. lia.
Qed.
End RegistrationAnyInput.

Section MalformedKeys.
Context {time : Type}.
Import Discovery Spec.
Local Open Scope list_scope.

(** A pass over a registry that holds a key which is not a pair
    raises before the first push and changes nothing. *)
Lemma update_cycle_malformed (send_to_node : address -> string -> bool)
  (nodes : registry time) :
  forallb is_pair (keys nodes) = false ->
  update_cycle send_to_node nodes = (nodes, [], Raise ValueError).
Proof.
  intros Hbad. pose proof (format_addresses_malformed _ Hbad) as Hnone.
  unfold update_cycle. run_steps.
  destruct nodes as [|[k r] nodes]; [discriminate|].
  cbn [keys map fst for_each]. unfold push_node, listing_message at 1.
  run_steps. cbn [keys map fst] in Hnone. now rewrite Hnone.
Qed.

(** A Join whose address field has no colon is stored under a key
    that is not a pair, and gets no reply. *)
Lemma malformed_join_run (nodes : registry time) (field : string)
  (now : time) :
  is_token field = true ->
  all_chars (fun c => negb (Ascii.eqb c ":")) field = true ->
  ~ In [field] (keys nodes) ->
  handle_node_registration
    (Some ("Join-Discovery-Service " ++ field ++ Py.nl)%string) true now nodes
  = (nodes ++ [([field], {| last_seen := now; missed_updates := 0 |})],
     [Print ValueError; Close], Return tt).
Proof.
  intros Htok Hcolon Hnew.
  destruct (request_line_parse "Join-Discovery-Service" field eq_refl Htok)
    as [Hstrip Hsplit].
  cbn [append] in Hstrip, Hsplit.
  assert (Hfield : Py.split_on ":" field = [field]).
  { unfold Py.split_on. rewrite <- (append_nil_r field) at 1.
    rewrite (split_on_aux_run _ _ _ _ Hcolon). cbn [Py.split_on_aux].
    now rewrite rev_string_rev. }
  unfold handle_node_registration, listing_message. run_steps.
  cbn [append]. rewrite Hstrip.
  change (Py.startswith _ "Join-Discovery-Service") with true. cbv iota.
  rewrite Hsplit. cbn [nth_error]. run_steps. rewrite Hfield.
  destruct (in_dec address_eq_dec [field] (keys nodes)); [contradiction|].
  run_steps.
  rewrite format_addresses_malformed; [reflexivity|].
  unfold keys. rewrite map_app, forallb_app. cbn. apply andb_false_r.
Qed.

(** In a registry that holds a key which is not a pair, the Join of
    a well-formed address is entered as usual but gets no reply. *)
Lemma join_on_malformed_registry (nodes : registry time)
  (host port : string) (now : time) :
  forallb is_pair (keys nodes) = false ->
  is_field host = true -> is_field port = true ->
  handle_node_registration (Some (join_message host port)) true now nodes
  = (if in_dec address_eq_dec [host; port] (keys nodes) then nodes
     else nodes ++ [([host; port],
                     {| last_seen := now; missed_updates := 0 |})],
     [Print ValueError; Close], Return tt).
Proof.
  intros Hbad Hh Hp.
  destruct (join_message_parse host port Hh Hp) as [Hstart Hsplit].
  cbv zeta in Hstart, Hsplit.
  unfold handle_node_registration, listing_message. run_steps.
  rewrite Hstart, Hsplit. cbn [nth_error]. run_steps.
  rewrite (split_on_colon host port Hh Hp).
  destruct (in_dec address_eq_dec [host; port] (keys nodes)) as [Hin|Hnot];
    run_steps.
  - now rewrite (format_addresses_malformed _ Hbad).
  - rewrite format_addresses_malformed; [reflexivity|].
    unfold keys in *. rewrite map_app, forallb_app.
    apply andb_false_iff. now left.
Qed.

(** X2 (extra): a Join whose address field has no colon is entered
    in the registry as a one-element key and gets no reply; and from
    any registry that holds a key which is not a (host, port) pair,
    every update pass raises [ValueError] before pushing to anyone,
    leaving the registry as it is, and every later Join of a
    well-formed address is entered but gets no reply either. *)
Theorem malformed_key_stops_the_service :
  (forall (nodes : registry time) (field : string) (now : time),
      is_token field = true ->
      all_chars (fun c => negb (Ascii.eqb c ":")) field = true ->
      ~ In [field] (keys nodes) ->
      handle_node_registration
        (Some ("Join-Discovery-Service " ++ field ++ Py.nl)%string) true now
        nodes
      = (nodes ++ [([field], {| last_seen := now; missed_updates := 0 |})],
         [Print ValueError; Close], Return tt))
  /\ (forall (nodes : registry time) send_to_node,
         forallb is_pair (keys nodes) = false ->
         update_cycle send_to_node nodes = (nodes, [], Raise ValueError))
  /\ (forall (nodes : registry time) (host port : string) (now : time),
         forallb is_pair (keys nodes) = false ->
         is_field host = true -> is_field port = true ->
         let run := handle_node_registration
                      (Some (join_message host port)) true now nodes in
         trace run = [Print ValueError; Close]
         /\ In [host; port] (keys (final_state run))).
Proof.
  split; [|split].
  - intros nodes field now. apply malformed_join_run.
  - intros nodes send_to_node. apply update_cycle_malformed.
  - intros nodes host port now Hbad Hh Hp run. unfold run.
    rewrite (join_on_malformed_registry nodes host port now Hbad Hh Hp).
    split; [reflexivity|]. unfold final_state. cbn [fst].
    destruct (in_dec address_eq_dec [host; port] (keys nodes)) as [Hin|Hnot];
      [exact Hin|].
    unfold keys. rewrite map_app, in_app_iff. right. now left.
Qed.

(** C8: the registry part of the claim holds but the reply part does
    not.  After one Join whose address field has no colon (stored
    under a key that is not a (host, port) pair), the Join of a
    well-formed address still leaves the registry equal to before
    when the address is present and appends it with no missed
    updates and the current time when it is absent, but no reply is
    sent: formatting the listing raises [ValueError], which is
    printed, and the connection is closed. *)
Theorem join_after_malformed_join_gets_no_listing (nodes : registry time)
  (field host port : string) (earlier now : time) :
  is_token field = true ->
  all_chars (fun c => negb (Ascii.eqb c ":")) field = true ->
  ~ In [field] (keys nodes) ->
  is_field host = true -> is_field port = true ->
  let poisoned :=
    final_state (handle_node_registration
                   (Some ("Join-Discovery-Service " ++ field ++ Py.nl)%string)
                   true earlier nodes) in
  let run :=
    handle_node_registration (Some (join_message host port)) true now
      poisoned in
  poisoned
  = nodes ++ [([field], {| last_seen := earlier; missed_updates := 0 |})]
  /\ result run = Return tt
  /\ trace run = [Print ValueError; Close]
  /\ (forall listing, ~ In (Reply listing) (trace run))
  /\ (In [host; port] (keys poisoned) -> final_state run = poisoned)
  /\ (~ In [host; port] (keys poisoned) ->
      final_state run
      = poisoned ++ [([host; port],
                      {| last_seen := now; missed_updates := 0 |})])
  /\ In [host; port] (keys (final_state run)).
Proof.
  intros Htok Hcolon Hnew Hh Hp poisoned run.
  assert (Hpoisoned : poisoned
                      = nodes ++ [([field], {| last_seen := earlier;
                                               missed_updates := 0 |})])
    by (unfold poisoned;
        now rewrite (malformed_join_run nodes field earlier Htok Hcolon Hnew)).
  assert (Hbad : forallb is_pair (keys poisoned) = false).
  { rewrite Hpoisoned. unfold keys. rewrite map_app, forallb_app. cbn.
    apply andb_false_r. }
  assert (Hrun : run
                 = (if in_dec address_eq_dec [host; port] (keys poisoned)
                    then poisoned
                    else poisoned ++ [([host; port],
                                       {| last_seen := now;
                                          missed_updates := 0 |})],
                    [Print ValueError; Close], Return tt))
    by (apply join_on_malformed_registry; assumption).
  rewrite Hrun. unfold result, trace, final_state. cbn [fst snd].
  split; [exact Hpoisoned|]. split; [reflexivity|]. split; [reflexivity|].
  split; [intros listing [H|[H|[]]]; discriminate H|].
  destruct (in_dec address_eq_dec [host; port] (keys poisoned)) as [Hin|Hnot].
  - split; [reflexivity|]. split; [contradiction|exact Hin].
  - split; [contradiction|]. split; [reflexivity|].
    unfold keys. rewrite map_app, in_app_iff. right. now left.
Qed.
End MalformedKeys.

Section ServiceInvariant.
Context {time : Type}.
Import Discovery Spec Service.
Local Open Scope list_scope.

(** One request keeps the keys unique and the counters below the
    threshold. *)
Lemma serve_one_invariant (r : request time) (nodes : registry time)
  (updating : bool) :
  NoDup (keys nodes) /\ below_threshold nodes ->
  NoDup (keys (fst (serve_one r (nodes, updating))))
  /\ below_threshold (fst (serve_one r (nodes, updating))).
Proof.
  intros [Hnd Hbelow]. destruct r as [received conn_open now|send_to_node].
  - cbn [serve_one fst].
    destruct (registration_never_disturbs_entries received conn_open now nodes)
      as [_ [_ [_ [H1 H2]]]].
    split; auto.
  - cbn [serve_one]. destruct updating; [|now split].
    destruct (forallb is_pair (keys nodes)) eqn:Hpairs.
    + rewrite (update_cycle_run send_to_node nodes (conj Hnd Hpairs)).
      cbn [fst]. split.
      * apply (after_cycle_well_formed send_to_node _ nodes (conj Hnd Hpairs)).
      * apply after_cycle_below_threshold.
    + rewrite (update_cycle_malformed send_to_node nodes Hpairs).
      now split.
Qed.

(** X3 (extra): starting from the empty registry, after any sequence
    of handled connections (whatever they deliver) and update passes
    (whatever the network does), the registry has unique keys and
    every missed-update counter is below [NODE_TIMEOUT]. *)
Theorem registry_invariant (requests : list (request time)) :
  NoDup (keys (fst (serve requests ([], true))))
  /\ below_threshold (fst (serve requests ([], true))).
Proof.
  unfold serve.
  assert (G : forall requests (st : registry time * bool),
             NoDup (keys (fst st)) /\ below_threshold (fst st) ->
             NoDup (keys (fst (fold_left (fun st r => serve_one r st)
                                 requests st)))
             /\ below_threshold (fst (fold_left (fun st r => serve_one r st)
                                        requests st))).
  { clear. induction requests as [|r requests IH]; intros [nodes updating] H;
      [exact H|].
    cbn [fold_left]. apply IH. now apply serve_one_invariant. }
  apply G. split; [constructor | constructor].
Qed.
End ServiceInvariant.

Section Counters.
Context {time : Type}.
Import Discovery Spec.
Local Open Scope list_scope.

Lemma last_seen_after_cycle (send_to_node : address -> string -> bool)
  (message : string) (k : address) (nodes : registry time)
  (r' : node_record time) :
  NoDup (keys nodes) ->
  lookup k (after_cycle send_to_node message nodes) = Some r' ->
  exists r, lookup k nodes = Some r /\ last_seen r' = last_seen r.
Proof.
  intros Hnd. rewrite (lookup_after_cycle _ _ _ _ Hnd).
  destruct (lookup k nodes) as [r|]; [|discriminate].
  unfold after_push.
  destruct (send_to_node k message);
    [|destruct (NODE_TIMEOUT <=? missed_updates r + 1)%nat];
    cbn [option_map snd]; try discriminate;
    intros [= <-]; exists r; split; reflexivity.
Qed.

(** X4 (extra): in a pass over a registry of uniquely keyed (host,
    port) entries, a node that acknowledges its push stays registered
    with its counter reset to 0 whatever the counter was; and over any
    number of passes the [last_seen] of an entry that is still
    registered is the one it was entered with: no pass refreshes it. *)
Theorem acknowledged_push_resets_counter (nodes : registry time)
  (node : address) (r : node_record time)
  (send_to_node : address -> string -> bool) :
  well_formed nodes ->
  lookup node nodes = Some r ->
  send_to_node node (listing_text (keys nodes)) = true ->
  lookup node (final_state (update_cycle send_to_node nodes))
  = Some {| last_seen := last_seen r; missed_updates := 0 |}
  /\ forall sends k r',
       lookup k (final_state (update_nodes sends nodes)) = Some r' ->
       exists r0, lookup k nodes = Some r0 /\ last_seen r' = last_seen r0.
Proof.
  intros Hwf Hr Hack. split.
  - rewrite (update_cycle_run _ _ Hwf). unfold final_state. cbn [fst].
    now apply acknowledged_push; [apply Hwf| |].
  - intros sends. rewrite (update_nodes_run _ _ Hwf).
    unfold final_state. cbn [fst]. clear Hr Hack r node.
    revert nodes Hwf. induction sends as [|s sends IH]; intros nodes Hwf k r' H.
    + exists r'. now split.
    + cbn [after_cycles] in H.
      destruct (IH _ (after_cycle_well_formed s _ nodes Hwf) k r' H)
        as [r1 [H1 E1]].
      destruct (last_seen_after_cycle s _ k nodes r1 (proj1 Hwf) H1)
        as [r0 [H0 E0]].
      exists r0. split; [exact H0 | congruence].
Qed.

(** X5 (extra): misses count only when consecutive: after a pass the
    node acknowledged, two further missed passes leave it registered,
    with a counter of 2, whatever its counter was before. *)
Theorem acknowledgement_forgives_misses (nodes : registry time)
  (node : address) (r : node_record time)
  (ack miss1 miss2 : address -> string -> bool) :
  well_formed nodes ->
  lookup node nodes = Some r ->
  (forall message, ack node message = true) ->
  (forall message, miss1 node message = false) ->
  (forall message, miss2 node message = false) ->
  result (update_nodes [ack; miss1; miss2] nodes) = Return tt
  /\ lookup node (final_state (update_nodes [ack; miss1; miss2] nodes))
     = Some {| last_seen := last_seen r; missed_updates := 2 |}.
Proof.
  intros Hwf Hr Hack H1 H2.
  rewrite (update_nodes_run _ _ Hwf). unfold result, final_state.
  cbn [fst snd after_cycles]. split; [reflexivity|].
  set (n1 := after_cycle ack (listing_text (keys nodes)) nodes).
  set (n2 := after_cycle miss1 (listing_text (keys n1)) n1).
  assert (Hwf1 : well_formed n1) by now apply after_cycle_well_formed.
  assert (Hwf2 : well_formed n2) by now apply after_cycle_well_formed.
  pose proof (acknowledged_push ack node nodes r (proj1 Hwf) (Hack _) Hr) as L1.
  fold n1 in L1.
  pose proof (missed_push miss1 node n1 _ (proj1 Hwf1) H1 L1) as L2.
  fold n2 in L2. cbn in L2.
  rewrite (missed_push miss2 node n2 _ (proj1 Hwf2) H2 L2). reflexivity.
Qed.

(** A pass in which the node does not acknowledge the listing. *)
Lemma missed_listing (send_to_node : address -> string -> bool)
  (node : address) (nodes : registry time) (r : node_record time) :
  NoDup (keys nodes) ->
  send_to_node node (listing_text (keys nodes)) = false ->
  lookup node nodes = Some r ->
  lookup node (after_cycle send_to_node (listing_text (keys nodes)) nodes)
  = if (NODE_TIMEOUT <=? missed_updates r + 1)%nat then None
    else Some (set_missed (missed_updates r + 1) r).
Proof.
  intros Hnd Hfail Hr.
  rewrite (lookup_after_cycle _ _ _ _ Hnd), Hr.
  unfold after_push. rewrite Hfail.
  now destruct (NODE_TIMEOUT <=? missed_updates r + 1)%nat.
Qed.

(** Three passes in which nobody acknowledges a listing empty the
    registry. *)
Lemma silent_passes_empty_registry (s1 s2 s3 : address -> string -> bool)
  (nodes : registry time) :
  well_formed nodes ->
  (forall k ks, s1 k (listing_text ks) = false) ->
  (forall k ks, s2 k (listing_text ks) = false) ->
  (forall k ks, s3 k (listing_text ks) = false) ->
  after_cycles [s1; s2; s3] nodes = [].
Proof.
  intros Hwf H1 H2 H3.
  destruct (after_cycles [s1; s2; s3] nodes) as [|[k r] rest] eqn:Hafter;
    [reflexivity|].
  exfalso.
  assert (Hin : lookup k (after_cycles [s1; s2; s3] nodes) <> None).
  { rewrite Hafter. simpl. now destruct (address_eq_dec k k). }
  apply Hin. clear Hin Hafter. cbn [after_cycles].
  set (n1 := after_cycle s1 (listing_text (keys nodes)) nodes).
  set (n2 := after_cycle s2 (listing_text (keys n1)) n1).
  assert (Hwf1 : well_formed n1) by now apply after_cycle_well_formed.
  assert (Hwf2 : well_formed n2) by now apply after_cycle_well_formed.
  destruct (lookup k nodes) as [r0|] eqn:Hr.
  - pose proof (missed_listing s1 k nodes r0 (proj1 Hwf) (H1 k _) Hr) as L1.
    fold n1 in L1.
    destruct (NODE_TIMEOUT <=? missed_updates r0 + 1)%nat eqn:E1.
    + rewrite (absent_stays_absent s3 k n2 (proj1 Hwf2)); [reflexivity|].
      unfold n2. now apply absent_stays_absent; [apply Hwf1|].
    + pose proof (missed_listing s2 k n1 _ (proj1 Hwf1) (H2 k _) L1) as L2.
      fold n2 in L2. cbn [missed_updates set_missed] in L2.
      destruct (NODE_TIMEOUT <=? missed_updates r0 + 1 + 1)%nat eqn:E2.
      * now apply absent_stays_absent; [apply Hwf2|].
      * rewrite (missed_listing s3 k n2 _ (proj1 Hwf2) (H3 k _) L2).
        cbn [missed_updates set_missed].
        destruct (NODE_TIMEOUT <=? missed_updates r0 + 1 + 1 + 1)%nat eqn:E3;
          [reflexivity|].
        apply Nat.leb_gt in E3. unfold NODE_TIMEOUT in E3. lia.
  - rewrite (absent_stays_absent s3 k n2 (proj1 Hwf2)); [reflexivity|].
    unfold n2. apply absent_stays_absent; [apply Hwf1|].
    unfold n1. now apply absent_stays_absent; [apply Hwf|].
Qed.
End Counters.

(* ===================================================================== *)
(** * A membership push meets a file server *)
(* ===================================================================== *)

Section PushMeetsDispatcher.
Context {num : PyNum}.
Import FileServer Spec Spec2.
Local Open Scope list_scope.

(** What the dispatcher reads of a listing is no request it knows. *)
Lemma listing_is_no_request (rest : string) :
  is_known_request
    (Py.strip (recv1024 ("Peer-Node-Address-Listing" ++ rest)%string))
  = false.
Proof.
  unfold recv1024.
  rewrite (substring_prefix 1024 "Peer-Node-Address-Listing" rest)
    by (cbn; lia).
  unfold Py.strip.
  rewrite (lstrip_token "Peer-Node-Address-Listing" _ eq_refl).
  rewrite (rstrip_run_prefix "Peer-Node-Address-Listing" _ eq_refl).
  reflexivity.
Qed.

(** The dispatcher answers a listing with nothing. *)
Lemma listing_gets_no_reply {cfg : Config} (w : world) (ks : list (list string)) :
  served_reply w (listing_text ks) = ""%string.
Proof.
  unfold served_reply, handle_connection, handle_socket_request.
  run_steps.
  change (listing_text ks)
    with ("Peer-Node-Address-Listing"
            ++ (Py.nl ++ Py.join Py.nl (map (Py.join ":") ks) ++ Py.nl))%string.
  rewrite (dispatch_unknown w _ (listing_is_no_request _)).
  reflexivity.
Qed.

(** X6 (extra): a listing pushed to the address a file server
    registered reaches that server's peer dispatcher, which knows no
    such request and closes without writing a byte; so [send_to_node]
    returns [False] for every listing, whether a file server runs at
    the address or nothing does. *)
Theorem file_server_never_acknowledges_push
  (running : list string -> option (Config * world))
  (node : list string) (ks : list (list string)) :
  Wire.send_to_node (file_server_at running) node (listing_text ks) = false.
Proof.
  unfold Wire.send_to_node, file_server_at.
  destruct (running node) as [[cfg w]|]; [|reflexivity].
  now rewrite listing_gets_no_reply.
Qed.

(** X7 (extra): with file servers (or nothing) behind the registered
    addresses, three update passes complete and leave the registry
    empty, however many nodes were registered. *)
Theorem file_servers_are_all_evicted {time : Type}
  (running : list string -> option (Config * world))
  (nodes : Discovery.registry time) :
  well_formed nodes ->
  let send := Wire.send_to_node (file_server_at running) in
  result (Discovery.update_nodes [send; send; send] nodes) = Return tt
  /\ final_state (Discovery.update_nodes [send; send; send] nodes) = [].
Proof.
  intros Hwf send. rewrite (update_nodes_run _ _ Hwf).
  unfold result, final_state. cbn [fst snd]. split; [reflexivity|].
  apply silent_passes_empty_registry; [exact Hwf | | |];
    intros k ks; apply file_server_never_acknowledges_push.
Qed.
End PushMeetsDispatcher.

(* ===================================================================== *)
(** * The file server: storage paths, uploads and reads *)
(* ===================================================================== *)

Section StoragePaths.
Import FileServer.

Lemma append_cancel_l (a b c : string) : a ++ b = a ++ c -> b = c.
Proof.
  induction a as [|x a IH]; simpl; [auto|]. intros [= H]. auto.
Qed.

Lemma valid_has_no_slash (f : string) :
  validate_filename f = true -> Py.contains "/" f = false.
Proof.
  unfold validate_filename. rewrite !andb_true_iff, !negb_true_iff. tauto.
Qed.

Lemma valid_is_relative (f : string) :
  validate_filename f = true -> Py.startswith f "/" = false.
Proof.
  intros Hv. apply valid_has_no_slash in Hv.
  unfold Py.startswith. destruct f as [|c f]; [reflexivity|].
  cbn [Py.contains] in Hv. now apply orb_false_iff in Hv as [Hp _].
Qed.

(** X8 (extra): the path of a validated filename is the storage
    directory, a separator where one is needed, and the name itself,
    so two validated names never share a path; a name that starts
    with a slash, which validation rejects, would replace the storage
    directory altogether. *)
Theorem valid_filename_stays_in_storage (dir f : string) :
  (validate_filename f = true ->
   os_path_join dir f
   = dir ++ (if (dir =? "") || endswith dir "/" then "" else "/") ++ f
   /\ forall g, validate_filename g = true ->
                os_path_join dir f = os_path_join dir g -> f = g)
  /\ (Py.startswith f "/" = true ->
      os_path_join dir f = f /\ validate_filename f = false).
Proof.
  split.
  - intros Hf.
    assert (Hjoin : forall g, validate_filename g = true ->
              os_path_join dir g
              = dir ++ (if (dir =? "") || endswith dir "/" then "" else "/")
                    ++ g).
    { intros g Hg. unfold os_path_join. rewrite (valid_is_relative _ Hg).
      now destruct ((dir =? "") || endswith dir "/"). }
    split; [now apply Hjoin|].
    intros g Hg. rewrite (Hjoin f Hf), (Hjoin g Hg). intros H.
    now apply append_cancel_l in H; apply append_cancel_l in H.
  - intros Hs. split; [unfold os_path_join; now rewrite Hs|].
    destruct (validate_filename f) eqn:Hv; [|reflexivity].
    now rewrite (valid_is_relative _ Hv) in Hs.
Qed.
End StoragePaths.

Section Reads.
Context {num : PyNum} {cfg : Config}.
Import FileServer Spec Spec2.
Local Open Scope list_scope.

(** ** The local claim of a name without whitespace *)

Lemma local_claim_present (w : world) (filename : string) (f : file) :
  validate_filename filename = true ->
  is_token filename = true ->
  files w (os_path_join STORAGE filename) = Some f ->
  is_token (str_of_float (mtime f)) = true ->
  float_of_str (str_of_float (mtime f)) = Some (mtime f) ->
  local_claim filename w
  = (w, [FsExists (os_path_join STORAGE filename);
         FsGetmtime (os_path_join STORAGE filename)],
     Return {| latest := Some (claim_text filename (mtime f));
               latest_ts := mtime f; latest_node := None |}).
Proof.
  intros Hv Htok Hfile Hts Hround.
  unfold local_claim, float. run_steps.
  rewrite (get_timestamp_present filename w f Hv Hfile).
  change (Py.truthy (Some _)) with true. cbv iota. run_steps.
  change ("Last-Modified " ++ filename ++ " " ++ str_of_float (mtime f)
            ++ " " ++ own_address)%string
    with ("Last-Modified" ++ " " ++ filename ++ " " ++ str_of_float (mtime f)
            ++ " " ++ own_address)%string.
  rewrite (split_third_token "Last-Modified" filename _ own_address
             eq_refl Htok Hts).
  run_steps. rewrite Hround. reflexivity.
Qed.

Lemma local_claim_absent (w : world) (filename : string) :
  validate_filename filename = true ->
  files w (os_path_join STORAGE filename) = None ->
  dirs w (os_path_join STORAGE filename) = None ->
  local_claim filename w
  = (w, [FsExists (os_path_join STORAGE filename)],
     Return {| latest := None; latest_ts := float_zero;
               latest_node := None |}).
Proof.
  intros Hv Hfile Hdir. unfold local_claim. run_steps.
  now rewrite (get_timestamp_absent filename w Hv Hfile Hdir).
Qed.

(** The whole run of [latest_timestamp] over well-formed peers. *)
Lemma latest_timestamp_run (w : world) (filename : string) t0 st :
  local_claim filename w = (w, t0, Return st) ->
  forallb is_pair (NODES w) = true ->
  exists t,
    latest_timestamp filename w
    = (w, t,
       Return (latest (fold_left (visit w filename) (NODES w) st),
               latest_node (fold_left (visit w filename) (NODES w) st))).
Proof.
  intros Hlocal Hpairs.
  destruct (visit_all_pairs filename (NODES w) st w Hpairs) as [t Ht].
  unfold latest_timestamp, resolve. run_steps. rewrite Hlocal, Ht.
  eexists. reflexivity.
Qed.

(** Resolution queries peers for timestamps but never asks one for a
    file. *)
Lemma visit_peer_no_fetch (filename : string) (peer : list string)
  (st : resolution) (w : world) :
  existsb is_fetch (trace (visit_peer filename peer st w)) = false.
Proof.
  destruct peer as [|host [|port [|? ?]]]; try reflexivity.
  unfold visit_peer, query_peer, float, trace. run_steps.
  destruct (timestamp_peer w host port _) as [raw|]; [|reflexivity].
  destruct (Py.startswith _ _); [|reflexivity].
  destruct (Py.split _) as [|a [|b [|c [|d [|? ?]]]]]; try reflexivity.
  destruct (float_of_str c) as [t|]; [|reflexivity].
  destruct (float_gt t (latest_ts st)); reflexivity.
Qed.

Lemma for_each_visit_no_fetch (filename : string)
  (peers : list (list string)) (st : resolution) (w : world) :
  existsb is_fetch (trace (for_each (visit_peer filename) peers st w)) = false.
Proof.
  revert st w. induction peers as [|p peers IH]; intros st w; [reflexivity|].
  cbn [for_each]. unfold bind, trace.
  pose proof (visit_peer_no_fetch filename p st w) as Hp. unfold trace in Hp.
  destruct (visit_peer filename p st w) as [[w1 t1] [st1|e]]; cbn [fst snd] in *;
    [|exact Hp].
  pose proof (IH st1 w1) as Hrest. unfold trace in Hrest.
  destruct (for_each _ peers st1 w1) as [[w2 t2] o2]. cbn [fst snd] in *.
  now rewrite existsb_app, Hp, Hrest.
Qed.

Lemma local_claim_no_fetch (filename : string) (w : world) :
  existsb is_fetch (trace (local_claim filename w)) = false.
Proof.
  unfold local_claim, float, trace. run_steps.
  destruct (validate_filename filename) eqn:Hv.
  - destruct (files w (os_path_join STORAGE filename)) as [f|] eqn:Hf.
    + rewrite (get_timestamp_present _ _ _ Hv Hf).
      destruct (Py.truthy _); [|reflexivity].
      destruct (nth_error _ 2) as [field|]; run_steps; [|reflexivity].
      destruct (float_of_str field); reflexivity.
    + destruct (dirs w (os_path_join STORAGE filename)) as [d|] eqn:Hd.
      * rewrite (get_timestamp_directory _ _ _ Hv Hf Hd).
        destruct (Py.truthy _); [|reflexivity].
        destruct (nth_error _ 2) as [field|]; run_steps; [|reflexivity].
        destruct (float_of_str field); reflexivity.
      * now rewrite (get_timestamp_absent _ _ Hv Hf Hd).
  - now rewrite (get_timestamp_invalid _ _ Hv).
Qed.

Lemma latest_timestamp_no_fetch (filename : string) (w : world) :
  existsb is_fetch (trace (latest_timestamp filename w)) = false.
Proof.
  destruct (local_claim_peers filename w []) as [t [o [Hlocal _]]].
  assert (Ht : existsb is_fetch t = false).
  { pose proof (local_claim_no_fetch filename w) as H.
    now rewrite Hlocal in H. }
  unfold latest_timestamp, resolve, trace. run_steps. rewrite Hlocal.
  destruct o as [st|e]; [|exact Ht].
  pose proof (for_each_visit_no_fetch filename (NODES w) st w) as Hloop.
  unfold trace in Hloop.
  destruct (for_each _ (NODES w) st w) as [[w1 t1] [st1|e]];
    cbn [fst snd] in *; rewrite ?app_nil_r, existsb_app, Ht, Hloop;
    reflexivity.
Qed.
End Reads.

Section UploadAndRead.
Context {num : PyNum} {cfg : Config}.
Import FileServer Spec Spec2.
Local Open Scope list_scope.

(** X9 (extra): an upload under a valid name without whitespace,
    whose path the operating system lets the server open for writing
    (it is no directory, as the path of the valid name [.] is, and
    is not refused otherwise), answers 204, stores the bytes at the
    name's path stamped with the current time and leaves every other
    path alone; a read of that name right after, with no peer
    reporting a strictly newer copy, answers 200 with exactly the
    uploaded bytes and changes nothing. *)
Theorem upload_then_read_round_trip (w : world) (filename data : string) :
  validate_filename filename = true ->
  is_token filename = true ->
  open_wb_error w (os_path_join STORAGE filename) = None ->
  is_token (str_of_float (clock w)) = true ->
  float_of_str (str_of_float (clock w)) = Some (clock w) ->
  forallb is_pair (NODES w) = true ->
  (forall p c, In p (NODES w) -> peer_claim w filename p = Some c ->
               float_gt (snd (fst c)) (clock w) = false) ->
  let path := os_path_join STORAGE filename in
  let stored := final_state (save_file filename (Some data) w) in
  result (save_file filename (Some data) w) = Return (204, Text "")
  /\ files stored path = Some {| mtime := clock w; content := data |}
  /\ (forall p, p <> path -> files stored p = files w p)
  /\ result (get_file filename stored) = Return (200, Attachment path data)
  /\ final_state (get_file filename stored) = stored.
Proof.
  intros Hv Htok Hopen Hts Hround Hpairs Hnewer path stored.
  assert (Hsave : save_file filename (Some data) w
                  = (set_files
                       (fun p => if (p =? path)%string
                                 then Some {| mtime := clock w;
                                              content := data |}
                                 else files w p) w,
                     [FsWrite path data], Return (204, Text ""))).
  { unfold save_file, write_file. rewrite Hv. run_steps. rewrite Hopen.
    run_steps. reflexivity. }
  assert (Hstored : stored
                    = set_files
                        (fun p => if (p =? path)%string
                                  then Some {| mtime := clock w;
                                               content := data |}
                                  else files w p) w)
    by (unfold stored; now rewrite Hsave).
  assert (Hfile : files stored path
                  = Some {| mtime := clock w; content := data |}).
  { rewrite Hstored. cbn [files set_files]. now rewrite String.eqb_refl. }
  split; [now rewrite Hsave|]. split; [exact Hfile|]. split.
  { intros p Hp. rewrite Hstored. cbn [files set_files].
    apply String.eqb_neq in Hp. now rewrite Hp. }
  pose proof (local_claim_present stored filename _ Hv Htok Hfile Hts Hround)
    as Hlocal.
  cbn [mtime] in Hlocal.
  assert (Hpairs' : forallb is_pair (NODES stored) = true)
    by (rewrite Hstored; exact Hpairs).
  destruct (latest_timestamp_run stored filename _ _ Hlocal Hpairs')
    as [t Hrun].
  rewrite no_newer_claim in Hrun.
  2: { intros p c Hp Hc. cbn [latest_ts]. apply (Hnewer p c).
       - rewrite Hstored in Hp. exact Hp.
       - rewrite Hstored in Hc. exact Hc. }
  cbn [latest latest_node] in Hrun.
  assert (Hget : get_file filename stored
                 = (stored, t ++ [FsRead path],
                    Return (200, Attachment path data))).
  { unfold get_file, send_file, read_file. rewrite Hv. run_steps.
    rewrite Hrun. change (Py.truthy (Some (claim_text _ _))) with true.
    run_steps. fold path. rewrite Hfile. run_steps.
    rewrite ?app_nil_r. reflexivity. }
  rewrite Hget. split; reflexivity.
Qed.

(** X10 (extra): a read of a valid name whose path does not exist
    locally (neither as a regular file nor as a directory), when no
    peer reports a copy with a timestamp above zero, answers 404 and
    neither fetches nor writes. *)
Theorem read_of_unknown_file_is_404 (w : world) (filename : string) :
  validate_filename filename = true ->
  files w (os_path_join STORAGE filename) = None ->
  dirs w (os_path_join STORAGE filename) = None ->
  forallb is_pair (NODES w) = true ->
  (forall p c, In p (NODES w) -> peer_claim w filename p = Some c ->
               float_gt (snd (fst c)) float_zero = false) ->
  result (get_file filename w) = Return (404, Text "File not found")
  /\ final_state (get_file filename w) = w
  /\ existsb is_fetch (trace (get_file filename w)) = false.
Proof.
  intros Hv Hfile Hdir Hpairs Hnone.
  pose proof (local_claim_absent w filename Hv Hfile Hdir) as Hlocal.
  destruct (latest_timestamp_run w filename _ _ Hlocal Hpairs) as [t Hrun].
  assert (Ht : existsb is_fetch t = false).
  { pose proof (latest_timestamp_no_fetch filename w) as H.
    now rewrite Hrun in H. }
  rewrite no_newer_claim in Hrun by exact Hnone.
  cbn [latest latest_node] in Hrun.
  assert (Hget : get_file filename w
                 = (w, t ++ [FsExists (os_path_join STORAGE filename)],
                    Return (404, Text "File not found"))).
  { unfold get_file, os_path_exists. rewrite Hv. run_steps.
    rewrite Hrun. cbn [Py.truthy]. run_steps. rewrite Hfile, Hdir.
    run_steps. rewrite ?app_nil_r. reflexivity. }
  rewrite Hget. unfold result, final_state, trace. cbn [fst snd].
  split; [reflexivity|]. split; [reflexivity|].
  rewrite existsb_app, Ht. reflexivity.
Qed.
End UploadAndRead.

(* ===================================================================== *)
(** * The file server: fetches and protocol lines *)
(* ===================================================================== *)

Section FetchAndProtocol.
Context {num : PyNum} {cfg : Config}.
Import FileServer Spec Spec2.
Local Open Scope list_scope.

(** The read when resolution named a remote owner that answers. *)
Lemma fetch_run (w : world)
  (filename latest node host port data : string) (p : Z) (t : list event) :
  validate_filename filename = true ->
  open_wb_error w (os_path_join STORAGE filename) = None ->
  latest_timestamp filename w = (w, t, Return (Some latest, Some node)) ->
  latest <> ""%string -> node <> ""%string -> node <> own_address ->
  Py.split_on ":" node = [host; port] ->
  int_of_str port = Some p ->
  provision_peer w host p
    ("File-Provision-Request " ++ filename ++ Py.nl)%string = Some data ->
  get_file filename w
  = (set_files
       (fun q => if (q =? os_path_join STORAGE filename)%string
                 then Some {| mtime := clock w; content := data |}
                 else files w q) w,
     t ++ [ProvisionRequest host p
             ("File-Provision-Request " ++ filename ++ Py.nl)%string;
           FsWrite (os_path_join STORAGE filename) data;
           FsRead (os_path_join STORAGE filename)],
     Return (200, Attachment (os_path_join STORAGE filename) data)).
Proof.
  intros Hvalid Hopen Hlatest Hl Hn Hown Hsplit Hint Hdata.
  unfold get_file. rewrite Hvalid. run_steps. rewrite Hlatest.
  rewrite (truthy_nonempty _ Hl), (truthy_nonempty _ Hn). run_steps.
  apply String.eqb_neq in Hown. rewrite Hown. cbn [negb andb].
  rewrite Hsplit.
  unfold fetch_from, int, write_file, send_file, read_file. run_steps.
  rewrite Hint. run_steps. rewrite Hdata. run_steps. rewrite Hopen.
  run_steps. cbn [files set_files]. rewrite String.eqb_refl. run_steps.
  rewrite ?app_nil_r. reflexivity.
Qed.

(** X11 (extra): when resolution names a remote owner [host:port]
    with a numeric port, that owner answers the file request, and
    the operating system lets the server open the local path for
    writing (it is no directory, as the path of the valid name [.]
    is, and is not refused otherwise), the bytes the owner sent are
    written over the local file, stamped with the current time, and
    served with status 200, whatever the bytes are; no other file
    changes. *)
Theorem fetched_copy_replaces_local_file (w : world)
  (filename latest node host port data : string) (p : Z) (t : list event) :
  validate_filename filename = true ->
  open_wb_error w (os_path_join STORAGE filename) = None ->
  latest_timestamp filename w = (w, t, Return (Some latest, Some node)) ->
  latest <> ""%string -> node <> ""%string -> node <> own_address ->
  Py.split_on ":" node = [host; port] ->
  int_of_str port = Some p ->
  provision_peer w host p
    ("File-Provision-Request " ++ filename ++ Py.nl)%string = Some data ->
  let path := os_path_join STORAGE filename in
  result (get_file filename w) = Return (200, Attachment path data)
  /\ files (final_state (get_file filename w)) path
     = Some {| mtime := clock w; content := data |}
  /\ (forall q, q <> path ->
                files (final_state (get_file filename w)) q = files w q)
  /\ trace (get_file filename w)
     = t ++ [ProvisionRequest host p
               ("File-Provision-Request " ++ filename ++ Py.nl)%string;
             FsWrite path data; FsRead path].
Proof.
  intros Hvalid Hopen Hlatest Hl Hn Hown Hsplit Hint Hdata path.
  rewrite (fetch_run w filename latest node host port data p t
             Hvalid Hopen Hlatest Hl Hn Hown Hsplit Hint Hdata).
  unfold result, final_state, trace. cbn [fst snd files set_files].
  split; [reflexivity|]. split; [unfold path; now rewrite String.eqb_refl|].
  split; [|reflexivity].
  intros q Hq. apply String.eqb_neq in Hq. fold path. now rewrite Hq.
Qed.

(** X17 (extra): when resolution names an owner other than the node
    itself whose text does not split at a colon into exactly a host
    and a port, the read raises [ValueError] before any fetch and
    before touching the local file: the error is not turned into the
    download-error answer. *)
Theorem malformed_owner_aborts_the_read (w : world)
  (filename latest node : string) (t : list event) :
  validate_filename filename = true ->
  latest_timestamp filename w = (w, t, Return (Some latest, Some node)) ->
  latest <> ""%string -> node <> ""%string -> node <> own_address ->
  is_pair (Py.split_on ":" node) = false ->
  get_file filename w = (w, t, Raise ValueError).
Proof.
  intros Hvalid Hlatest Hl Hn Hown Hsplit.
  unfold get_file. rewrite Hvalid. run_steps. rewrite Hlatest.
  rewrite (truthy_nonempty _ Hl), (truthy_nonempty _ Hn). run_steps.
  apply String.eqb_neq in Hown. rewrite Hown. cbn [negb andb].
  destruct (Py.split_on ":" node) as [|a [|b [|c ?]]]; try discriminate;
    run_steps; rewrite ?app_nil_r; reflexivity.
Qed.

(** X20 (extra): a write the operating system refuses.  When the
    path of a valid name cannot be opened for writing (it is a
    directory, as the path of the valid name [.] is, or the system
    refuses it), an upload raises that error out of [save_file], so
    that the web framework answers 500, and a copy fetched from a
    remote owner is answered with the download error, status 500; in
    both cases nothing is written and the state is left as it was. *)
Theorem refused_write_changes_nothing (w : world) (filename : string)
  (e : exn) :
  validate_filename filename = true ->
  open_wb_error w (os_path_join STORAGE filename) = Some e ->
  (forall data,
      save_file filename (Some data) w = (w, [], Raise e)
      /\ serve_http (save_file filename (Some data)) w
         = (w, [], Return (500, Text "Internal Server Error")))
  /\ (forall (latest node host port data : string) (p : Z)
             (t : list event),
         latest_timestamp filename w
         = (w, t, Return (Some latest, Some node)) ->
         latest <> ""%string -> node <> ""%string -> node <> own_address ->
         Py.split_on ":" node = [host; port] ->
         int_of_str port = Some p ->
         provision_peer w host p
           ("File-Provision-Request " ++ filename ++ Py.nl)%string
         = Some data ->
         get_file filename w
         = (w,
            t ++ [ProvisionRequest host p
                    ("File-Provision-Request " ++ filename ++ Py.nl)%string],
            Return (500, ErrorDownloading e))).
Proof.
  intros Hvalid Hopen. split.
  - intros data.
    assert (Hsave : save_file filename (Some data) w = (w, [], Raise e)).
    { unfold save_file, write_file. rewrite Hvalid. run_steps.
      now rewrite Hopen. }
    split; [exact Hsave|].
    unfold serve_http, try_except. now rewrite Hsave.
  - intros latest node host port data p t Hlatest Hl Hn Hown Hsplit Hint
      Hdata.
    unfold get_file. rewrite Hvalid. run_steps. rewrite Hlatest.
    rewrite (truthy_nonempty _ Hl), (truthy_nonempty _ Hn). run_steps.
    apply String.eqb_neq in Hown. rewrite Hown. cbn [negb andb].
    rewrite Hsplit.
    unfold fetch_from, int, write_file, send_file, read_file. run_steps.
    rewrite Hint. run_steps. rewrite Hdata. run_steps. rewrite Hopen.
    run_steps. rewrite ?app_nil_r. reflexivity.
Qed.

(** X13 (extra): a timestamp query or a file request that names no
    file ([Last-Modified-Check] or [File-Provision-Request] with
    nothing after it) touches no file and is answered with the error
    sentinel. *)
Theorem request_without_a_name_gets_the_sentinel (w : world) (data : string) :
  conn_open w = true ->
  Py.startswith data "Last-Modified-Check" = true
  \/ Py.startswith data "File-Provision-Request" = true ->
  nth_error (Py.split data) 1 = None ->
  handle_socket_request data w
  = (w, [LogError IndexError; ConnSend "Error processing request"], Return tt).
Proof.
  intros Hopen Hcmd Hone.
  unfold handle_socket_request, dispatch, sendall. run_steps.
  destruct (Py.startswith data "Last-Modified-Check").
  - rewrite Hone. run_steps. now rewrite Hopen.
  - destruct Hcmd as [Hcmd|Hcmd]; [discriminate|]. rewrite Hcmd, Hone.
    run_steps. now rewrite Hopen.
Qed.

(** X21 (extra): a file request that names a directory (the valid
    name [.] names the storage directory itself) passes the
    existence check, fails at the read with [IsADirectoryError], and
    is answered with the error sentinel; a timestamp query for it is
    answered with a claim that carries the directory's modification
    time. *)
Theorem request_for_a_directory (w : world) (name : string)
  (d : directory) :
  is_token name = true ->
  files w (os_path_join STORAGE name) = None ->
  dirs w (os_path_join STORAGE name) = Some d ->
  conn_open w = true ->
  handle_connection
    (Some ("File-Provision-Request " ++ name ++ Py.nl)%string) w
  = (w,
     [FsExists (os_path_join STORAGE name);
      FsRead (os_path_join STORAGE name);
      LogError IsADirectoryError;
      ConnSend "Error processing request"; ConnClose],
     Return tt)
  /\ (validate_filename name = true ->
      handle_connection
        (Some ("Last-Modified-Check " ++ name ++ Py.nl)%string) w
      = (w,
         [FsExists (os_path_join STORAGE name);
          FsGetmtime (os_path_join STORAGE name);
          ConnSend ("Last-Modified " ++ name ++ " "
                      ++ str_of_float (dir_mtime d) ++ " "
                      ++ own_address)%string;
          ConnClose],
         Return tt)).
Proof.
  intros Htok Hfile Hdir Hopen. split.
  - destruct (request_line_parse "File-Provision-Request" name eq_refl Htok)
      as [Hstrip Hsplit].
    cbn [append] in Hstrip, Hsplit.
    unfold handle_connection, handle_socket_request, dispatch. run_steps.
    cbn [append]. rewrite Hstrip.
    change (Py.startswith _ "Last-Modified-Check") with false.
    change (Py.startswith _ "File-Provision-Request") with true. cbv iota.
    rewrite Hsplit. cbn [nth_error]. run_steps.
    unfold os_path_exists, read_file, sendall. run_steps.
    rewrite Hfile, Hdir. run_steps. rewrite Hfile, Hdir. run_steps.
    rewrite Hopen. reflexivity.
  - intros Hvalid.
    destruct (request_line_parse "Last-Modified-Check" name eq_refl Htok)
      as [Hstrip Hsplit].
    cbn [append] in Hstrip, Hsplit.
    unfold handle_connection, handle_socket_request, dispatch, sendall.
    run_steps. cbn [append]. rewrite Hstrip.
    change (Py.startswith _ "Last-Modified-Check") with true. cbv iota.
    rewrite Hsplit. cbn [nth_error]. run_steps.
    rewrite (get_timestamp_directory _ _ _ Hvalid Hfile Hdir).
    change (Py.truthy (Some _)) with true. cbv iota. run_steps.
    rewrite Hopen. reflexivity.
Qed.

(** X14 (extra): [join_discovery_service] retries for as long as a
    round raises, sending its Join in exactly the rounds whose
    connection is made (a round that fails at
    [socket.create_connection] sends nothing); the first reply that
    is read ends the loop, replacing the peer list when it is a
    listing and leaving it untouched when it is anything else, an
    empty reply included. *)
Theorem join_retries_until_a_reply (w : world)
  (failures : list (option (option string)))
  (raw : string) (later : list (option (option string))) :
  forallb round_failed failures = true ->
  join_discovery_service (failures ++ Some (Some raw) :: later) w
  = (if Py.startswith (Py.strip raw) "Peer-Node-Address-Listing"
     then set_NODES (parse_listing (Py.strip raw)) w else w,
     repeat (DiscoveryJoin
               ("Join-Discovery-Service " ++ own_address ++ Py.nl)%string)
       (S (length (filter round_connected failures))),
     Return tt).
Proof.
  induction failures as [|c failures IH]; intros Hfailed.
  - cbn [app join_discovery_service]. unfold join_round. run_steps.
    destruct (Py.startswith (Py.strip raw) "Peer-Node-Address-Listing");
      run_steps; reflexivity.
  - cbn [forallb] in Hfailed. apply andb_true_iff in Hfailed.
    destruct Hfailed as [Hc Hrest].
    cbn [app join_discovery_service]. unfold bind at 1.
    destruct c as [[reply|]|]; [discriminate Hc| |].
    + change (join_round (Some None) w)
        with (w, [DiscoveryJoin
                    ("Join-Discovery-Service " ++ own_address
                       ++ Py.nl)%string], Return false).
      cbv iota. rewrite (IH Hrest). reflexivity.
    + change (join_round None w) with (w, @nil event, Return false).
      cbv iota. rewrite (IH Hrest). reflexivity.
Qed.
End FetchAndProtocol.

(* ===================================================================== *)
(** * Round trips over the wire *)
(* ===================================================================== *)

Section ClaimRoundTrip.
Context {num : PyNum} {cfg : Config}.
Import FileServer Spec Spec2.
Local Open Scope list_scope.

Lemma valid_is_short (f : string) :
  validate_filename f = true -> String.length f < 255.
Proof.
  unfold validate_filename. rewrite !andb_true_iff, Nat.ltb_lt. tauto.
Qed.

Lemma query_fits_one_read (filename : string) :
  validate_filename filename = true ->
  recv1024 ("Last-Modified-Check " ++ filename ++ Py.nl)%string
  = ("Last-Modified-Check " ++ filename ++ Py.nl)%string.
Proof.
  intros Hv. apply recv1024_whole. rewrite !length_append.
  pose proof (valid_is_short _ Hv). cbn. lia.
Qed.

(** The dispatcher's answer to a timestamp query for a stored file. *)
Lemma served_claim (server : world) (filename : string) (f : file) :
  validate_filename filename = true ->
  is_token filename = true ->
  conn_open server = true ->
  files server (os_path_join STORAGE filename) = Some f ->
  String.length (claim_text filename (mtime f)) <= 1024 ->
  served_reply server ("Last-Modified-Check " ++ filename ++ Py.nl)%string
  = claim_text filename (mtime f).
Proof.
  intros Hv Htok Hopen Hfile Hlen.
  destruct (request_line_parse "Last-Modified-Check" filename eq_refl Htok)
    as [Hstrip Hsplit].
  cbn [append] in Hstrip, Hsplit.
  unfold served_reply. rewrite (query_fits_one_read _ Hv).
  unfold handle_connection, handle_socket_request, dispatch, sendall.
  run_steps. cbn [append]. rewrite Hstrip.
  change (Py.startswith _ "Last-Modified-Check") with true. cbv iota.
  rewrite Hsplit. cbn [nth_error]. run_steps.
  rewrite (get_timestamp_present _ _ _ Hv Hfile).
  change (Py.truthy (Some _)) with true. cbv iota. run_steps.
  rewrite Hopen. run_steps.
  unfold trace, sent_bytes. cbn [fst snd flat_map app String.concat].
  now apply recv1024_whole.
Qed.

(** The dispatcher's answer when the file is not stored (or the name
    is invalid). *)
Lemma served_not_found (server : world) (filename : string) :
  validate_filename filename = true ->
  is_token filename = true ->
  conn_open server = true ->
  files server (os_path_join STORAGE filename) = None ->
  dirs server (os_path_join STORAGE filename) = None ->
  served_reply server ("Last-Modified-Check " ++ filename ++ Py.nl)%string
  = "File not found"%string.
Proof.
  intros Hv Htok Hopen Hfile Hdir.
  destruct (request_line_parse "Last-Modified-Check" filename eq_refl Htok)
    as [Hstrip Hsplit].
  cbn [append] in Hstrip, Hsplit.
  unfold served_reply. rewrite (query_fits_one_read _ Hv).
  unfold handle_connection, handle_socket_request, dispatch, sendall.
  run_steps. cbn [append]. rewrite Hstrip.
  change (Py.startswith _ "Last-Modified-Check") with true. cbv iota.
  rewrite Hsplit. cbn [nth_error]. run_steps.
  rewrite (get_timestamp_absent _ _ Hv Hfile Hdir). run_steps.
  rewrite Hopen. reflexivity.
Qed.

Lemma strip_claim (filename : string) (t : pyfloat) :
  is_token own_address = true ->
  Py.strip (claim_text filename t) = claim_text filename t.
Proof.
  intros Hown. unfold claim_text, Py.strip.
  change ("Last-Modified " ++ filename ++ " " ++ str_of_float t ++ " "
            ++ own_address)%string
    with ("Last-Modified" ++ " " ++ filename ++ " " ++ str_of_float t ++ " "
            ++ own_address)%string.
  rewrite (lstrip_token "Last-Modified" _ eq_refl).
  rewrite <- !append_assoc. now apply rstrip_token.
Qed.

(** A served claim, read by the asking node. *)
Lemma claim_reads_back (server client : world)
  (host port filename : string) (f : file) :
  validate_filename filename = true ->
  is_token filename = true ->
  conn_open server = true ->
  timestamp_peer client host port
    ("Last-Modified-Check " ++ filename ++ Py.nl)%string
  = Some (served_reply server
            ("Last-Modified-Check " ++ filename ++ Py.nl)%string) ->
  files server (os_path_join STORAGE filename) = Some f ->
  is_token (str_of_float (mtime f)) = true ->
  is_token own_address = true ->
  float_of_str (str_of_float (mtime f)) = Some (mtime f) ->
  String.length (claim_text filename (mtime f)) <= 1024 ->
  peer_claim client filename [host; port]
  = Some (claim_text filename (mtime f), mtime f, own_address).
Proof.
  intros Hv Htok Hopen Hwire Hfile Hts Hown Hround Hlen.
  unfold peer_claim. rewrite Hwire.
  rewrite (served_claim server filename f Hv Htok Hopen Hfile Hlen).
  rewrite (strip_claim filename (mtime f) Hown).
  assert (Hsplit : Py.split (claim_text filename (mtime f))
                   = ["Last-Modified"%string; filename;
                      str_of_float (mtime f); own_address])
    by (apply (split_four_tokens "Last-Modified" filename _ _
                 eq_refl Htok Hts Hown)).
  change (Py.startswith (claim_text filename (mtime f)) "Last-Modified")
    with true. cbv iota.
  rewrite Hsplit, Hround. reflexivity.
Qed.

(** X12 (extra): the timestamp exchange between two nodes round
    trips.  For a valid name without whitespace, a server whose
    claim text is made of whitespace-free fields, parses back and
    fits one read answers a query for a stored file with a line the
    asking node reads as exactly that file's timestamp and the
    server's own address; for a name whose path does not exist on
    the server (neither as a regular file nor as a directory) it
    answers the not-found sentinel, which the asking node reads as no
    claim. *)
Theorem timestamp_claim_round_trip (server client : world)
  (host port filename : string) :
  validate_filename filename = true ->
  is_token filename = true ->
  conn_open server = true ->
  timestamp_peer client host port
    ("Last-Modified-Check " ++ filename ++ Py.nl)%string
  = Some (served_reply server
            ("Last-Modified-Check " ++ filename ++ Py.nl)%string) ->
  (forall f,
      files server (os_path_join STORAGE filename) = Some f ->
      is_token (str_of_float (mtime f)) = true ->
      is_token own_address = true ->
      float_of_str (str_of_float (mtime f)) = Some (mtime f) ->
      String.length (claim_text filename (mtime f)) <= 1024 ->
      peer_claim client filename [host; port]
      = Some (claim_text filename (mtime f), mtime f, own_address))
  /\ (files server (os_path_join STORAGE filename) = None ->
      dirs server (os_path_join STORAGE filename) = None ->
      peer_claim client filename [host; port] = None).
Proof.
  intros Hv Htok Hopen Hwire. split.
  - intros f Hfile Hts Hown Hround Hlen.
    now apply (claim_reads_back server client host port filename f).
  - intros Hfile Hdir. unfold peer_claim. rewrite Hwire.
    now rewrite (served_not_found server filename Hv Htok Hopen Hfile Hdir).
Qed.
End ClaimRoundTrip.

Section ListingRoundTrip.
Import FileServer Spec Spec2.
Local Open Scope list_scope.






End ListingRoundTrip.

Section JoinRoundTrip.
Context {num : PyNum} {cfg : Config} {time : Type}.
Import FileServer Spec Spec2.
Local Open Scope list_scope.



End JoinRoundTrip.

Section ListenerFacts.
Context {num : PyNum} {cfg : Config}.
Import FileServer Spec Spec2 Listener.
Local Open Scope list_scope.

Lemma listing_read_is_not_empty (raw : string) :
  Py.startswith (Py.strip raw) "Peer-Node-Address-Listing" = true ->
  (Py.strip raw =? "")%string = false.
Proof. destruct (Py.strip raw); [discriminate | reflexivity]. Qed.

(** X16 (extra): on the listener's connection, after any reads that
    keep it going, a listing that is read replaces the cached peer
    list wholesale with the addresses it parses to, whatever the list
    held and whatever earlier listings said, is acknowledged with
    [OK], and leaves the files alone. *)
Theorem listener_replaces_peer_list (w : world)
  (reads : list (option string)) (raw : string) :
  forallb keeps_listening reads = true ->
  Py.startswith (Py.strip raw) "Peer-Node-Address-Listing" = true ->
  let run := listen true (reads ++ [Some raw]) w in
  result run = Return tt
  /\ NODES (final_state run) = parse_listing (Py.strip raw)
  /\ files (final_state run) = files w
  /\ exists t, trace run = t ++ [Ack ("OK" ++ Py.nl)%string].
Proof.
  intros Hreads Hlisting. cbv zeta. revert w Hreads.
  induction reads as [|read reads IH]; intros w Hreads.
  - cbn [app listen]. run_steps.
    rewrite (listing_read_is_not_empty _ Hlisting), Hlisting. run_steps.
    unfold result, final_state, trace. cbn [fst snd NODES files set_NODES].
    repeat split. now exists [].
  - cbn [forallb] in Hreads. apply andb_true_iff in Hreads as [Hread Hreads].
    destruct read as [r|]; [|discriminate].
    cbn [keeps_listening] in Hread. apply negb_true_iff in Hread.
    cbn [app listen]. run_steps. rewrite Hread.
    destruct (Py.startswith (Py.strip r) "Peer-Node-Address-Listing");
      run_steps.
    + specialize (IH (set_NODES (parse_listing (Py.strip r)) w) Hreads).
      destruct (listen true (reads ++ [Some raw]) _) as [[w1 t1] o1].
      unfold result, final_state, trace in *. cbn [fst snd] in *.
      destruct IH as [-> [HN [HF [t Ht]]]].
      split; [reflexivity|]. split; [exact HN|]. split; [exact HF|].
      exists (Ack ("OK" ++ Py.nl)%string :: t). now rewrite Ht.
    + specialize (IH w Hreads).
      destruct (listen true (reads ++ [Some raw]) w) as [[w1 t1] o1].
      unfold result, final_state, trace in *. cbn [fst snd] in *.
      destruct IH as [-> [HN [HF [t Ht]]]].
      split; [reflexivity|]. split; [exact HN|]. split; [exact HF|].
      exists t. exact Ht.
Qed.
End ListenerFacts.

(* ===================================================================== *)
(** * A read that replicates a peer's copy *)
(* ===================================================================== *)

Section Replication.
Context {num : PyNum}.
Import FileServer Spec Spec2.
Local Open Scope list_scope.





End Replication.

(* ===================================================================== *)
(** * The peer connection handler on any input *)
(* ===================================================================== *)

Section HandlerAnyInput.
Context {num : PyNum} {cfg : Config}.
Import FileServer Spec Spec2.
Local Open Scope list_scope.

Ltac split_cases :=
  repeat match goal with
         | |- context [match ?x with _ => _ end] =>
             lazymatch x with
             | context [match _ with _ => _ end] => fail
             | _ => destruct x eqn:?
             end; run_steps
         end.

(** X19 (extra): whatever arrives on a peer connection, and whether
    or not the connection still accepts data, [handle_connection]
    returns normally, leaves the node's state (files and peer list)
    as it was, sends at most one reply, and closes the connection
    last. *)
Theorem peer_connection_is_read_only (received : option string) (w : world) :
  result (handle_connection received w) = Return tt
  /\ final_state (handle_connection received w) = w
  /\ length (filter is_send (trace (handle_connection received w))) <= 1
  /\ exists t, trace (handle_connection received w) = t ++ [ConnClose].
Proof.
  unfold handle_connection, handle_socket_request, dispatch, get_timestamp,
    os_path_exists, os_path_getmtime, read_file, os_listdir, sendall,
    result, final_state, trace.
  run_steps. split_cases.
  all: cbn [fst snd filter is_send length app].
  all: repeat split; try lia.
  all: first [ now exists [] | now eexists [_] | now eexists [_; _]
             | now eexists [_; _; _] | now eexists [_; _; _; _] ].
Qed.
End HandlerAnyInput.

(* ===================================================================== *)
(** * More theorems at concrete inputs *)
(* ===================================================================== *)

Section MoreWitnesses.
Import FileServer Spec Spec2 Example Example2.
Local Open Scope list_scope.
#[local] Existing Instance WholeSeconds.num.

Lemma two_nodes_well_formed : well_formed two_nodes.
Proof.
  split; [|reflexivity].
  apply NoDup_cons; [simpl; intros [H|[]]; discriminate H|].
  apply NoDup_cons; [simpl; intros []|apply NoDup_nil].
Qed.

Lemma malformed_key_stops_the_service_witness :
  is_token "localhost" = true
  /\ Discovery.handle_node_registration
       (Some ("Join-Discovery-Service localhost" ++ Py.nl)%string) true 0%N []
     = (poisoned, [Discovery.Print ValueError; Discovery.Close], Return tt)
  /\ forallb is_pair (Discovery.keys poisoned) = false
  /\ Discovery.update_cycle all_up poisoned = (poisoned, [], Raise ValueError).
Proof.
  split; [reflexivity|]. split; [|split; [reflexivity|]].
  - exact (proj1 (malformed_key_stops_the_service (time := N))
             [] "localhost" 0%N eq_refl eq_refl (fun H => H)).
  - exact (proj1 (proj2 (malformed_key_stops_the_service (time := N)))
             poisoned all_up eq_refl).
Defined.

Lemma acknowledged_push_resets_counter_witness :
  well_formed two_nodes
  /\ Discovery.lookup addr_a two_nodes
     = Some {| Discovery.last_seen := 0%N; Discovery.missed_updates := 0 |}
  /\ b_is_down addr_a (listing_text (Discovery.keys two_nodes)) = true
  /\ Discovery.lookup addr_a
       (final_state (Discovery.update_cycle b_is_down two_nodes))
     = Some {| Discovery.last_seen := 0%N; Discovery.missed_updates := 0 |}.
Proof.
  split; [exact two_nodes_well_formed|]. split; [reflexivity|].
  split; [reflexivity|].
  exact (proj1 (acknowledged_push_resets_counter two_nodes addr_a
                  {| Discovery.last_seen := 0%N;
                     Discovery.missed_updates := 0 |}
                  b_is_down two_nodes_well_formed eq_refl eq_refl)).
Defined.

Lemma acknowledgement_forgives_misses_witness :
  well_formed two_nodes
  /\ (forall message, all_up addr_b message = true)
  /\ (forall message, b_is_down addr_b message = false)
  /\ Discovery.lookup addr_b
       (final_state
          (Discovery.update_nodes [all_up; b_is_down; b_is_down] two_nodes))
     = Some {| Discovery.last_seen := 0%N; Discovery.missed_updates := 2 |}.
Proof.
  split; [exact two_nodes_well_formed|].
  split; [intros message; reflexivity|].
  split; [intros message; reflexivity|].
  exact (proj2 (acknowledgement_forgives_misses two_nodes addr_b
                  {| Discovery.last_seen := 0%N;
                     Discovery.missed_updates := 0 |}
                  all_up b_is_down b_is_down two_nodes_well_formed eq_refl
                  (fun _ => eq_refl) (fun _ => eq_refl) (fun _ => eq_refl))).
Defined.

Lemma file_servers_are_all_evicted_witness :
  well_formed two_nodes
  /\ final_state
       (Discovery.update_nodes
          [Wire.send_to_node (file_server_at running);
           Wire.send_to_node (file_server_at running);
           Wire.send_to_node (file_server_at running)] two_nodes)
     = [].
Proof.
  split; [exact two_nodes_well_formed|].
  exact (proj2 (file_servers_are_all_evicted running two_nodes
                  two_nodes_well_formed)).
Defined.

Lemma valid_filename_stays_in_storage_witness :
  validate_filename "notes.txt" = true
  /\ os_path_join "storage" "notes.txt" = "storage/notes.txt"%string.
Proof.
  split; [reflexivity|].
  exact (proj1 (proj1 (valid_filename_stays_in_storage "storage" "notes.txt")
                  eq_refl)).
Defined.

Lemma upload_then_read_round_trip_witness :
  validate_filename "notes.txt" = true
  /\ is_token "notes.txt" = true
  /\ open_wb_error replicating_a (os_path_join "storage" "notes.txt") = None
  /\ forallb is_pair (NODES replicating_a) = true
  /\ peer_claim replicating_a "notes.txt" addr_b
     = Some ("Last-Modified notes.txt 500.0 10.0.0.2:6000"%string, 500%N,
             "10.0.0.2:6000"%string)
  /\ result (get_file (cfg := node_a) "notes.txt"
               (final_state (save_file (cfg := node_a) "notes.txt"
                               (Some "mine"%string) replicating_a)))
     = Return (200, Attachment "storage/notes.txt" "mine").
Proof.
  split; [reflexivity|]. split; [reflexivity|]. split; [reflexivity|].
  split; [reflexivity|]. split; [vm_compute; reflexivity|].
  refine (proj1 (proj2 (proj2 (proj2
            (upload_then_read_round_trip (cfg := node_a) replicating_a
               "notes.txt" "mine" eq_refl eq_refl eq_refl eq_refl eq_refl
               eq_refl _))))).
  intros p c [<-|[]] H. vm_compute in H. injection H as <-. reflexivity.
Defined.

Lemma read_of_unknown_file_is_404_witness :
  validate_filename "notes.txt" = true
  /\ files asking_for_unknown (os_path_join "storage" "notes.txt") = None
  /\ dirs asking_for_unknown (os_path_join "storage" "notes.txt") = None
  /\ NODES asking_for_unknown = [addr_b]
  /\ result (get_file (cfg := node_a) "notes.txt" asking_for_unknown)
     = Return (404, Text "File not found").
Proof.
  split; [reflexivity|]. split; [reflexivity|]. split; [reflexivity|].
  split; [reflexivity|].
  refine (proj1 (read_of_unknown_file_is_404 (cfg := node_a)
                   asking_for_unknown "notes.txt" eq_refl eq_refl eq_refl
                   eq_refl _)).
  intros p c [<-|[]] H. vm_compute in H. discriminate H.
Defined.

Lemma fetched_copy_replaces_local_file_witness :
  latest_timestamp (cfg := node_a) "notes.txt" replicating_a
  = (replicating_a,
     [FsExists "storage/notes.txt";
      TimestampQuery "10.0.0.2" "6000"
        ("Last-Modified-Check notes.txt" ++ Py.nl)%string],
     Return (Some "Last-Modified notes.txt 500.0 10.0.0.2:6000"%string,
             Some "10.0.0.2:6000"%string))
  /\ files (final_state (get_file (cfg := node_a) "notes.txt" replicating_a))
       "storage/notes.txt"
     = Some {| mtime := 900%N; content := "from b" |}.
Proof.
  assert (Hlatest :
    latest_timestamp (cfg := node_a) "notes.txt" replicating_a
    = (replicating_a,
       [FsExists "storage/notes.txt";
        TimestampQuery "10.0.0.2" "6000"
          ("Last-Modified-Check notes.txt" ++ Py.nl)%string],
       Return (Some "Last-Modified notes.txt 500.0 10.0.0.2:6000"%string,
               Some "10.0.0.2:6000"%string)))
    by reflexivity.
  split; [exact Hlatest|].
  refine (proj1 (proj2
            (fetched_copy_replaces_local_file (cfg := node_a) replicating_a
               "notes.txt" "Last-Modified notes.txt 500.0 10.0.0.2:6000"
               "10.0.0.2:6000" "10.0.0.2" "6000" "from b" 6000%Z _
               eq_refl eq_refl Hlatest _ _ _ _ _ _)));
    try discriminate; reflexivity.
Defined.

Lemma malformed_owner_aborts_the_read_witness :
  is_pair (Py.split_on ":" "10.0.0.2") = false
  /\ get_file (cfg := node_a) "notes.txt" owner_without_port
     = (owner_without_port,
        [FsExists "storage/notes.txt";
         TimestampQuery "10.0.0.2" "6000"
           ("Last-Modified-Check notes.txt" ++ Py.nl)%string],
        Raise ValueError).
Proof.
  split; [reflexivity|].
  refine (malformed_owner_aborts_the_read (cfg := node_a) owner_without_port
            "notes.txt" "Last-Modified notes.txt 500.0 10.0.0.2" "10.0.0.2"
            _ eq_refl _ _ _ _ _);
    try discriminate; vm_compute; reflexivity.
Defined.

Lemma timestamp_claim_round_trip_witness :
  validate_filename "notes.txt" = true
  /\ conn_open notes_on_b = true
  /\ files notes_on_b (os_path_join "storage" "notes.txt")
     = Some {| mtime := 500%N; content := "from b" |}
  /\ peer_claim asking_b "notes.txt" ["10.0.0.2"; "6000"]
     = Some (claim_text (cfg := node_b) "notes.txt" 500%N, 500%N,
             own_address (cfg := node_b)).
Proof.
  split; [reflexivity|]. split; [reflexivity|]. split; [reflexivity|].
  refine (proj1 (timestamp_claim_round_trip (cfg := node_b) notes_on_b
                   asking_b "10.0.0.2" "6000" "notes.txt"
                   eq_refl eq_refl eq_refl _)
            {| mtime := 500%N; content := "from b" |}
            eq_refl eq_refl eq_refl eq_refl _).
  - vm_compute; reflexivity.
  - apply Nat.leb_le. vm_compute. reflexivity.
Defined.

Lemma request_without_a_name_gets_the_sentinel_witness :
  conn_open notes_on_b = true
  /\ nth_error (Py.split "File-Provision-Request") 1 = None
  /\ handle_socket_request (cfg := node_b) "File-Provision-Request" notes_on_b
     = (notes_on_b,
        [LogError IndexError; ConnSend "Error processing request"],
        Return tt).
Proof.
  split; [reflexivity|]. split; [reflexivity|].
  exact (request_without_a_name_gets_the_sentinel (cfg := node_b) notes_on_b
           "File-Provision-Request" eq_refl (or_intror eq_refl) eq_refl).
Defined.


Lemma listener_replaces_peer_list_witness :
  forallb keeps_listening [Some "hello"%string] = true
  /\ Py.startswith (Py.strip (listing_text [addr_b; addr_c]))
       "Peer-Node-Address-Listing" = true
  /\ NODES (final_state
              (Listener.listen true
                 ([Some "hello"%string]
                    ++ [Some (listing_text [addr_b; addr_c])]) asking_b))
     = parse_listing (Py.strip (listing_text [addr_b; addr_c])).
Proof.
  split; [reflexivity|]. split; [reflexivity|].
  exact (proj1 (proj2 (listener_replaces_peer_list asking_b
                         [Some "hello"%string]
                         (listing_text [addr_b; addr_c])
                         eq_refl eq_refl))).
Defined.

Lemma join_retries_until_a_reply_witness :
  forallb round_failed [None; Some None; None] = true
  /\ join_discovery_service (cfg := node_a)
       ([None; Some None; None]
          ++ Some (Some (listing_text [addr_a; addr_b])) :: [])
       (alone_on_a [])
     = (set_NODES (parse_listing (Py.strip (listing_text [addr_a; addr_b])))
          (alone_on_a []),
        repeat (DiscoveryJoin
                  ("Join-Discovery-Service "
                     ++ own_address (cfg := node_a) ++ Py.nl)%string) 2,
        Return tt).
Proof.
  split; [reflexivity|].
  exact (join_retries_until_a_reply (cfg := node_a) (alone_on_a [])
           [None; Some None; None] (listing_text [addr_a; addr_b]) []
           eq_refl).
Defined.

Lemma refused_write_changes_nothing_witness :
  validate_filename "." = true
  /\ open_wb_error storage_dir_on_a (os_path_join "storage" ".")
     = Some IsADirectoryError
  /\ serve_http
       (save_file (cfg := node_a) "." (Some "data"%string)) storage_dir_on_a
     = (storage_dir_on_a, [], Return (500, Text "Internal Server Error")).
Proof.
  split; [reflexivity|]. split; [reflexivity|].
  exact (proj2 (proj1 (refused_write_changes_nothing (cfg := node_a)
                         storage_dir_on_a "." IsADirectoryError
                         eq_refl eq_refl) "data"%string)).
Defined.

Lemma request_for_a_directory_witness :
  is_token "." = true
  /\ validate_filename "." = true
  /\ dirs storage_dir_on_a (os_path_join "storage" ".")
     = Some {| dir_mtime := 50%N; dir_entries := ["notes.txt"%string] |}
  /\ handle_connection (cfg := node_a)
       (Some ("File-Provision-Request ." ++ Py.nl)%string) storage_dir_on_a
     = (storage_dir_on_a,
        [FsExists "storage/."; FsRead "storage/.";
         LogError IsADirectoryError;
         ConnSend "Error processing request"; ConnClose],
        Return tt).
Proof.
  split; [reflexivity|]. split; [reflexivity|]. split; [reflexivity|].
  exact (proj1 (request_for_a_directory (cfg := node_a) storage_dir_on_a "."
                  {| dir_mtime := 50%N; dir_entries := ["notes.txt"%string] |}
                  eq_refl eq_refl eq_refl eq_refl)).
Defined.

Lemma join_after_malformed_join_gets_no_listing_witness :
  is_token "localhost" = true
  /\ is_field "10.0.0.3" = true
  /\ is_field "6000" = true
  /\ trace (Discovery.handle_node_registration
              (Some (Discovery.join_message "10.0.0.3" "6000")) true 9%N
              (final_state
                 (Discovery.handle_node_registration
                    (Some ("Join-Discovery-Service localhost" ++ Py.nl)%string)
                    true 7%N two_nodes)))
     = [Discovery.Print ValueError; Discovery.Close].
Proof.
  split; [reflexivity|]. split; [reflexivity|]. split; [reflexivity|].
  refine (proj1 (proj2 (proj2
            (join_after_malformed_join_gets_no_listing two_nodes
               "localhost" "10.0.0.3" "6000" 7%N 9%N
               eq_refl eq_refl _ eq_refl eq_refl)))).
  intros [H|[H|[]]]; discriminate H.
Defined.
End MoreWitnesses.
